(** * data-killer: a shallow embedding of the removal workflow

    The development follows the TypeScript sources:
    - [ai-analyzer.ts]   : [parseAnalysisResponse], [updateBrokerWithAnalysis],
                           [saveUpdatedBroker], [analyzeFailureScreenshot],
                           [parsePageAnalysisResponse];
    - [removal-engine.ts]: [removeFromBroker] and its phase helpers;
    - [index.ts]         : the per-broker loop of [main] and the final save;
    - [types.ts], [cli.ts]: [UserSchema], the prompt validators, the stored
                           profile.

    Conventions.  A JavaScript string is a [string] whose characters are its
    UTF-16 code units, all below 256 (one [ascii] per code unit).  A
    JavaScript number that comes out of [parseInt] is [NaN] or an integer.
    Every call that leaves the process (browser page, file write, HTTP call,
    clock) is answered by an environment that sees the history of calls. *)

From Stdlib Require Import ZArith Lia Bool Ascii String List.
From stdpp Require Import base gmap strings list.
Import ListNotations.
Open Scope string_scope.
Open Scope Z_scope.

(** ** JavaScript strings *)
Module Js.

Definition code (c : ascii) : N := N_of_ascii c.

(** [String.prototype.toLowerCase] on code units below 256: A-Z and the
    Latin-1 capitals (all but the multiplication sign) move up by 32. *)
Definition lower_char (c : ascii) : ascii :=
  let n := code c in
  if ((65 <=? n) && (n <=? 90))%N then ascii_of_N (n + 32)
  else if ((192 <=? n) && (n <=? 222) && negb (n =? 215))%N then ascii_of_N (n + 32)
  else c.

Fixpoint toLowerCase (s : string) : string :=
  match s with
  | EmptyString => EmptyString
  | String c r => String (lower_char c) (toLowerCase r)
  end.



(** [s.includes(sub)] *)
Fixpoint includes (s sub : string) : bool :=
  String.prefix sub s ||
  match s with
  | EmptyString => false
  | String _ r => includes r sub
  end.

(** [s.split(sep)] for a one-character separator: never the empty list. *)
Fixpoint split (sep : ascii) (s : string) : list string :=
  match s with
  | EmptyString => [EmptyString]
  | String c r =>
      if Ascii.eqb c sep then EmptyString :: split sep r
      else match split sep r with
           | h :: t => String c h :: t
           | [] => [String c EmptyString]
           end
  end.

(** [xs.slice(1)] *)
Definition slice1 {A} (xs : list A) : list A := List.tl xs.

(** [xs.join(sep)] *)
Definition join (sep : string) (xs : list string) : string := String.concat sep xs.

(** White space as [trim] and [parseInt] see it (code units below 256). *)
Definition is_space (c : ascii) : bool :=
  let n := code c in
  (((9 <=? n) && (n <=? 13)) || (n =? 32) || (n =? 160))%N.

Fixpoint trimStart (s : string) : string :=
  match s with
  | EmptyString => EmptyString
  | String c r => if is_space c then trimStart r else s
  end.

Fixpoint trimEnd (s : string) : string :=
  match s with
  | EmptyString => EmptyString
  | String c r =>
      match trimEnd r with
      | EmptyString => if is_space c then EmptyString else String c EmptyString
      | r' => String c r'
      end
  end.

Definition trim (s : string) : string := trimEnd (trimStart s).

(** [s.substring(0, n)] *)
Definition substring0 (n : nat) (s : string) : string := String.substring 0 n s.

(** Truthiness of a string: the empty string is falsy. *)
Definition truthy (s : string) : bool :=
  match s with EmptyString => false | _ => true end.

(** [a || b] on strings *)
Definition or_else (a b : string) : string := if truthy a then a else b.

(** *** Numbers *)
Inductive number : Type :=
| NaN
| Num (z : Z).

Definition digit_value (c : ascii) : option Z :=
  let n := code c in
  if ((48 <=? n) && (n <=? 57))%N then Some (Z.of_N n - 48)
  else if ((97 <=? n) && (n <=? 122))%N then Some (Z.of_N n - 87)
  else if ((65 <=? n) && (n <=? 90))%N then Some (Z.of_N n - 55)
  else None.

(** The longest prefix of digits below [radix], read from the left;
    [None] while no digit has been read. *)
Fixpoint read_digits (radix : Z) (acc : option Z) (s : string) : option Z :=
  match s with
  | EmptyString => acc
  | String c r =>
      match digit_value c with
      | Some d =>
          if d <? radix
          then read_digits radix (Some (radix * (match acc with Some a => a | None => 0 end) + d)) r
          else acc
      | None => acc
      end
  end.

Definition strip_sign (s : string) : Z * string :=
  match s with
  | String "-" r => (-1, r)
  | String "+" r => (1, r)
  | _ => (1, s)
  end.

Definition strip_hex (s : string) : Z * string :=
  match s with
  | String "0" (String "x" r) => (16, r)
  | String "0" (String "X" r) => (16, r)
  | _ => (10, s)
  end.

(** [parseInt(s)] with no radix argument.  The integer is exact here; the
    double that JavaScript returns is its rounding, which the clamp to
    [1, 10] does not see. *)
Definition parseInt (s : string) : number :=
  let '(sign, s1) := strip_sign (trimStart s) in
  let '(radix, s2) := strip_hex s1 in
  match read_digits radix None s2 with
  | Some v => Num (sign * v)
  | None => NaN
  end.

(** [Math.min] and [Math.max]: [NaN] if an argument is. *)
Definition min (a b : number) : number :=
  match a, b with
  | Num x, Num y => Num (Z.min x y)
  | _, _ => NaN
  end.

Definition max (a b : number) : number :=
  match a, b with
  | Num x, Num y => Num (Z.max x y)
  | _, _ => NaN
  end.

(** [a >= b]: false as soon as one side is [NaN]. *)
Definition ge (a b : number) : bool :=
  match a, b with
  | Num x, Num y => y <=? x
  | _, _ => false
  end.

Fixpoint digits_of_pos (fuel : nat) (n : Z) (acc : string) : string :=
  match fuel with
  | O => acc
  | S f =>
      let acc' := String (ascii_of_N (Z.to_N (48 + n mod 10))) acc in
      if n <? 10 then acc' else digits_of_pos f (n / 10) acc'
  end.

(** [String(n)] for the numbers of this development. *)
Definition toString (n : number) : string :=
  match n with
  | NaN => "NaN"
  | Num z =>
      if z <? 0 then String "-" (digits_of_pos (Z.to_nat (Z.log2 (- z)) + 1) (- z) EmptyString)
      else digits_of_pos (Z.to_nat (Z.log2 z) + 1) z EmptyString
  end.

End Js.

(** ** types.ts *)

Record Broker : Type := mkBroker {
  name : string;
  url : string;
  opt_out_url : string;
  requires_id_upload : bool;
  notes : string;
}.

Record User : Type := mkUser {
  firstName : string;
  lastName : string;
  email : string;
  address : string;
  city : string;
  state : string;
  zip : string;
  phone : string;
  dateOfBirth : string;
  additionalNotes : option string;
}.

(** ** ai-analyzer.ts: parsing the analysis *)

Record FailureAnalysis : Type := mkFailureAnalysis {
  problem : string;
  suggestedFix : string;
  nextSteps : list string;
  specialInstructions : string;
  confidence : Js.number;
}.

(** The [let] variables of [parseAnalysisResponse]. *)
Record ParseVars : Type := mkParseVars {
  v_problem : string;
  v_suggestedFix : string;
  v_nextSteps : list string;
  v_specialInstructions : string;
  v_confidence : Js.number;
}.

Definition parse_init : ParseVars :=
  {| v_problem := ""; v_suggestedFix := ""; v_nextSteps := [];
     v_specialInstructions := ""; v_confidence := Js.Num 5 |}.

(** [line.split(':').slice(1).join(':').trim()] *)
Definition after_colon (line : string) : string :=
  Js.trim (Js.join ":" (Js.slice1 (Js.split ":" line))).

(** [line.split(':')[1]?.trim() || '5'] *)
Definition confidence_text (line : string) : string :=
  match nth_error (Js.split ":" line) 1 with
  | Some seg => Js.or_else (Js.trim seg) "5"
  | None => "5"
  end.

(** One turn of the [for (const line of lines)] loop. *)
Definition parse_line (v : ParseVars) (line : string) : ParseVars :=
  let low := Js.toLowerCase line in
  if Js.includes low "problem:" || Js.includes low "issue:" then
    {| v_problem := after_colon line; v_suggestedFix := v_suggestedFix v;
       v_nextSteps := v_nextSteps v; v_specialInstructions := v_specialInstructions v;
       v_confidence := v_confidence v |}
  else if Js.includes low "fix:" || Js.includes low "solution:" then
    {| v_problem := v_problem v; v_suggestedFix := after_colon line;
       v_nextSteps := v_nextSteps v; v_specialInstructions := v_specialInstructions v;
       v_confidence := v_confidence v |}
  else if Js.includes low "steps:" || Js.includes low "next:" then
    let steps := after_colon line in
    {| v_problem := v_problem v; v_suggestedFix := v_suggestedFix v;
       v_nextSteps :=
         List.filter (fun s => (0 <? String.length s)%nat)
                     (List.map Js.trim (Js.split "," steps));
       v_specialInstructions := v_specialInstructions v;
       v_confidence := v_confidence v |}
  else if Js.includes low "confidence:" then
    let conf := Js.parseInt (confidence_text line) in
    {| v_problem := v_problem v; v_suggestedFix := v_suggestedFix v;
       v_nextSteps := v_nextSteps v; v_specialInstructions := v_specialInstructions v;
       v_confidence := Js.max (Js.Num 1) (Js.min (Js.Num 10) conf) |}
  else v.

(** The record returned by the [catch] clause of [parseAnalysisResponse]. *)
Definition parse_failed : FailureAnalysis :=
  {| problem := "Failed to parse analysis";
     suggestedFix := "Manual review required";
     nextSteps := ["Check screenshot manually"];
     specialInstructions := "";
     confidence := Js.Num 0 |}.

(** The [try] block of [parseAnalysisResponse] on a string. *)
Definition parse_response_string (response : string) : FailureAnalysis :=
  let v := fold_left parse_line (Js.split "010" response) parse_init in
  let problem := if negb (Js.truthy (v_problem v))
                 then Js.substring0 200 response ++ "..."
                 else v_problem v in
  let suggestedFix := if negb (Js.truthy (v_suggestedFix v))
                      then "Manual review required"
                      else v_suggestedFix v in
  {| problem := problem;
     suggestedFix := suggestedFix;
     nextSteps := v_nextSteps v;
     specialInstructions := suggestedFix;
     confidence := v_confidence v |}.

(** [parseAnalysisResponse].  The completion's [message.content] is a string
    or [null]; on [null] the first statement, [response.split], throws inside
    the [try] and the [catch] clause answers. *)
Definition parseAnalysisResponse (response : option string) : FailureAnalysis :=
  match response with
  | Some r => parse_response_string r
  | None => parse_failed
  end.


(** The record returned by the [catch] clause of [analyzeFailureScreenshot]. *)
Definition analysis_failed : FailureAnalysis :=
  {| problem := "Analysis failed";
     suggestedFix := "Manual review required";
     nextSteps := ["Check screenshot manually"];
     specialInstructions := "";
     confidence := Js.Num 0 |}.

(** ** Results and sessions (types.ts, with the two fields that
    [removeFromBroker] adds through [(result as any)]) *)

Record RemovalResult : Type := mkRemovalResult {
  broker : Broker;
  success : bool;
  error : option string;
  timestamp : Z;
  details : option string;
  screenshot : option string;
  aiAnalysis : option FailureAnalysis;
}.

Record RemovalSession : Type := mkRemovalSession {
  user : User;
  results : list RemovalResult;
  startTime : Z;
  endTime : option Z;
}.

(** ** The page oracle: what [page.extract] returns, one record per schema *)

Record SearchCheck : Type := mkSearchCheck {
  hasSearchForm : bool;
  hasRemovalForm : bool;
  search_pageType : string;
  needsSearchFirst : bool;
}.

Record ListingCheck : Type := mkListingCheck {
  foundListing : bool;
  listingText : string;
  clickedListing : bool;
}.

Record FallbackCheck : Type := mkFallbackCheck {
  foundPossibleListing : bool;
  clickedPossibleListing : bool;
}.

Record FieldCheck : Type := mkFieldCheck {
  allFieldsFilled : bool;
  field_missingFields : list string;
  filledFields : list string;
}.

Record CheckboxCheck : Type := mkCheckboxCheck {
  foundCheckboxes : bool;
  checkedCheckboxes : bool;
  checkboxCount : Z;
  checkboxTypes : list string;
}.

Record RadioCheck : Type := mkRadioCheck {
  foundRadioButtons : bool;
  selectedRadioButtons : bool;
  radioButtonCount : Z;
}.

Record FormCheck : Type := mkFormCheck {
  formReady : bool;
  missingFields : list string;
  uncheckedCheckboxes : list string;
  submitButtonText : string;
}.

Record Recheck : Type := mkRecheck {
  recheck_formReady : bool;
  stillMissing : list string;
}.

Record ErrorCheck : Type := mkErrorCheck {
  foundErrorIndicators : bool;
  errorMessages : list string;
  hasMissingFields : bool;
  hasUncheckedCheckboxes : bool;
}.

Record SuccessCheck : Type := mkSuccessCheck {
  foundSuccessText : bool;
  successText : string;
  pageTitle : string;
  mainContent : string;
}.

Record StillFormCheck : Type := mkStillFormCheck {
  stillOnForm : bool;
  hasSubmitButton : bool;
  hasFormFields : bool;
  pageType : string;
}.

(** The [page.extract] call sites, by the method that issues them. *)
Inductive Probe : Type :=
| PSearch                 (* checkIfNeedsSearch *)
| PListing (u : User)     (* findAndClickListing, exact match *)
| PFallback               (* findAndClickListing, any plausible listing *)
| PFields                 (* fillRemovalForm *)
| PCheckbox               (* handleCheckboxesAndTerms *)
| PRadio                  (* handleCheckboxesAndTerms *)
| PFormReady              (* submitRemovalForm *)
| PRecheck                (* submitRemovalForm, after the checkbox pass *)
| PErrors                 (* verifySubmission *)
| PSuccess                (* verifySubmission *)
| PStillForm.             (* verifySubmission *)

Definition probe_answer (p : Probe) : Type :=
  match p with
  | PSearch => SearchCheck
  | PListing _ => ListingCheck
  | PFallback => FallbackCheck
  | PFields => FieldCheck
  | PCheckbox => CheckboxCheck
  | PRadio => RadioCheck
  | PFormReady => FormCheck
  | PRecheck => Recheck
  | PErrors => ErrorCheck
  | PSuccess => SuccessCheck
  | PStillForm => StillFormCheck
  end.

(** The [page.act] call sites; the instruction text is fixed by the site and
    the data it interpolates. *)
Inductive Action : Type :=
| ASearch (u : User)              (* performSearch *)
| ASpecial (instructions : string) (* applySpecialInstructions *)
| AFill (u : User)                (* fillRemovalForm *)
| AFillRemaining                  (* fillRemovalForm, second pass *)
| AFillRequired                   (* submitRemovalForm *)
| ACheckBoxes                     (* submitRemovalForm *)
| AClickSubmit.                   (* submitRemovalForm *)

(** Every call that leaves the process. *)
Inductive Call : Type :=
| CGoto (target : string)
| CWaitForLoadState
| CWaitForTimeout (ms : Z)
| CExtract (p : Probe)
| CAct (a : Action)
| CScreenshot
| CMkdir (path : string)
| CWriteFile (path : string) (data : string)
| CVision (b : Broker) (err : string) (image : string).

Definition Exn : Type := string.

Inductive Res (A : Type) : Type :=
| Ok (a : A)
| Throw (e : Exn).
Arguments Ok {A} a.
Arguments Throw {A} e.

Definition answer_type (c : Call) : Type :=
  match c with
  | CExtract p => probe_answer p
  | CScreenshot => string
  | CVision _ _ _ => option string
  | _ => unit
  end.

(** The environment answers a call knowing the calls made so far, and tells
    the time. *)
Record Env : Type := mkEnv {
  answer : forall (history : list Call) (c : Call), Res (answer_type c);
  clock : list Call -> Z;
}.

(** A scenario: calls in order, each with the answer it gets. *)
Definition Step : Type := { c : Call & Res (answer_type c) }.
Definition on (c : Call) (r : Res (answer_type c)) : Step := existT c r.

Fixpoint follows (env : Env) (history : list Call) (script : list Step) : Prop :=
  match script with
  | [] => True
  | existT c r :: rest => answer env history c = r /\ follows env (history ++ [c]) rest
  end.

(** ** Files and the process state *)

Record World : Type := mkWorld {
  trace : list Call;
  files : gmap string string;
  dirs : gset string;
}.

(** [brokers.json] and [removal-session.json] are read and written through
    [JSON.parse] and [JSON.stringify]. *)
Record Json : Type := mkJson {
  parse_brokers : string -> option (list Broker);
  stringify_brokers : list Broker -> string;
  stringify_session : RemovalSession -> string;
}.

(** ** Computations: the world and the local variables survive a throw *)

Definition M (L A : Type) : Type := World * L -> World * L * Res A.

Definition ret {L A} (a : A) : M L A := fun s => (s, Ok a).

Definition throw {L A} (e : Exn) : M L A := fun s => (s, Throw e).

Definition bind {L A B} (m : M L A) (k : A -> M L B) : M L B :=
  fun s =>
    match m s with
    | (s', Ok a) => k a s'
    | (s', Throw e) => (s', Throw e)
    end.

(** [try { m } catch (e) { h e }] *)
Definition try_catch {L A} (m : M L A) (h : Exn -> M L A) : M L A :=
  fun s =>
    match m s with
    | (s', Ok a) => (s', Ok a)
    | (s', Throw e) => h e s'
    end.

Definition get {L} : M L L := fun s => (s, Ok (snd s)).

Definition modify {L} (f : L -> L) : M L unit := fun s => ((fst s, f (snd s)), Ok tt).

(** Run [m] with fresh local variables [l0]; hand back their final value. *)
Definition with_locals {L L' A} (l0 : L') (m : M L' A) : M L (A * L') :=
  fun s =>
    match m (fst s, l0) with
    | ((w', l'), Ok a) => ((w', snd s), Ok (a, l'))
    | ((w', l'), Throw e) => ((w', snd s), Throw e)
    end.

Notation "x <- m ;; k" := (bind m (fun x => k))
  (at level 100, m at next level, right associativity).
Notation "m ;; k" := (bind m (fun _ => k))
  (at level 100, right associativity).

Definition log (c : Call) (w : World) : World :=
  {| trace := trace w ++ [c]; files := files w; dirs := dirs w |}.

(** ** Pure helpers of removal-engine.ts *)

Definition is_digit (c : ascii) : bool :=
  let n := Js.code c in ((48 <=? n) && (n <=? 57))%N.

Definition is_alpha (c : ascii) : bool :=
  let n := Js.code c in
  (((65 <=? n) && (n <=? 90)) || ((97 <=? n) && (n <=? 122)))%N.

(** [name.replace(/[^a-zA-Z0-9_-]/g, "_")] *)
Definition sanitize_char (c : ascii) : ascii :=
  if is_alpha c || is_digit c || Ascii.eqb c "_" || Ascii.eqb c "-" then c else "_"%char.

Fixpoint sanitize (s : string) : string :=
  match s with
  | EmptyString => EmptyString
  | String c r => String (sanitize_char c) (sanitize r)
  end.

Definition screenshot_path (ok : bool) (b : Broker) : string :=
  "screenshots/" ++ (if ok then "success" else "failure") ++ "-" ++ sanitize (name b) ++ ".png".

Fixpoint strip_prefix (p s : string) : option string :=
  match p, s with
  | EmptyString, _ => Some s
  | String a p', String b s' => if Ascii.eqb a b then strip_prefix p' s' else None
  | String _ _, EmptyString => None
  end.

Fixpoint skip_digits (s : string) : string :=
  match s with
  | String c r => if is_digit c then skip_digits r else s
  | EmptyString => EmptyString
  end.

(** What [.] refuses among code units below 256: line feed, carriage return.
    The other two line terminators of the language, U+2028 and U+2029, are
    not code units of the strings modelled here. *)
Definition is_line_terminator (c : ascii) : bool :=
  let n := Js.code c in ((n =? 10) || (n =? 13))%N.

Fixpoint take_line (s : string) : string :=
  match s with
  | String c r => if is_line_terminator c then EmptyString else String c (take_line r)
  | EmptyString => EmptyString
  end.

(** [/AI Analysis \(\d+\/10\): (.+)/] tried at the start of [s]: group 1. *)
Definition ai_match_here (s : string) : option string :=
  match strip_prefix "AI Analysis (" s with
  | Some (String d r1) =>
      if is_digit d then
        match strip_prefix "/10): " (skip_digits r1) with
        | Some r2 =>
            match take_line r2 with
            | EmptyString => None
            | g => Some g
            end
        | None => None
        end
      else None
  | _ => None
  end.

(** [notes.match(/AI Analysis \(\d+\/10\): (.+)/)]: the leftmost match. *)
Fixpoint ai_match (s : string) : option string :=
  match ai_match_here s with
  | Some g => Some g
  | None =>
      match s with
      | EmptyString => None
      | String _ r => ai_match r
      end
  end.

Definition searchFirstBrokers : list string :=
  ["Whitepages"; "Spokeo"; "BeenVerified"; "Intelius"; "TruthFinder";
   "MyLife"; "Radaris"; "US Search"; "411.com"; "411 Locate"].

(** The guard shared by [removeFromBroker] and [applySpecialInstructions]. *)
Definition has_instructions (b : Broker) : bool :=
  Js.truthy (notes b) &&
  (Js.includes (notes b) "AI Analysis" || Js.includes (notes b) "Enter your email"
   || Js.includes (notes b) "Click the").

Record Verification : Type := mkVerification {
  v_success : bool;
  message : string;
}.

Record RemovalEngine : Type := mkRemovalEngine {
  stagehand : bool;   (* [this.stagehand] is not null *)
}.

Definition initial_result (b : Broker) (t : Z) : RemovalResult :=
  {| broker := b; success := false; error := None; timestamp := t;
     details := None; screenshot := None; aiAnalysis := None |}.

Definition set_error (e : string) (r : RemovalResult) : RemovalResult :=
  {| broker := broker r; success := success r; error := Some e; timestamp := timestamp r;
     details := details r; screenshot := screenshot r; aiAnalysis := aiAnalysis r |}.

Definition set_verdict (v : Verification) (r : RemovalResult) : RemovalResult :=
  {| broker := broker r; success := v_success v; error := error r; timestamp := timestamp r;
     details := Some (message v); screenshot := screenshot r; aiAnalysis := aiAnalysis r |}.

Definition set_screenshot (p : string) (r : RemovalResult) : RemovalResult :=
  {| broker := broker r; success := success r; error := error r; timestamp := timestamp r;
     details := details r; screenshot := Some p; aiAnalysis := aiAnalysis r |}.

Definition set_aiAnalysis (a : FailureAnalysis) (r : RemovalResult) : RemovalResult :=
  {| broker := broker r; success := success r; error := error r; timestamp := timestamp r;
     details := details r; screenshot := screenshot r; aiAnalysis := Some a |}.

(** [result.error || result.details || "Unknown error"] *)
Definition best_error (r : RemovalResult) : string :=
  match error r with
  | Some e => if Js.truthy e then e else
      match details r with
      | Some d => Js.or_else d "Unknown error"
      | None => "Unknown error"
      end
  | None =>
      match details r with
      | Some d => Js.or_else d "Unknown error"
      | None => "Unknown error"
      end
  end.

Definition set_notes (n : string) (b : Broker) : Broker :=
  {| name := name b; url := url b; opt_out_url := opt_out_url b;
     requires_id_upload := requires_id_upload b; notes := n |}.

(** [brokers.findIndex(b => b.name === updated.name)] *)
Fixpoint findIndex (nm : string) (bs : list Broker) : option nat :=
  match bs with
  | [] => None
  | b :: rest => if String.eqb (name b) nm then Some O else option_map S (findIndex nm rest)
  end.

Definition push_result (r : RemovalResult) (s : RemovalSession) : RemovalSession :=
  {| user := user s; results := results s ++ [r]; startTime := startTime s; endTime := endTime s |}.

Definition set_endTime (t : Z) (s : RemovalSession) : RemovalSession :=
  {| user := user s; results := results s; startTime := startTime s; endTime := Some t |}.

Definition LF : string := String "010" EmptyString.

(** ** The program *)
Section Program.

Variable json : Json.
Variable env : Env.

(** *** Calls *)

Definition call {L} (c : Call) : M L (answer_type c) :=
  fun s => ((log c (fst s), snd s), answer env (trace (fst s)) c).

Definition now {L} : M L Z :=
  fun s => (s, Ok (clock env (trace (fst s)))).

Definition goto {L} (target : string) : M L unit := call (CGoto target).
Definition waitForLoadState {L} : M L unit := call CWaitForLoadState.
Definition waitForTimeout {L} (ms : Z) : M L unit := call (CWaitForTimeout ms).
Definition extract {L} (p : Probe) : M L (probe_answer p) := call (CExtract p).
Definition act {L} (a : Action) : M L unit := call (CAct a).
Definition page_screenshot {L} : M L string := call CScreenshot.

Definition readFileSync {L} (path : string) : M L string :=
  fun s =>
    match files (fst s) !! path with
    | Some data => (s, Ok data)
    | None => (s, Throw ("ENOENT: no such file or directory, open '" ++ path ++ "'"))
    end.

Definition writeFileSync {L} (path data : string) : M L unit :=
  fun s =>
    let w := log (CWriteFile path data) (fst s) in
    match answer env (trace (fst s)) (CWriteFile path data) with
    | Ok _ => (({| trace := trace w; files := <[path := data]> (files w); dirs := dirs w |},
                snd s), Ok tt)
    | Throw e => ((w, snd s), Throw e)
    end.

Definition existsSync {L} (path : string) : M L bool :=
  fun s => (s, Ok (bool_decide (path ∈ dirs (fst s)))).

Definition mkdirSync {L} (path : string) : M L unit :=
  fun s =>
    let w := log (CMkdir path) (fst s) in
    match answer env (trace (fst s)) (CMkdir path) with
    | Ok _ => (({| trace := trace w; files := files w; dirs := {[path]} ∪ dirs w |},
                snd s), Ok tt)
    | Throw e => ((w, snd s), Throw e)
    end.

(** *** ai-analyzer.ts *)

Definition callOpenAIWithVision {L} (b : Broker) (err image : string) : M L (option string) :=
  call (CVision b err image).

Definition analyzeFailureScreenshot {L} (screenshotPath : string) (b : Broker) (err : string)
  : M L FailureAnalysis :=
  try_catch
    (image <- readFileSync screenshotPath ;;
     response <- callOpenAIWithVision b err image ;;
     ret (parseAnalysisResponse response))
    (fun _ => ret analysis_failed).

Definition saveUpdatedBroker {L} (updatedBroker : Broker) : M L unit :=
  try_catch
    (brokersData <- readFileSync "brokers.json" ;;
     match parse_brokers json brokersData with
     | None => throw "SyntaxError"
     | Some brokers =>
         match findIndex (name updatedBroker) brokers with
         | Some brokerIndex =>
             writeFileSync "brokers.json"
               (stringify_brokers json (<[brokerIndex := updatedBroker]> brokers))
         | None => ret tt
         end
     end)
    (fun _ => ret tt).

Definition annotation (analysis : FailureAnalysis) : string :=
  LF ++ LF ++ "AI Analysis (" ++ Js.toString (confidence analysis) ++ "/10): "
     ++ specialInstructions analysis.

Definition updateBrokerWithAnalysis {L} (b : Broker) (analysis : FailureAnalysis) : M L Broker :=
  if Js.ge (confidence analysis) (Js.Num 6) then
    let updatedBroker := set_notes (notes b ++ annotation analysis) b in
    saveUpdatedBroker updatedBroker ;;
    ret updatedBroker
  else ret b.

(** *** removal-engine.ts *)

Definition checkIfNeedsSearch {L} (b : Broker) : M L bool :=
  searchCheck <- extract PSearch ;;
  ret (needsSearchFirst searchCheck || existsb (String.eqb (name b)) searchFirstBrokers).

Definition performSearch {L} (u : User) : M L unit := act (ASearch u).

Definition findAndClickListing {L} (u : User) : M L bool :=
  listingCheck <- extract (PListing u) ;;
  if foundListing listingCheck && clickedListing listingCheck then ret true
  else
    fallbackCheck <- extract PFallback ;;
    ret (foundPossibleListing fallbackCheck && clickedPossibleListing fallbackCheck).

Definition handleCheckboxesAndTerms {L} : M L unit :=
  checkboxCheck <- extract PCheckbox ;;
  radioCheck <- extract PRadio ;;
  ret tt.

Definition fillRemovalForm {L} (u : User) : M L unit :=
  act (AFill u) ;;
  waitForTimeout 1000 ;;
  fieldCheck <- extract PFields ;;
  (if negb (allFieldsFilled fieldCheck)
   then (act AFillRemaining ;; waitForTimeout 1000)
   else ret tt) ;;
  handleCheckboxesAndTerms.

Definition applySpecialInstructions {L} (b : Broker) : M L unit :=
  if has_instructions b then
    let instructions :=
      if Js.includes (notes b) "AI Analysis"
      then match ai_match (notes b) with
           | Some g => g
           | None => EmptyString
           end
      else notes b in
    if Js.truthy instructions then act (ASpecial instructions) else ret tt
  else ret tt.

Definition clickSubmit {L} : M L unit :=
  act AClickSubmit ;;
  waitForLoadState.

Definition submitRemovalForm {L} : M L unit :=
  act AFillRequired ;;
  formCheck <- extract PFormReady ;;
  if negb (formReady formCheck) then
    if (0 <? List.length (uncheckedCheckboxes formCheck))%nat then
      act ACheckBoxes ;;
      waitForTimeout 1000 ;;
      recheck <- extract PRecheck ;;
      if negb (recheck_formReady recheck) then ret tt   (* return: no submit *)
      else clickSubmit
    else ret tt                                         (* return: no submit *)
  else clickSubmit.

Definition verifySubmission {L} : M L Verification :=
  waitForTimeout 2000 ;;
  errorCheck <- extract PErrors ;;
  if foundErrorIndicators errorCheck then
    ret {| v_success := false;
           message := "Form errors detected: " ++ Js.join ", " (errorMessages errorCheck) |}
  else
    successCheck <- extract PSuccess ;;
    if foundSuccessText successCheck then
      ret {| v_success := true;
             message := "Success confirmed: " ++ successText successCheck |}
    else
      formCheck <- extract PStillForm ;;
      if stillOnForm formCheck || hasSubmitButton formCheck || hasFormFields formCheck then
        ret {| v_success := false;
               message := "Still on form page - submission failed. Page type: "
                          ++ pageType formCheck |}
      else
        ret {| v_success := false;
               message := "Unable to verify success - no clear success indicators found" |}.

(** The screenshot block, as both the [try] and the [catch] of
    [removeFromBroker] have it: capture, write, record the path; on a fault
    record ["failed_to_save"]. *)
Definition take_screenshot (screenshotPath : string) : M RemovalResult unit :=
  try_catch
    (screenshotBuffer <- page_screenshot ;;
     writeFileSync screenshotPath screenshotBuffer ;;
     modify (set_screenshot screenshotPath))
    (fun _ => modify (set_screenshot "failed_to_save")).

(** The [else] branch after the screenshot: the failure goes to the analyzer
    when a screenshot was saved. *)
Definition analyze_failure (b : Broker) : M RemovalResult unit :=
  result <- get ;;
  match screenshot result with
  | Some shot =>
      if Js.truthy shot && negb (String.eqb shot "failed_to_save") then
        try_catch
          (analysis <- analyzeFailureScreenshot shot b (best_error result) ;;
           updatedBroker <- updateBrokerWithAnalysis b analysis ;;
           modify (set_aiAnalysis analysis))
          (fun _ => ret tt)
      else ret tt
  | None => ret tt
  end.

(** Lines 169-207: the screenshot after the attempt, then the analysis of a
    failure. *)
Definition record_evidence (b : Broker) : M RemovalResult unit :=
  result <- get ;;
  take_screenshot (screenshot_path (success result) b) ;;
  result <- get ;;
  if success result then ret tt else analyze_failure b.

(** Lines 148-207: from the stored instructions to the analysis. *)
Definition fill_submit_verify (b : Broker) (u : User) : M RemovalResult unit :=
  (if has_instructions b then applySpecialInstructions b else ret tt) ;;
  fillRemovalForm u ;;
  submitRemovalForm ;;
  verification <- verifySubmission ;;
  modify (set_verdict verification) ;;
  record_evidence b.

(** The [try] block of [removeFromBroker]; where the source says
    [return result] the block ends, the record being a local variable. *)
Definition try_block (b : Broker) (u : User) : M RemovalResult unit :=
  goto (opt_out_url b) ;;
  waitForLoadState ;;
  needsSearch <- checkIfNeedsSearch b ;;
  if needsSearch then
    performSearch u ;;
    waitForLoadState ;;
    listingFound <- findAndClickListing u ;;
    if negb listingFound then
      modify (set_error "Could not find user listing")   (* return result *)
    else
      waitForLoadState ;;
      fill_submit_verify b u
  else fill_submit_verify b u.

(** The [catch] block of [removeFromBroker]; its test of [this.stagehand]
    and of the page holds whenever the [try] block was entered. *)
Definition catch_block (b : Broker) (e : Exn) : M RemovalResult unit :=
  modify (set_error e) ;;
  take_screenshot (screenshot_path false b).

Definition removeFromBroker {L} (engine : RemovalEngine) (b : Broker) (u : User)
  : M L RemovalResult :=
  if negb (stagehand engine) then throw "Stagehand not initialized"
  else
    there <- existsSync "screenshots" ;;
    (if negb there then mkdirSync "screenshots" else ret tt) ;;
    t <- now ;;
    r <- with_locals (initial_result b t) (try_catch (try_block b u) (catch_block b)) ;;
    ret (snd r).

(** *** index.ts: the loop of [main] over [brokersToProcess] *)

Definition fault_result (b : Broker) (e : Exn) (t : Z) : RemovalResult :=
  {| broker := b; success := false; error := Some e; timestamp := t;
     details := None; screenshot := None; aiAnalysis := None |}.

Definition session_file : string := "removal-session.json".

(** One turn of the [for] loop. *)
Definition process_broker (engine : RemovalEngine) (u : User) (b : Broker)
  : M RemovalSession unit :=
  try_catch
    (result <- removeFromBroker engine b u ;;
     modify (push_result result) ;;
     session <- get ;;
     writeFileSync session_file (stringify_session json session))
    (fun e =>
       t <- now ;;
       modify (push_result (fault_result b e t))).

Fixpoint process_brokers (engine : RemovalEngine) (u : User) (bs : list Broker)
  : M RemovalSession unit :=
  match bs with
  | [] => ret tt
  | b :: rest => process_broker engine u b ;; process_brokers engine u rest
  end.

(** After the loop: stamp the end time and save the final session. *)
Definition finish_session : M RemovalSession unit :=
  t <- now ;;
  modify (set_endTime t) ;;
  session <- get ;;
  writeFileSync session_file (stringify_session json session).

Definition new_session (u : User) (t : Z) : RemovalSession :=
  {| user := u; results := []; startTime := t; endTime := None |}.

End Program.

(** ** types.ts: [UserSchema]; cli.ts: the prompt validators *)

(** A value as [JSON.parse] or the prompts hand it to the schema. *)
Inductive JsValue : Type :=
| JUndefined
| JString (s : string)
| JOther.              (* null, a number, a boolean, an object, an array *)

Record Candidate : Type := mkCandidate {
  c_firstName : JsValue;
  c_lastName : JsValue;
  c_email : JsValue;
  c_address : JsValue;
  c_city : JsValue;
  c_state : JsValue;
  c_zip : JsValue;
  c_phone : JsValue;
  c_dateOfBirth : JsValue;
  c_additionalNotes : JsValue;
}.

(** [z.string()] *)
Definition z_string (v : JsValue) : option string :=
  match v with
  | JString s => Some s
  | _ => None
  end.

(** [z.string().optional()] *)
Definition z_string_optional (v : JsValue) : option (option string) :=
  match v with
  | JUndefined => Some None
  | JString s => Some (Some s)
  | JOther => None
  end.

Definition is_alnum (c : ascii) : bool := is_alpha c || is_digit c.

Fixpoint all_chars (p : ascii -> bool) (s : string) : bool :=
  match s with
  | EmptyString => true
  | String c r => p c && all_chars p r
  end.

Fixpoint last_char (s : string) : option ascii :=
  match s with
  | EmptyString => None
  | String c EmptyString => Some c
  | String _ r => last_char r
  end.

Definition is_char (a c : ascii) : bool := Ascii.eqb a c.

(** One [[A-Z0-9][A-Z0-9\-]*] label of the domain. *)
Definition zod_label (l : string) : bool :=
  match l with
  | String c r => is_alnum c && all_chars (fun x => is_alnum x || is_char "-" x) r
  | EmptyString => false
  end.

(** [([A-Z0-9][A-Z0-9\-]*\.)+[A-Z]{2,}] on the labels between the dots. *)
Fixpoint zod_domain_labels (seen : bool) (ls : list string) : bool :=
  match ls with
  | [] => false
  | [tld] => seen && all_chars is_alpha tld && (2 <=? String.length tld)%nat
  | l :: rest => zod_label l && zod_domain_labels true rest
  end.

(** The check behind [z.string().email()].  zod is a dependency, not a file
    of the repository; this is the pattern zod 3 ships, read without case:
    no leading dot and no two dots in a row; a local part of letters,
    digits, underscore, apostrophe, plus, minus and dot that does not end in
    an apostrophe or a dot; one at sign; one or more labels, each a letter
    or digit followed by letters, digits and minus signs, each closed by a
    dot; a last label of two or more letters. *)
Definition zod_email (s : string) : bool :=
  match Js.split "@" s with
  | [loc; dom] =>
      negb (String.prefix "." s) && negb (Js.includes s "..")
      && all_chars (fun x => is_alnum x || is_char "_" x || is_char "'" x
                             || is_char "+" x || is_char "-" x || is_char "." x) loc
      && match last_char loc with
         | Some x => is_alnum x || is_char "_" x || is_char "+" x || is_char "-" x
         | None => false
         end
      && zod_domain_labels false (Js.split "." dom)
  | _ => false
  end.

Section Schema.

(** The email check of the schema library. *)
Variable email_check : string -> bool.

(** [UserSchema.parse(candidate)]: [None] when it throws. *)
Definition UserSchema_parse (c : Candidate) : option User :=
  match z_string (c_firstName c), z_string (c_lastName c), z_string (c_email c),
        z_string (c_address c), z_string (c_city c), z_string (c_state c),
        z_string (c_zip c), z_string (c_phone c), z_string (c_dateOfBirth c),
        z_string_optional (c_additionalNotes c) with
  | Some fn, Some ln, Some em, Some ad, Some ci, Some st, Some zp, Some ph, Some dob, Some an =>
      if email_check em
      then Some {| firstName := fn; lastName := ln; email := em; address := ad; city := ci;
                   state := st; zip := zp; phone := ph; dateOfBirth := dob;
                   additionalNotes := an |}
      else None
  | _, _, _, _, _, _, _, _, _, _ => None
  end.


End Schema.

(** *** The [validate] functions of [collectUserInfo] *)




















(** ** ai-analyzer.ts: parsing the page analysis *)

Record PageAnalysis : Type := mkPageAnalysis {
  steps : list string;
  page_pageType : string;
  formFields : list string;
  requiredActions : list string;
  page_confidence : Js.number;
}.

(** The [let] variables of [parsePageAnalysisResponse]. *)
Record PageVars : Type := mkPageVars {
  p_steps : list string;
  p_pageType : string;
  p_formFields : list string;
  p_requiredActions : list string;
  p_confidence : Js.number;
  inSteps : bool;
}.

Definition page_init : PageVars :=
  {| p_steps := []; p_pageType := "unknown"; p_formFields := []; p_requiredActions := [];
     p_confidence := Js.Num 5; inSteps := false |}.

(** [trimmed.split(':')[1]?.trim() || fallback] *)
Definition second_segment (fallback line : string) : string :=
  match nth_error (Js.split ":" line) 1 with
  | Some seg => Js.or_else (Js.trim seg) fallback
  | None => fallback
  end.

(** [text.split(',').map(f => f.trim()).filter(f => f.length > 0)] *)
Definition comma_list (text : string) : list string :=
  List.filter (fun f => (0 <? String.length f)%nat) (List.map Js.trim (Js.split "," text)).

(** [/^\d+\./] tried on [s]: what follows the match. *)
Definition numbered (s : string) : option string :=
  match s with
  | String d r =>
      if is_digit d then
        match skip_digits r with
        | String "." rest => Some rest
        | _ => None
        end
      else None
  | EmptyString => None
  end.

(** One turn of the [for (const line of lines)] loop.  After the header the
    source says [continue]; every other branch ends the turn as well. *)
Definition page_line (v : PageVars) (line : string) : PageVars :=
  let trimmed := Js.trim line in
  if String.prefix "STEPS:" trimmed then
    {| p_steps := p_steps v; p_pageType := p_pageType v; p_formFields := p_formFields v;
       p_requiredActions := p_requiredActions v; p_confidence := p_confidence v;
       inSteps := true |}
  else if String.prefix "PAGE_TYPE:" trimmed then
    {| p_steps := p_steps v; p_pageType := second_segment "unknown" trimmed;
       p_formFields := p_formFields v; p_requiredActions := p_requiredActions v;
       p_confidence := p_confidence v; inSteps := false |}
  else if String.prefix "FORM_FIELDS:" trimmed then
    {| p_steps := p_steps v; p_pageType := p_pageType v;
       p_formFields := comma_list (second_segment EmptyString trimmed);
       p_requiredActions := p_requiredActions v; p_confidence := p_confidence v;
       inSteps := inSteps v |}
  else if String.prefix "REQUIRED_ACTIONS:" trimmed then
    {| p_steps := p_steps v; p_pageType := p_pageType v; p_formFields := p_formFields v;
       p_requiredActions := comma_list (second_segment EmptyString trimmed);
       p_confidence := p_confidence v; inSteps := inSteps v |}
  else if String.prefix "CONFIDENCE:" trimmed then
    let conf := Js.parseInt (second_segment "5" trimmed) in
    {| p_steps := p_steps v; p_pageType := p_pageType v; p_formFields := p_formFields v;
       p_requiredActions := p_requiredActions v;
       p_confidence := Js.max (Js.Num 1) (Js.min (Js.Num 10) conf); inSteps := inSteps v |}
  else if inSteps v then
    match numbered trimmed with
    | Some rest =>
        (* trimmed.replace(/^\d+\.\s*/, '') *)
        let stepContent := Js.trimStart rest in
        if (0 <? String.length stepContent)%nat then
          {| p_steps := p_steps v ++ [stepContent]; p_pageType := p_pageType v;
             p_formFields := p_formFields v; p_requiredActions := p_requiredActions v;
             p_confidence := p_confidence v; inSteps := inSteps v |}
        else v
    | None => v
    end
  else v.

(** The record returned by the [catch] clause of [parsePageAnalysisResponse]. *)
Definition page_failed : PageAnalysis :=
  {| steps := ["Fill form fields"; "Check required checkboxes"; "Submit form"];
     page_pageType := "unknown"; formFields := []; requiredActions := [];
     page_confidence := Js.Num 0 |}.

(** [parsePageAnalysisResponse].  As for the failure analysis, the
    completion is a string or [null]; on [null] the first statement throws
    inside the [try] and the [catch] clause answers. *)
Definition parsePageAnalysisResponse (response : option string) : PageAnalysis :=
  match response with
  | Some r =>
      let v := fold_left page_line (Js.split "010" r) page_init in
      {| steps := p_steps v; page_pageType := p_pageType v; formFields := p_formFields v;
         requiredActions := p_requiredActions v; page_confidence := p_confidence v |}
  | None => page_failed
  end.

(** ** index.ts: the loop of [main], then the final save.  Between the two
    the engine is closed inside a [try] whose [catch] only logs. *)
Definition run_session (json : Json) (env : Env) (engine : RemovalEngine) (u : User)
    (bs : list Broker) : M RemovalSession unit :=
  process_brokers json env engine u bs ;;
  finish_session json env.

(** ** cli.ts: the stored profile *)

(** [JSON.parse] of [user.json] as far as the object the schema sees ([None]
    when the text is no JSON or holds no object), and [JSON.stringify] of a
    user. *)
Record UserJson : Type := mkUserJson {
  parse_user : string -> option Candidate;
  stringify_user : User -> string;
}.

Definition user_file : string := "user.json".

Section Profile.

Variable codec : UserJson.
Variable email_check : string -> bool.
Variable env : Env.

Definition saveUserData {L} (u : User) : M L unit :=
  try_catch
    (writeFileSync env user_file (stringify_user codec u))
    (fun _ => ret tt).

Definition loadUserData {L} : M L (option User) :=
  try_catch
    (data <- readFileSync user_file ;;
     match parse_user codec data with
     | None => throw "SyntaxError"
     | Some c =>
         match UserSchema_parse email_check c with
         | Some u => ret (Some u)
         | None => throw "ZodError"
         end
     end)
    (fun _ => ret None).

End Profile.

(** ** Vocabulary of the statements *)

(** A line carries one of the labels the parse looks for. *)
Definition labeled (line : string) : bool :=
  let low := Js.toLowerCase line in
  Js.includes low "problem:" || Js.includes low "issue:"
  || Js.includes low "fix:" || Js.includes low "solution:"
  || Js.includes low "steps:" || Js.includes low "next:"
  || Js.includes low "confidence:".

(** Calls of the fill, consent, submit and verify phases (and of the stored
    instructions that precede them). *)
Definition later_phase_call (c : Call) : bool :=
  match c with
  | CAct (ASearch _) => false
  | CAct _ => true
  | CExtract PSearch => false
  | CExtract (PListing _) => false
  | CExtract PFallback => false
  | CExtract _ => true
  | _ => false
  end.

Definition is_screenshot_call (c : Call) : bool :=
  match c with CScreenshot => true | _ => false end.

Definition screenshot_attempts (calls : list Call) : nat :=
  List.length (List.filter is_screenshot_call calls).

(** The directory check that opens [removeFromBroker]. *)
Definition ensure_dir_script (w : World) : list Step :=
  if bool_decide ("screenshots" ∈ dirs w) then []
  else [on (CMkdir "screenshots") (Ok tt)].

Definition calls_of (script : list Step) : list Call := List.map (fun st => projT1 st) script.

(** The search phase of an attempt whose two listing probes answer [lc], [fb]. *)
Definition search_script (b : Broker) (u : User)
    (sc : SearchCheck) (lc : ListingCheck) (fb : FallbackCheck) : list Step :=
  [ on (CGoto (opt_out_url b)) (Ok tt);
    on CWaitForLoadState (Ok tt);
    on (CExtract PSearch) (Ok sc);
    on (CAct (ASearch u)) (Ok tt);
    on CWaitForLoadState (Ok tt);
    on (CExtract (PListing u)) (Ok lc);
    on (CExtract PFallback) (Ok fb) ].

(** The three probes of the verify phase, answered [ec], [sc], [fc]. *)
Definition verify_script (ec : ErrorCheck) (sc : SuccessCheck) (fc : StillFormCheck)
  : list Step :=
  [ on (CWaitForTimeout 2000) (Ok tt);
    on (CExtract PErrors) (Ok ec);
    on (CExtract PSuccess) (Ok sc);
    on (CExtract PStillForm) (Ok fc) ].

(** The classification as the specification words it: the verdict the
    three answers call for, first match first. *)
Definition verdict_of (ec : ErrorCheck) (sc : SuccessCheck) (fc : StillFormCheck)
  : Verification :=
  if foundErrorIndicators ec then
    {| v_success := false;
       message := "Form errors detected: " ++ String.concat ", " (errorMessages ec) |}
  else if foundSuccessText sc then
    {| v_success := true; message := "Success confirmed: " ++ successText sc |}
  else if stillOnForm fc || hasSubmitButton fc || hasFormFields fc then
    {| v_success := false;
       message := "Still on form page - submission failed. Page type: " ++ pageType fc |}
  else
    {| v_success := false;
       message := "Unable to verify success - no clear success indicators found" |}.




(** What a computation did from [s]: the calls it added to the history, the
    state it ended in and what it returned or threw. *)
Definition outcome {L A} (m : M L A) (s : World * L)
    (Q : list Call -> World * L -> Res A -> Prop) : Prop :=
  exists calls,
    trace (fst (fst (m s))) = (trace (fst s) ++ calls)%list
    /\ Q calls (fst (m s)) (snd (m s)).

(** A computation that takes no screenshot and leaves the local variables
    as they are, whether it returns or throws. *)
Definition silent {L A} (m : M L A) : Prop :=
  forall s,
    outcome m s (fun calls s' _ => screenshot_attempts calls = 0%nat /\ snd s' = snd s).

(** The result keeps its broker and its verdict: success flag, error and
    details. *)
Definition same_verdict (r r' : RemovalResult) : Prop :=
  broker r' = broker r /\ success r' = success r /\ error r' = error r
  /\ details r' = details r.

(** The result carries an evidence reference: the path of the screenshot, or
    the mark that it could not be saved. *)
Definition evidence_taken (b : Broker) (r : RemovalResult) : Prop :=
  screenshot r = Some (screenshot_path (success r) b)
  \/ screenshot r = Some "failed_to_save".

(** How an attempt that returns can end: at the listing that was not found,
    with no screenshot call and no evidence reference, or with one screenshot
    call and an evidence reference. *)
Definition attempt_post (b : Broker) (calls : list Call) (r : Res RemovalResult) : Prop :=
  exists res,
    r = Ok res /\ broker res = b
    /\ ((screenshot_attempts calls = 0%nat /\ screenshot res = None
         /\ success res = false /\ error res = Some "Could not find user listing"
         /\ details res = None)
        \/ (screenshot_attempts calls = 1%nat /\ evidence_taken b res)).

(** The loop over [bs] from [s] is undisturbed: each attempt returns and each
    write of the session file succeeds. *)
Fixpoint undisturbed (json : Json) (env : Env) (engine : RemovalEngine) (u : User)
    (bs : list Broker) (s : World * RemovalSession) : Prop :=
  match bs with
  | [] => True
  | b :: rest =>
      let attempt := removeFromBroker json env engine b u s in
      (exists res,
          snd attempt = Ok res
          /\ answer env (trace (fst (fst attempt)))
               (CWriteFile session_file (stringify_session json (push_result res (snd s))))
             = Ok tt)
      /\ undisturbed json env engine u rest (fst (process_broker json env engine u b s))
  end.

(** A literal that holds no line feed. *)
Definition no_line_feed (p : string) : bool :=
  all_chars (fun c => negb (Ascii.eqb c "010")) p.

(** The confidence a parsed line can leave behind. *)
Definition confidence_ok (n : Js.number) : Prop :=
  n = Js.NaN \/ exists z, n = Js.Num z /\ 1 <= z <= 10.

(** Unfold the plumbing of a computation down to the calls it makes. *)
Ltac run_unfold :=
  unfold goto, waitForLoadState, waitForTimeout, extract, act, page_screenshot,
         call, bind, ret, throw, modify, get in *;
  cbn [fst snd log trace files dirs] in *.

(** Walk through a computation, rule by rule. *)
Ltac outcome_walk rules :=
  repeat first [ rules | progress cbv beta iota ].

(** ** Sample data *)

Definition jane : User :=
  {| firstName := "Jane"; lastName := "Doe"; email := "jane.doe@example.com";
     address := "12 Elm Street"; city := "Springfield"; state := "IL"; zip := "62704";
     phone := "+1 (217) 555-0142"; dateOfBirth := "1985-04-12"; additionalNotes := None |}.

Definition spokeo : Broker :=
  {| name := "Spokeo"; url := "https://www.spokeo.com";
     opt_out_url := "https://www.spokeo.com/optout"; requires_id_upload := false;
     notes := "Standard opt-out process" |}.

Definition acme : Broker :=
  {| name := "AcmeData"; url := "https://acme.example";
     opt_out_url := "https://acme.example/opt-out"; requires_id_upload := false;
     notes := "" |}.

(** A stand-in for [JSON.parse]/[JSON.stringify]: the catalog text
    [CATALOG] holds [spokeo]; a list is written as its names. *)
Definition demo_json : Json :=
  {| parse_brokers := fun data => if String.eqb data "CATALOG" then Some [spokeo] else None;
     stringify_brokers := fun bs => String.concat "," (List.map name bs);
     stringify_session := fun s => String.concat "," (List.map (fun r => name (broker r)) (results s)) |}.

Definition empty_world : World := {| trace := []; files := ∅; dirs := ∅ |}.

Definition demo_world : World :=
  {| trace := []; files := {[ "brokers.json" := "CATALOG" ]}; dirs := {[ "screenshots" ]} |}.

Definition quiet_probe (p : Probe) : probe_answer p :=
  match p with
  | PSearch => {| hasSearchForm := false; hasRemovalForm := true;
                  search_pageType := "removal form"; needsSearchFirst := false |}
  | PListing _ => {| foundListing := false; listingText := ""; clickedListing := false |}
  | PFallback => {| foundPossibleListing := false; clickedPossibleListing := false |}
  | PFields => {| allFieldsFilled := true; field_missingFields := []; filledFields := [] |}
  | PCheckbox => {| foundCheckboxes := false; checkedCheckboxes := false;
                    checkboxCount := 0; checkboxTypes := [] |}
  | PRadio => {| foundRadioButtons := false; selectedRadioButtons := false;
                 radioButtonCount := 0 |}
  | PFormReady => {| formReady := true; missingFields := []; uncheckedCheckboxes := [];
                     submitButtonText := "Submit" |}
  | PRecheck => {| recheck_formReady := true; stillMissing := [] |}
  | PErrors => {| foundErrorIndicators := false; errorMessages := [];
                  hasMissingFields := false; hasUncheckedCheckboxes := false |}
  | PSuccess => {| foundSuccessText := false; successText := ""; pageTitle := "";
                   mainContent := "" |}
  | PStillForm => {| stillOnForm := false; hasSubmitButton := true; hasFormFields := false;
                     pageType := "form" |}
  end.

(** Every call succeeds; the probes find nothing. *)
Definition quiet_answer (history : list Call) (c : Call) : Res (answer_type c) :=
  match c with
  | CGoto _ => Ok tt
  | CWaitForLoadState => Ok tt
  | CWaitForTimeout _ => Ok tt
  | CExtract p => Ok (quiet_probe p)
  | CAct _ => Ok tt
  | CScreenshot => Ok "PNG"
  | CMkdir _ => Ok tt
  | CWriteFile _ _ => Ok tt
  | CVision _ _ _ => Ok (Some "Confidence: high")
  end.

Definition quiet_env : Env :=
  {| answer := quiet_answer; clock := fun history => Z.of_nat (List.length history) |}.

(** As [quiet_env], but no directory can be made. *)
Definition no_mkdir_env : Env :=
  {| answer := fun history c =>
       match c with
       | CMkdir _ => Throw "EACCES: permission denied, mkdir 'screenshots'"
       | _ => quiet_answer history c
       end;
     clock := fun history => Z.of_nat (List.length history) |}.

(** As [quiet_env], but the three probes of the verify phase answer [ec],
    [sc] and [fc]. *)
Definition verify_answer (ec : ErrorCheck) (sc : SuccessCheck) (fc : StillFormCheck)
    (history : list Call) (c : Call) : Res (answer_type c) :=
  match c with
  | CExtract PErrors => Ok ec
  | CExtract PSuccess => Ok sc
  | CExtract PStillForm => Ok fc
  | c' => quiet_answer history c'
  end.

Definition verify_env (ec : ErrorCheck) (sc : SuccessCheck) (fc : StillFormCheck) : Env :=
  {| answer := verify_answer ec sc fc;
     clock := fun history => Z.of_nat (List.length history) |}.

(** As [quiet_env], but the session file cannot be written. *)
Definition full_disk_env : Env :=
  {| answer := fun history c =>
       match c with
       | CWriteFile path data =>
           if String.eqb path session_file
           then Throw "ENOSPC: no space left on device, write"
           else Ok tt
       | c' => quiet_answer history c'
       end;
     clock := fun history => Z.of_nat (List.length history) |}.

(** What the attempt on [acme] returns in [quiet_env]: the form is still
    there, the screenshot is saved, the analysis has no number to offer. *)
Definition acme_result : RemovalResult :=
  {| broker := acme; success := false; error := None; timestamp := 0;
     details := Some "Still on form page - submission failed. Page type: form";
     screenshot := Some "screenshots/failure-AcmeData.png";
     aiAnalysis := Some (parseAnalysisResponse (Some "Confidence: high")) |}.

(** A completion with a fix and a number. *)
Definition sample_response : string :=
  "Problem: consent box unchecked" ++ LF
  ++ "Fix: Click the 'I agree to terms' checkbox before continuing" ++ LF
  ++ "Confidence: 8".

Definition sample_errors : ErrorCheck :=
  {| foundErrorIndicators := true; errorMessages := ["Missing First Name"; "Invalid email"];
     hasMissingFields := true; hasUncheckedCheckboxes := false |}.

Definition sample_success : SuccessCheck :=
  {| foundSuccessText := true; successText := "Thank you, your request has been submitted";
     pageTitle := "Done"; mainContent := "Thank you" |}.



(** ** More vocabulary *)

(** No character of [s] is [c]. *)
Definition lacks (c : ascii) (s : string) : bool :=
  all_chars (fun x => negb (Ascii.eqb x c)) s.

(** A string that [trim] leaves as it is. *)
Definition is_trimmed (s : string) : Prop := Js.trim s = s.

(** An entry of a parsed list: not empty, no white space around it. *)
Definition clean_step (st : string) : Prop := st <> EmptyString /\ is_trimmed st.

(** No line of the response opens the list of steps. *)
Definition no_steps_header (response : string) : Prop :=
  forall line, In line (Js.split "010" response) ->
               String.prefix "STEPS:" (Js.trim line) = false.

(** What every turn of the loop of [parsePageAnalysisResponse] keeps. *)
Definition page_invariant (v : PageVars) : Prop :=
  Forall clean_step (p_steps v) /\ Forall clean_step (p_formFields v)
  /\ Forall clean_step (p_requiredActions v) /\ confidence_ok (p_confidence v).

(** [[a-zA-Z0-9_-]] *)
Definition safe_char (c : ascii) : bool :=
  is_alpha c || is_digit c || Ascii.eqb c "_" || Ascii.eqb c "-".

(** Every call of [calls], made after the history [h], satisfies [P] of the
    history that precedes it. *)
Definition each_call (P : list Call -> Call -> Prop) (h calls : list Call) : Prop :=
  forall pre c post, calls = (pre ++ c :: post)%list -> P (h ++ pre)%list c.

(** No call of [calls] writes the file [path]. *)
Definition unwritten (path : string) (calls : list Call) : Prop :=
  forall data, ~ In (CWriteFile path data) calls.

(** Every call of the computation satisfies [P], and a file that no call
    writes is as it was. *)
Definition obeys {L A} (P : list Call -> Call -> Prop) (m : M L A) : Prop :=
  forall s,
    outcome m s (fun calls s' _ =>
      each_call P (trace (fst s)) calls
      /\ forall path, unwritten path calls -> files (fst s') !! path = files (fst s) !! path).

(** The call [c], made after [h], is a readiness probe of
    [submitRemovalForm] that the environment answers with a ready form. *)
Definition says_ready (env : Env) (h : list Call) (c : Call) : bool :=
  match c with
  | CExtract PFormReady =>
      match answer env h (CExtract PFormReady) with
      | Ok fc => formReady fc
      | Throw _ => false
      end
  | CExtract PRecheck =>
      match answer env h (CExtract PRecheck) with
      | Ok rc => recheck_formReady rc
      | Throw _ => false
      end
  | _ => false
  end.

(** A click on the submit button comes right after a readiness probe that
    answered ready. *)
Definition click_after_ready (env : Env) (h : list Call) (c : Call) : Prop :=
  c = CAct AClickSubmit ->
  exists h' q, h = (h' ++ [q])%list /\ says_ready env h' q = true.

(** Where an attempt on [b] may navigate, and what it may create or write. *)
Definition in_footprint (b : Broker) (c : Call) : bool :=
  match c with
  | CGoto target => String.eqb target (opt_out_url b)
  | CMkdir path => String.eqb path "screenshots"
  | CWriteFile path _ =>
      String.eqb path (screenshot_path true b) || String.eqb path (screenshot_path false b)
      || String.eqb path "brokers.json"
  | _ => true
  end.

Definition is_write (c : Call) : bool :=
  match c with CWriteFile _ _ => true | _ => false end.

(** A computation that leaves the local variables and the files as they
    are, whether it returns or throws. *)
Definition quiet {L A} (m : M L A) : Prop :=
  forall s, outcome m s (fun _ s' _ => snd s' = snd s /\ files (fst s') = files (fst s)).

(** The catalog file of [w'] is that of [w]. *)
Definition kept (w w' : World) : Prop :=
  files w' !! "brokers.json" = files w !! "brokers.json".

Definition confident (a : FailureAnalysis) : Prop :=
  Js.ge (confidence a) (Js.Num 6) = true.

(** The result of an attempt that ended at the listing that was not found. *)
Definition listing_shape (b : Broker) (res : RemovalResult) : Prop :=
  res = set_error "Could not find user listing" (initial_result b (timestamp res)).

(** The world of which only the history [h] is known. *)
Definition at_history (h : list Call) : World :=
  {| trace := h; files := ∅; dirs := ∅ |}.

(** What [verifySubmission] returns when it starts after the history [h]. *)
Definition verdict_at (env : Env) (h : list Call) : Res Verification :=
  snd (verifySubmission env (at_history h, tt)).

(** [v] is the verdict that [verifySubmission] returned at some point of
    the calls [calls], which follow the history [h]. *)
Definition verdict_within (env : Env) (h calls : list Call) (v : Verification) : Prop :=
  exists pre post, calls = (pre ++ post)%list /\ verdict_at env (h ++ pre)%list = Ok v.

(** The result of an attempt that reached its verdict: the success flag and
    the details are those of the verdict that [verifySubmission] returned
    during the attempt (whose calls are [calls], after the history [h]),
    there is no error, there is an evidence reference, and an attached
    analysis means a failure whose screenshot was saved. *)
Definition verdict_shape (env : Env) (h calls : list Call) (b : Broker)
    (res : RemovalResult) : Prop :=
  exists v,
    verdict_within env h calls v
    /\ success res = v_success v /\ details res = Some (message v) /\ error res = None
    /\ evidence_taken b res
    /\ forall a, aiAnalysis res = Some a ->
                 success res = false /\ screenshot res = Some (screenshot_path false b).

(** The result of an attempt that ended in its [catch] block. *)
Definition fault_shape (b : Broker) (res : RemovalResult) : Prop :=
  exists e,
    error res = Some e /\ success res = false /\ details res = None
    /\ aiAnalysis res = None
    /\ (screenshot res = Some (screenshot_path false b)
        \/ screenshot res = Some "failed_to_save").

Definition attempt_shapes (env : Env) (h calls : list Call) (b : Broker)
    (res : RemovalResult) : Prop :=
  listing_shape b res \/ verdict_shape env h calls b res \/ fault_shape b res.


(** The catalog file is as it was, or the result carries the confident
    analysis of a failure. *)
Definition catalog_guard (w w' : World) (res : RemovalResult) : Prop :=
  kept w w'
  \/ exists a, aiAnalysis res = Some a /\ confident a /\ success res = false.

(** Where [fill_submit_verify] leaves the result [l] when it returns. *)
Definition after_verdict (env : Env) (b : Broker) (h calls : list Call) (w w' : World)
    (l l' : RemovalResult) : Prop :=
  exists v,
    verdict_within env h calls v
    /\ success l' = v_success v /\ details l' = Some (message v)
    /\ error l' = error l /\ broker l' = broker l /\ timestamp l' = timestamp l
    /\ evidence_taken b l'
    /\ ((aiAnalysis l' = aiAnalysis l /\ kept w w')
        \/ exists a,
             aiAnalysis l' = Some a /\ success l' = false
             /\ screenshot l' = Some (screenshot_path false b)
             /\ (kept w w' \/ confident a)).

(** The results one broker adds to the session: one or two, all its own. *)
Definition broker_group (b : Broker) (g : list RemovalResult) : Prop :=
  (List.length g = 1%nat \/ List.length g = 2%nat) /\ Forall (fun r => broker r = b) g.

(** What the turn of the broker [b], started in [s], adds to the session:
    the result of the attempt when the session file is then written; that
    result followed by a fault result when the write of the session file
    throws; a fault result alone when the attempt itself throws. *)
Definition turn_results (json : Json) (env : Env) (engine : RemovalEngine) (u : User)
    (b : Broker) (s : World * RemovalSession) (g : list RemovalResult) : Prop :=
  let attempt := removeFromBroker json env engine b u s in
  let after := trace (fst (fst attempt)) in
  match snd attempt with
  | Ok res =>
      let write := CWriteFile session_file (stringify_session json (push_result res (snd s))) in
      broker res = b
      /\ match answer env after write with
         | Ok _ => g = [res]
         | Throw e => g = [res; fault_result b e (clock env (after ++ [write]))]
         end
  | Throw e => g = [fault_result b e (clock env after)]
  end.

(** The turns of the loop over [bs] from [s], each with what it adds. *)
Fixpoint loop_results (json : Json) (env : Env) (engine : RemovalEngine) (u : User)
    (bs : list Broker) (s : World * RemovalSession) (groups : list (list RemovalResult))
  : Prop :=
  match bs, groups with
  | [], [] => True
  | b :: rest, g :: gs =>
      turn_results json env engine u b s g
      /\ loop_results json env engine u rest (fst (process_broker json env engine u b s)) gs
  | _, _ => False
  end.

(** The session but for its results. *)
Definition same_header (s s' : RemovalSession) : Prop :=
  user s' = user s /\ startTime s' = startTime s /\ endTime s' = endTime s.

(** The analyzer has nothing to read, or the completion fails or is [null]. *)
Definition analysis_fails {L} (env : Env) (p : string) (b : Broker) (e : string)
    (s : World * L) : Prop :=
  match files (fst s) !! p with
  | None => True
  | Some image =>
      match answer env (trace (fst s)) (CVision b e image) with
      | Ok (Some _) => False
      | _ => True
      end
  end.

(** The object that [JSON.stringify] writes for a user: an absent note is
    left out. *)
Definition candidate_of (u : User) : Candidate :=
  {| c_firstName := JString (firstName u); c_lastName := JString (lastName u);
     c_email := JString (email u); c_address := JString (address u);
     c_city := JString (city u); c_state := JString (state u); c_zip := JString (zip u);
     c_phone := JString (phone u); c_dateOfBirth := JString (dateOfBirth u);
     c_additionalNotes := match additionalNotes u with
                          | Some n => JString n
                          | None => JUndefined
                          end |}.

(** ** The layout that the prompt of [analyzePageContent] asks for *)

Definition line_feed : ascii := "010"%char.

(** A line of the list of steps: number, dot, blank, text. *)
Definition step_line (st : string * string) : string :=
  String.append (fst st) (String.append ". " (snd st)).

(** A response in the layout of the prompt: the header, the numbered steps,
    an empty line, then the four labelled lines. *)
Definition render_page (numbered_steps : list (string * string)) (pageType : string)
    (fields actions : list string) (conf : Z) : string :=
  Js.join LF
    ("STEPS:" :: List.map step_line numbered_steps
       ++ [ EmptyString;
            String.append "PAGE_TYPE: " pageType;
            String.append "FORM_FIELDS: " (Js.join ", " fields);
            String.append "REQUIRED_ACTIONS: " (Js.join ", " actions);
            String.append "CONFIDENCE: " (Js.toString (Js.Num conf)) ])%list.

(** A text that survives a line of the layout: not empty, no white space
    around it, none of the characters [seps] inside. *)
Definition plain (seps : list ascii) (s : string) : Prop :=
  s <> EmptyString /\ is_trimmed s /\ Forall (fun c => lacks c s = true) seps.

(** A step number: digits, at least one. *)
Definition is_number (n : string) : Prop :=
  n <> EmptyString /\ all_chars is_digit n = true.

(** An entry of a comma list: a plain text without comma, colon or line
    feed. *)
Definition is_field (f : string) : Prop := plain [","%char; ":"%char; line_feed] f.

(** No line of the response mentions a confidence. *)
Definition no_confidence_line (response : string) : Prop :=
  forall line, In line (Js.split "010" response) ->
               Js.includes (Js.toLowerCase line) "confidence:" = false.

(** ** More sample data *)

(** A stand-in for the codec of [user.json]: the text [JANE] holds [jane]. *)
Definition demo_codec : UserJson :=
  {| parse_user := fun data => if String.eqb data "JANE" then Some (candidate_of jane) else None;
     stringify_user := fun _ => "JANE" |}.

(** [acme] after a first confident analysis. *)
Definition annotated_acme : Broker :=
  set_notes (String.append (notes acme)
               (annotation (parseAnalysisResponse (Some sample_response)))) acme.

(** The attempt on [acme] in [quiet_env]: the calls before and after the
    click on the submit button. *)
Definition calls_before_click : list Call :=
  [ CGoto (opt_out_url acme); CWaitForLoadState; CExtract PSearch;
    CAct (AFill jane); CWaitForTimeout 1000; CExtract PFields; CExtract PCheckbox;
    CExtract PRadio; CAct AFillRequired; CExtract PFormReady ].

Definition calls_after_click : list Call :=
  [ CWaitForLoadState; CWaitForTimeout 2000; CExtract PErrors; CExtract PSuccess;
    CExtract PStillForm; CScreenshot;
    CWriteFile "screenshots/failure-AcmeData.png" "PNG";
    CVision acme "Still on form page - submission failed. Page type: form" "PNG" ].

(** * Properties *)

(** ** The analysis parse *)

Lemma parse_line_unlabeled (v : ParseVars) (line : string) :
  labeled line = false -> parse_line v line = v.
Proof.
  unfold labeled, parse_line; cbv zeta; intros H.
  repeat (apply orb_false_elim in H; destruct H as [H ?]).
  repeat match goal with E : _ = false |- _ => rewrite E; clear E end.
  reflexivity.
Qed.

Lemma fold_parse_unlabeled (lines : list string) (v : ParseVars) :
  (forall line, In line lines -> labeled line = false) ->
  fold_left parse_line lines v = v.
Proof.
  revert v; induction lines as [|l ls IH]; intros v H; cbn [fold_left].
  - reflexivity.
  - rewrite parse_line_unlabeled by (apply H; left; reflexivity).
    apply IH; intros line Hin; apply H; right; exact Hin.
Qed.

(** C6, as the code has it. When no line of the response carries a label,
    the diagnosis has the fix and the special instructions
    [Manual review required], no next steps, the first 200 characters of the
    response followed by three dots as its problem, and confidence 5. *)
Theorem unlabeled_response_defaults (response : string) :
  (forall line, In line (Js.split "010" response) -> labeled line = false) ->
  parseAnalysisResponse (Some response)
  = {| problem := Js.substring0 200 response ++ "...";
       suggestedFix := "Manual review required";
       nextSteps := [];
       specialInstructions := "Manual review required";
       confidence := Js.Num 5 |}.
Proof.
  intros H; unfold parseAnalysisResponse, parse_response_string.
  rewrite (fold_parse_unlabeled _ _ H); reflexivity.
Qed.

Lemma unlabeled_response_defaults_witness :
  parseAnalysisResponse (Some "The page shows a captcha")
  = {| problem := Js.substring0 200 "The page shows a captcha" ++ "...";
       suggestedFix := "Manual review required";
       nextSteps := [];
       specialInstructions := "Manual review required";
       confidence := Js.Num 5 |}.
Proof.
  apply (unlabeled_response_defaults "The page shows a captcha").
  intros line [<- | []]; vm_compute; reflexivity.
Defined.

(** C6 as stated fails: the empty response has no labeled line, and its
    diagnosis has confidence 5, not 0. *)
Lemma unlabeled_response_confidence_not_zero :
  (forall line, In line (Js.split "010" "") -> labeled line = false)
  /\ confidence (parseAnalysisResponse (Some "")) = Js.Num 5
  /\ confidence (parseAnalysisResponse (Some "")) <> Js.Num 0.
Proof.
  split; [| split].
  - intros line [<- | []]; vm_compute; reflexivity.
  - reflexivity.
  - discriminate.
Qed.

(** C5 at its failing input: a confidence line whose text after the first
    colon does not start with a number gives the diagnosis the confidence
    [NaN], which lies in no interval. *)
Theorem confidence_line_without_number_is_NaN :
  confidence (parseAnalysisResponse (Some "Confidence: high")) = Js.NaN
  /\ Js.ge (confidence (parseAnalysisResponse (Some "Confidence: high"))) (Js.Num 0) = false
  /\ confidence (parseAnalysisResponse (Some "**Confidence:** 8")) = Js.NaN
  /\ confidence (parseAnalysisResponse (Some "Note: confidence: 8")) = Js.NaN.
Proof. repeat split; vm_compute; reflexivity. Qed.

Lemma clamp_range (n : Js.number) :
  Js.max (Js.Num 1) (Js.min (Js.Num 10) n) = Js.NaN
  \/ exists z, Js.max (Js.Num 1) (Js.min (Js.Num 10) n) = Js.Num z /\ 1 <= z <= 10.
Proof.
  destruct n as [|z]; [left; reflexivity | right].
  exists (Z.max 1 (Z.min 10 z)); split; [reflexivity | lia].
Qed.

Lemma parse_line_confidence_ok (v : ParseVars) (line : string) :
  confidence_ok (v_confidence v) -> confidence_ok (v_confidence (parse_line v line)).
Proof.
  intros H; unfold parse_line; cbv zeta.
  repeat match goal with |- context [if ?b then _ else _] => destruct b end;
    cbn [v_confidence]; try exact H.
  apply clamp_range.
Qed.

Lemma fold_parse_confidence_ok (lines : list string) (v : ParseVars) :
  confidence_ok (v_confidence v) ->
  confidence_ok (v_confidence (fold_left parse_line lines v)).
Proof.
  revert v; induction lines as [|l ls IH]; intros v H; cbn [fold_left].
  - exact H.
  - apply IH, parse_line_confidence_ok, H.
Qed.

(** X4. What does hold of the confidence: when a string was parsed it is
    [NaN] or a whole number from 1 to 10; it is 0 on the placeholder of the
    [catch] clause, and only there. *)
Theorem confidence_of_parse (response : option string) :
  match response with
  | Some r =>
      confidence (parseAnalysisResponse (Some r)) = Js.NaN
      \/ exists z, confidence (parseAnalysisResponse (Some r)) = Js.Num z /\ 1 <= z <= 10
  | None => confidence (parseAnalysisResponse None) = Js.Num 0
  end.
Proof.
  destruct response as [r|]; cbn [parseAnalysisResponse]; [| reflexivity].
  unfold parse_response_string; cbn [confidence].
  apply (fold_parse_confidence_ok (Js.split "010" r) parse_init).
  right; exists 5; split; [reflexivity | lia].
Qed.

(** ** The broker catalog *)

Lemma findIndex_no_match (nm : string) (bs : list Broker) :
  Forall (fun b => name b <> nm) bs -> findIndex nm bs = None.
Proof.
  induction 1 as [|b bs Hb _ IH]; cbn [findIndex].
  - reflexivity.
  - destruct (String.eqb_spec (name b) nm) as [E|_]; [contradiction |].
    rewrite IH; reflexivity.
Qed.

Lemma findIndex_first (nm : string) (bs : list Broker) (i : nat) :
  findIndex nm bs = Some i ->
  (exists b, bs !! i = Some b /\ name b = nm)
  /\ forall j b', (j < i)%nat -> bs !! j = Some b' -> name b' <> nm.
Proof.
  revert i; induction bs as [|b rest IH]; intros i; cbn [findIndex]; [discriminate |].
  destruct (String.eqb_spec (name b) nm) as [E | Hne].
  - intros [= <-]; split; [exists b; split; [reflexivity | exact E] | intros j b' Hj; lia].
  - destruct (findIndex nm rest) as [k|]; [| discriminate]; cbn [option_map].
    intros [= <-]; destruct (IH k eq_refl) as [(b0 & Hb0 & Hn0) Hfirst].
    split; [exists b0; split; [exact Hb0 | exact Hn0] |].
    intros [|j] b' Hj Hl; cbn in Hl.
    + injection Hl as <-; exact Hne.
    + apply (Hfirst j b'); [lia | exact Hl].
Qed.

Lemma findIndex_found (nm : string) (bs : list Broker) :
  In nm (List.map name bs) -> exists i, findIndex nm bs = Some i.
Proof.
  induction bs as [|b rest IH]; cbn [List.map In findIndex]; [contradiction |].
  intros [E | Hin]; destruct (String.eqb_spec (name b) nm); eauto; try contradiction.
  destruct (IH Hin) as [i ->]; eauto.
Qed.

Lemma saveUpdatedBroker_returns {L} (json : Json) (env : Env) (b : Broker) (s : World * L) :
  snd (saveUpdatedBroker json env b s) = Ok tt.
Proof.
  unfold saveUpdatedBroker, try_catch, bind, readFileSync, writeFileSync, throw, ret.
  destruct s as [w l]; cbn [fst snd].
  destruct (files w !! "brokers.json") as [data|]; [| reflexivity].
  destruct (parse_brokers json data) as [bs|]; [| reflexivity].
  destruct (findIndex (name b) bs) as [i|]; [| reflexivity].
  match goal with |- context [answer env ?h ?c] => destruct (answer env h c) end;
    reflexivity.
Qed.

(** C10. When [brokers.json] is stored and no entry of the catalog it holds
    has the name of the updated broker, [saveUpdatedBroker] writes nothing:
    the files, the directories and the call history are as before. *)
Theorem saveUpdatedBroker_unknown_name {L} (json : Json) (env : Env)
    (updatedBroker : Broker) (s : World * L) (data : string) :
  files (fst s) !! "brokers.json" = Some data ->
  (forall brokers, parse_brokers json data = Some brokers ->
                   Forall (fun b => name b <> name updatedBroker) brokers) ->
  saveUpdatedBroker json env updatedBroker s = (s, Ok tt).
Proof.
  intros Hfile Hnames.
  unfold saveUpdatedBroker, try_catch, bind, readFileSync, throw, ret.
  rewrite Hfile.
  destruct (parse_brokers json data) as [bs|] eqn:Hparse; [| reflexivity].
  rewrite (findIndex_no_match _ _ (Hnames bs eq_refl)); reflexivity.
Qed.

Lemma saveUpdatedBroker_unknown_name_witness :
  saveUpdatedBroker demo_json quiet_env (set_notes "rewritten" acme) (demo_world, tt)
  = ((demo_world, tt), Ok tt).
Proof.
  apply (saveUpdatedBroker_unknown_name demo_json quiet_env (set_notes "rewritten" acme)
           (demo_world, tt) "CATALOG").
  - reflexivity.
  - intros brokers [= <-]; repeat constructor; discriminate.
Defined.



Lemma findIndex_absent (nm : string) (bs : list Broker) :
  ~ In nm (List.map name bs) -> findIndex nm bs = None.
Proof.
  intros Hno; destruct (findIndex nm bs) as [i|] eqn:E; [| reflexivity].
  destruct (findIndex_first _ _ _ E) as [(b & Hb & Hn) _].
  exfalso; apply Hno; rewrite <- Hn.
  apply in_map, list_elem_of_In, (list_elem_of_lookup_2 _ i), Hb.
Qed.





(** ** The verify phase *)

(** C1. Whatever the three probes of the verify phase answer, the verdict is
    decided in this order: error indicators found, failure with the joined
    error texts; else success text found, success with that text; else still
    on the form (or a submit button, or form fields, visible), failure; else
    failure for want of a clear success indicator. *)
Theorem verifySubmission_priority {L} (env : Env) (s : World * L)
    (ec : ErrorCheck) (sc : SuccessCheck) (fc : StillFormCheck) :
  follows env (trace (fst s)) (verify_script ec sc fc) ->
  snd (verifySubmission env s) = Ok (verdict_of ec sc fc).
Proof.
  destruct s as [w l]; cbn [fst].
  intros (H1 & H2 & H3 & H4 & _).
  unfold verifySubmission, verdict_of; run_unfold.
  rewrite H1; cbn [fst snd log trace]; rewrite H2.
  destruct (foundErrorIndicators ec); [reflexivity |].
  cbn [fst snd log trace]; rewrite H3.
  destruct (foundSuccessText sc); [reflexivity |].
  cbn [fst snd log trace]; rewrite H4.
  destruct (stillOnForm fc || hasSubmitButton fc || hasFormFields fc); reflexivity.
Qed.

Lemma verifySubmission_priority_witness :
  snd (verifySubmission (verify_env sample_errors sample_success (quiet_probe PStillForm))
         (demo_world, tt))
  = Ok {| v_success := false;
          message := "Form errors detected: Missing First Name, Invalid email" |}.
Proof.
  apply (verifySubmission_priority
           (verify_env sample_errors sample_success (quiet_probe PStillForm))
           (demo_world, tt) sample_errors sample_success (quiet_probe PStillForm)).
  cbn; repeat split; reflexivity.
Defined.

(** ** The listing phase *)

(** C2. An attempt that enters the search phase and whose listing probe and
    relaxed retry probe both fail to report a listing found and clicked ends
    there: the result has [success = false] and the error
    [Could not find user listing]; the calls made are those of the search
    phase and no other, so none of the fill, consent, submit or verify
    phases. *)
Theorem listing_not_found_ends_attempt {L} (json : Json) (env : Env)
    (engine : RemovalEngine) (b : Broker) (u : User) (s : World * L)
    (sc : SearchCheck) (lc : ListingCheck) (fb : FallbackCheck) :
  stagehand engine = true ->
  needsSearchFirst sc || existsb (String.eqb (name b)) searchFirstBrokers = true ->
  foundListing lc && clickedListing lc = false ->
  foundPossibleListing fb && clickedPossibleListing fb = false ->
  follows env (trace (fst s))
    (ensure_dir_script (fst s) ++ search_script b u sc lc fb)%list ->
  exists result s',
    removeFromBroker json env engine b u s = (s', Ok result)
    /\ success result = false
    /\ error result = Some "Could not find user listing"
    /\ details result = None
    /\ trace (fst s')
       = (trace (fst s)
          ++ calls_of (ensure_dir_script (fst s) ++ search_script b u sc lc fb))%list
    /\ existsb later_phase_call
         (calls_of (ensure_dir_script (fst s) ++ search_script b u sc lc fb)%list) = false
    /\ files (fst s') = files (fst s)
    /\ snd s' = snd s.
Proof.
  destruct s as [w l]; cbn [fst snd].
  intros Hengine Hsearch Hlisting Hfallback Hscript.
  unfold removeFromBroker; rewrite Hengine; cbn [negb].
  unfold existsSync, mkdirSync, now, with_locals, try_catch, try_block,
    checkIfNeedsSearch, performSearch, findAndClickListing.
  unfold ensure_dir_script in *.
  destruct (bool_decide ("screenshots" ∈ dirs w)) eqn:Hdir;
    cbn [app follows] in Hscript.
  - destruct Hscript as (H1 & H2 & H3 & H4 & H5 & H6 & H7 & _).
    run_unfold; rewrite Hdir; cbn [negb fst snd log trace].
    rewrite H1; cbn [fst snd log trace]. rewrite H2; cbn [fst snd log trace].
    rewrite H3; cbn [fst snd log trace]. rewrite Hsearch; cbn [fst snd log trace].
    rewrite H4; cbn [fst snd log trace]. rewrite H5; cbn [fst snd log trace].
    rewrite H6; cbn [fst snd log trace]. rewrite Hlisting; cbn [fst snd log trace].
    rewrite H7; cbn [fst snd log trace]. rewrite Hfallback; cbn [negb fst snd].
    eexists; eexists; split; [reflexivity |].
    cbn [success error details set_error initial_result fst snd trace files log].
    repeat split; try reflexivity.
    unfold calls_of, search_script, on; cbn [List.map app projT1].
    repeat rewrite <- app_assoc; reflexivity.
  - destruct Hscript as (H0 & H1 & H2 & H3 & H4 & H5 & H6 & H7 & _).
    run_unfold; rewrite Hdir; cbn [negb fst snd log trace].
    rewrite H0; cbn [fst snd log trace files dirs].
    rewrite H1; cbn [fst snd log trace]. rewrite H2; cbn [fst snd log trace].
    rewrite H3; cbn [fst snd log trace]. rewrite Hsearch; cbn [fst snd log trace].
    rewrite H4; cbn [fst snd log trace]. rewrite H5; cbn [fst snd log trace].
    rewrite H6; cbn [fst snd log trace]. rewrite Hlisting; cbn [fst snd log trace].
    rewrite H7; cbn [fst snd log trace]. rewrite Hfallback; cbn [negb fst snd].
    eexists; eexists; split; [reflexivity |].
    cbn [success error details set_error initial_result fst snd trace files log].
    repeat split; try reflexivity.
    unfold calls_of, search_script, on; cbn [List.map app projT1].
    repeat rewrite <- app_assoc; reflexivity.
Qed.

Lemma listing_not_found_ends_attempt_witness :
  exists result s',
    removeFromBroker demo_json quiet_env {| stagehand := true |} spokeo jane (demo_world, tt)
    = (s', Ok result)
    /\ success result = false
    /\ error result = Some "Could not find user listing"
    /\ details result = None
    /\ trace (fst s')
       = (trace demo_world
          ++ calls_of (ensure_dir_script demo_world
                       ++ search_script spokeo jane (quiet_probe PSearch)
                            (quiet_probe (PListing jane)) (quiet_probe PFallback)))%list
    /\ existsb later_phase_call
         (calls_of (ensure_dir_script demo_world
                    ++ search_script spokeo jane (quiet_probe PSearch)
                         (quiet_probe (PListing jane)) (quiet_probe PFallback))%list) = false
    /\ files (fst s') = files demo_world
    /\ snd s' = tt.
Proof.
  apply (listing_not_found_ends_attempt demo_json quiet_env {| stagehand := true |}
           spokeo jane (demo_world, tt)
           (quiet_probe PSearch) (quiet_probe (PListing jane)) (quiet_probe PFallback)).
  - reflexivity.
  - reflexivity.
  - reflexivity.
  - reflexivity.
  - vm_compute; repeat split; reflexivity.
Defined.

(** ** The stored instructions *)

Lemma append_nil (t : string) : String.append EmptyString t = t.
Proof. reflexivity. Qed.

Lemma append_cons (c : ascii) (n t : string) :
  String.append (String c n) t = String c (String.append n t).
Proof. reflexivity. Qed.

Lemma includes_app_r (n t p : string) :
  Js.includes t p = true -> Js.includes (String.append n t) p = true.
Proof.
  intros H; induction n as [|c n IH]; [exact H |].
  change (String.append (String c n) t) with (String c (String.append n t)).
  cbn [Js.includes]; rewrite IH; apply orb_true_r.
Qed.

(** A literal without line feed that matches at the head of [n] followed by
    a line feed lies within [n]. *)
Lemma strip_prefix_within (p n t : string) :
  no_line_feed p = true ->
  strip_prefix p (String.append n (String "010" t)) <> None ->
  String.prefix p n = true.
Proof.
  revert n; induction p as [|a p IH]; intros n Hp Hs.
  - destruct n; reflexivity.
  - cbn [no_line_feed all_chars] in Hp; apply andb_prop in Hp; destruct Hp as [Ha Hp].
    destruct n as [|c n]; rewrite ?append_nil, ?append_cons in Hs;
      cbn [strip_prefix] in Hs.
    + apply negb_true_iff in Ha; rewrite Ha in Hs; contradiction.
    + cbn [String.prefix].
      destruct (Ascii.eqb_spec a c) as [->|Hne]; [| contradiction].
      destruct (ascii_dec c c) as [_|Hc]; [| contradiction].
      apply IH; assumption.
Qed.

Lemma prefix_shorter (p q n : string) :
  String.prefix (String.append p q) n = true -> String.prefix p n = true.
Proof.
  revert n; induction p as [|a p IH]; intros n H; [destruct n; reflexivity |].
  rewrite append_cons in H.
  destruct n as [|c n]; cbn [String.prefix] in *; [discriminate |].
  destruct (ascii_dec a c); [apply IH, H | discriminate].
Qed.

Lemma ai_match_here_outside (n t : string) :
  String.prefix "AI Analysis" n = false ->
  ai_match_here (String.append n (String "010" t)) = None.
Proof.
  intros Hp; unfold ai_match_here.
  destruct (strip_prefix "AI Analysis (" (String.append n (String "010" t))) eqn:E;
    [| reflexivity].
  assert (H : String.prefix "AI Analysis (" n = true).
  { apply (strip_prefix_within _ _ t); [reflexivity | rewrite E; discriminate]. }
  apply (prefix_shorter "AI Analysis" " (") in H; congruence.
Qed.

(** Notes that do not mention the marker hold no match: the search for one
    in the extended notes starts at what was appended. *)
Lemma ai_match_skips_notes (n t : string) :
  Js.includes n "AI Analysis" = false ->
  ai_match (String.append n (String "010" t)) = ai_match (String "010" t).
Proof.
  induction n as [|c n IH]; intros H; [reflexivity |].
  cbn [Js.includes] in H; apply orb_false_elim in H; destruct H as [Hp Hi].
  rewrite append_cons; cbn [ai_match]; rewrite <- append_cons.
  rewrite (ai_match_here_outside _ _ Hp); apply IH, Hi.
Qed.

Lemma trimEnd_head (c : ascii) (r : string) :
  Js.trimEnd (String c r) = EmptyString \/ exists r', Js.trimEnd (String c r) = String c r'.
Proof.
  cbn [Js.trimEnd]; destruct (Js.trimEnd r); [destruct (Js.is_space c) |]; eauto.
Qed.

Lemma trimStart_head (s : string) :
  Js.trimStart s = EmptyString
  \/ exists c r, Js.trimStart s = String c r /\ Js.is_space c = false.
Proof.
  induction s as [|c s IH]; cbn [Js.trimStart]; [left; reflexivity |].
  destruct (Js.is_space c) eqn:E; [exact IH | right; eauto].
Qed.

Lemma trim_head (s : string) (c : ascii) (r : string) :
  Js.trim s = String c r -> Js.is_space c = false.
Proof.
  unfold Js.trim; intros H.
  destruct (trimStart_head s) as [E | (c' & r' & E & Hc)]; rewrite E in H.
  - discriminate H.
  - destruct (trimEnd_head c' r') as [E' | (r'' & E')]; rewrite E' in H.
    + discriminate H.
    + injection H as <- _; exact Hc.
Qed.

Lemma space_of_line_terminator (c : ascii) :
  is_line_terminator c = true -> Js.is_space c = true.
Proof.
  unfold is_line_terminator, Js.is_space; cbv zeta; intros H.
  apply orb_prop in H; destruct H as [H | H]; apply N.eqb_eq in H; rewrite H; reflexivity.
Qed.

Lemma parse_line_fix_head (v : ParseVars) (line : string) :
  (forall c r, v_suggestedFix v = String c r -> Js.is_space c = false) ->
  forall c r, v_suggestedFix (parse_line v line) = String c r -> Js.is_space c = false.
Proof.
  intros H; unfold parse_line; cbv zeta.
  repeat match goal with |- context [if ?b then _ else _] => destruct b end;
    cbn [v_suggestedFix]; try exact H.
  unfold after_colon; intros c r; apply trim_head.
Qed.

Lemma fold_parse_fix_head (lines : list string) (v : ParseVars) :
  (forall c r, v_suggestedFix v = String c r -> Js.is_space c = false) ->
  forall c r, v_suggestedFix (fold_left parse_line lines v) = String c r ->
              Js.is_space c = false.
Proof.
  revert v; induction lines as [|l ls IH]; intros v H; cbn [fold_left]; [exact H |].
  apply IH, parse_line_fix_head, H.
Qed.

(** The fix of a parsed response is not empty and starts with no white space. *)
Lemma suggestedFix_head (response : string) :
  exists c r, suggestedFix (parseAnalysisResponse (Some response)) = String c r
              /\ Js.is_space c = false.
Proof.
  cbn [parseAnalysisResponse]; unfold parse_response_string; cbn [suggestedFix].
  pose proof (fold_parse_fix_head (Js.split "010" response) parse_init) as H.
  destruct (v_suggestedFix (fold_left parse_line (Js.split "010" response) parse_init))
    as [|c r] eqn:E; cbn [Js.truthy negb].
  - eexists; eexists; split; reflexivity.
  - exists c, r; split; [reflexivity |].
    apply (H ltac:(intros ? ? [=]) c r eq_refl).
Qed.

Lemma truthy_app (n : string) (c : ascii) (t : string) :
  Js.truthy (String.append n (String c t)) = true.
Proof. destruct n; reflexivity. Qed.

Lemma take_line_head (c : ascii) (r : string) :
  Js.is_space c = false -> take_line (String c r) = String c (take_line r).
Proof.
  intros H; cbn [take_line].
  destruct (is_line_terminator c) eqn:E; [| reflexivity].
  apply space_of_line_terminator in E; congruence.
Qed.

Lemma confident_cases (n : Js.number) :
  confidence_ok n -> Js.ge n (Js.Num 6) = true ->
  n = Js.Num 6 \/ n = Js.Num 7 \/ n = Js.Num 8 \/ n = Js.Num 9 \/ n = Js.Num 10.
Proof.
  intros [-> | (z & -> & Hz)] H; cbn [Js.ge] in H; [discriminate |].
  apply Z.leb_le in H.
  assert (z = 6 \/ z = 7 \/ z = 8 \/ z = 9 \/ z = 10) as Hc by lia.
  repeat destruct Hc as [-> | Hc]; subst; auto 10.
Qed.

Lemma annotation_match (n : Js.number) (c : ascii) (r : string) :
  n = Js.Num 6 \/ n = Js.Num 7 \/ n = Js.Num 8 \/ n = Js.Num 9 \/ n = Js.Num 10 ->
  Js.is_space c = false ->
  let t := String.append LF
             (String.append "AI Analysis ("
                (String.append (Js.toString n) (String.append "/10): " (String c r)))) in
  ai_match (String "010" t) = Some (String c (take_line r))
  /\ Js.includes (String "010" t) "AI Analysis" = true.
Proof.
  intros Hn Hc; cbv zeta.
  assert (Ht : take_line (String c r) = String c (take_line r)) by (apply take_line_head, Hc).
  repeat destruct Hn as [-> | Hn]; subst;
    match goal with |- context [Js.toString (Js.Num ?z)] =>
      let d := eval vm_compute in (Js.toString (Js.Num z)) in
      change (Js.toString (Js.Num z)) with d
    end;
    unfold LF; rewrite ?append_cons, ?append_nil;
    (split; [cbv -[take_line]; rewrite Ht; reflexivity | reflexivity]).
Qed.

(** X5. The instruction a later attempt replays.  When a parsed diagnosis
    with confidence 6 or more is folded into notes that did not mention the
    marker before, [applySpecialInstructions] on the updated broker issues
    one action whose instruction is the suggested fix, up to its first line
    terminator. *)
Theorem replay_is_the_fix {L} env (b : Broker) (response : string) (s : World * L) :
  let a := parseAnalysisResponse (Some response) in
  Js.ge (confidence a) (Js.Num 6) = true ->
  Js.includes (notes b) "AI Analysis" = false ->
  applySpecialInstructions env (set_notes (String.append (notes b) (annotation a)) b) s
  = act env (ASpecial (take_line (suggestedFix a))) s.
Proof.
  cbv zeta; intros Hge Hnotes.
  destruct (suggestedFix_head response) as (c & r & Hfix & Hc).
  assert (Hconf : confidence_ok (confidence (parseAnalysisResponse (Some response)))).
  { cbn [parseAnalysisResponse]; unfold parse_response_string; cbn [confidence].
    apply fold_parse_confidence_ok; right; exists 5; split; [reflexivity | lia]. }
  pose proof (annotation_match _ c r (confident_cases _ Hconf Hge) Hc) as [Hm Hi].
  cbv zeta in Hm, Hi.
  unfold applySpecialInstructions, has_instructions, annotation; cbn [notes set_notes].
  change (specialInstructions (parseAnalysisResponse (Some response)))
    with (suggestedFix (parseAnalysisResponse (Some response))).
  rewrite Hfix.
  match goal with |- context [String.append (notes b) ?x] =>
    match type of Hm with ai_match ?y = _ => change x with y end
  end.
  rewrite truthy_app, (includes_app_r _ _ _ Hi), ai_match_skips_notes, Hm by exact Hnotes.
  cbn [andb orb Js.truthy]; rewrite take_line_head by exact Hc; reflexivity.
Qed.

Lemma replay_is_the_fix_witness :
  applySpecialInstructions quiet_env
    (set_notes (String.append (notes acme) (annotation (parseAnalysisResponse (Some sample_response))))
       acme)
    (demo_world, tt)
  = act quiet_env
      (ASpecial (take_line (suggestedFix (parseAnalysisResponse (Some sample_response)))))
      (demo_world, tt).
Proof.
  apply (replay_is_the_fix quiet_env acme sample_response (demo_world, tt)).
  - vm_compute; reflexivity.
  - vm_compute; reflexivity.
Defined.

(** ** The user profile *)





(** ** Rules for [outcome] and [silent] *)

Lemma screenshot_attempts_app (c1 c2 : list Call) :
  screenshot_attempts (c1 ++ c2) = (screenshot_attempts c1 + screenshot_attempts c2)%nat.
Proof. unfold screenshot_attempts; rewrite List.filter_app, List.length_app; reflexivity. Qed.

Lemma outcome_weaken {L A} (m : M L A) (s : World * L)
    (Q Q' : list Call -> World * L -> Res A -> Prop) :
  outcome m s Q -> (forall calls s' r, Q calls s' r -> Q' calls s' r) -> outcome m s Q'.
Proof. intros (calls & Ht & HQ) H; exists calls; split; [exact Ht | apply H, HQ]. Qed.

Lemma outcome_ret {L A} (a : A) (s : World * L) Q :
  Q [] s (Ok a) -> outcome (ret a) s Q.
Proof. intros H; exists []; cbn; rewrite app_nil_r; split; [reflexivity | exact H]. Qed.

Lemma outcome_throw {L A} (e : Exn) (s : World * L) (Q : _ -> _ -> Res A -> Prop) :
  Q [] s (Throw e) -> outcome (throw e) s Q.
Proof. intros H; exists []; cbn; rewrite app_nil_r; split; [reflexivity | exact H]. Qed.

Lemma outcome_get {L} (s : World * L) Q :
  Q [] s (Ok (snd s)) -> outcome get s Q.
Proof. intros H; exists []; cbn; rewrite app_nil_r; split; [reflexivity | exact H]. Qed.

Lemma outcome_modify {L} (f : L -> L) (s : World * L) Q :
  Q [] (fst s, f (snd s)) (Ok tt) -> outcome (modify f) s Q.
Proof. intros H; exists []; cbn; rewrite app_nil_r; split; [reflexivity | exact H]. Qed.

Lemma outcome_bind {L A B} (m : M L A) (k : A -> M L B) (s : World * L) Q :
  outcome m s (fun c1 s1 r1 =>
                 match r1 with
                 | Ok a => outcome (k a) s1 (fun c2 => Q (c1 ++ c2)%list)
                 | Throw e => Q c1 s1 (Throw e)
                 end) ->
  outcome (bind m k) s Q.
Proof.
  unfold outcome, bind; intros (c1 & Ht & H).
  destruct (m s) as [s1 [a|e]]; cbn [fst snd] in *.
  - destruct H as (c2 & Ht2 & H); exists (c1 ++ c2)%list; split; [| exact H].
    rewrite Ht2, Ht, app_assoc; reflexivity.
  - exists c1; split; [exact Ht | exact H].
Qed.

Lemma outcome_try_catch {L A} (m : M L A) (h : Exn -> M L A) (s : World * L) Q :
  outcome m s (fun c1 s1 r1 =>
                 match r1 with
                 | Ok a => Q c1 s1 (Ok a)
                 | Throw e => outcome (h e) s1 (fun c2 => Q (c1 ++ c2)%list)
                 end) ->
  outcome (try_catch m h) s Q.
Proof.
  unfold outcome, try_catch; intros (c1 & Ht & H).
  destruct (m s) as [s1 [a|e]]; cbn [fst snd] in *.
  - exists c1; split; [exact Ht | exact H].
  - destruct H as (c2 & Ht2 & H); exists (c1 ++ c2)%list; split; [| exact H].
    rewrite Ht2, Ht, app_assoc; reflexivity.
Qed.

Lemma outcome_call {L} (env : Env) (c : Call) (s : World * L) Q :
  (forall r, Q [c] (log c (fst s), snd s) r) -> outcome (call env c) s Q.
Proof. intros H; exists [c]; split; [reflexivity | apply H]. Qed.

Lemma outcome_writeFileSync {L} (env : Env) (path data : string) (s : World * L) Q :
  (forall w' r, trace w' = (trace (fst s) ++ [CWriteFile path data])%list ->
                Q [CWriteFile path data] (w', snd s) r) ->
  outcome (writeFileSync env path data) s Q.
Proof.
  intros H; exists [CWriteFile path data]; unfold writeFileSync; cbv zeta.
  destruct (answer env (trace (fst s)) (CWriteFile path data));
    (split; [reflexivity | apply H; reflexivity]).
Qed.

Lemma silent_ret {L A} (a : A) : silent (ret (L := L) a).
Proof. intros s; apply outcome_ret; split; reflexivity. Qed.

Lemma silent_throw {L A} (e : Exn) : silent (throw (L := L) (A := A) e).
Proof. intros s; apply outcome_throw; split; reflexivity. Qed.

Lemma silent_get {L} : silent (get (L := L)).
Proof. intros s; apply outcome_get; split; reflexivity. Qed.

Lemma silent_bind {L A B} (m : M L A) (k : A -> M L B) :
  silent m -> (forall a, silent (k a)) -> silent (bind m k).
Proof.
  intros Hm Hk s; apply outcome_bind.
  apply (outcome_weaken _ _ _ _ (Hm s)); intros c1 s1 [a|e] [Hc1 Hl1].
  - apply (outcome_weaken _ _ _ _ (Hk a s1)); intros c2 s2 r [Hc2 Hl2].
    rewrite screenshot_attempts_app, Hc1, Hc2, Hl2, Hl1; split; reflexivity.
  - split; assumption.
Qed.

Lemma silent_try_catch {L A} (m : M L A) (h : Exn -> M L A) :
  silent m -> (forall e, silent (h e)) -> silent (try_catch m h).
Proof.
  intros Hm Hh s; apply outcome_try_catch.
  apply (outcome_weaken _ _ _ _ (Hm s)); intros c1 s1 [a|e] [Hc1 Hl1].
  - split; assumption.
  - apply (outcome_weaken _ _ _ _ (Hh e s1)); intros c2 s2 r [Hc2 Hl2].
    rewrite screenshot_attempts_app, Hc1, Hc2, Hl2, Hl1; split; reflexivity.
Qed.

Lemma silent_call {L} (env : Env) (c : Call) :
  is_screenshot_call c = false -> silent (call (L := L) env c).
Proof.
  intros Hc s; apply outcome_call; intros r; split; [| reflexivity].
  unfold screenshot_attempts; cbn [List.filter]; rewrite Hc; reflexivity.
Qed.

Lemma silent_now {L} (env : Env) : silent (now (L := L) env).
Proof. intros s; exists []; cbn; rewrite app_nil_r; repeat split. Qed.

Lemma silent_readFileSync {L} (path : string) : silent (readFileSync (L := L) path).
Proof.
  intros s; exists []; unfold readFileSync.
  destruct (files (fst s) !! path); cbn; rewrite app_nil_r; repeat split.
Qed.

Lemma silent_writeFileSync {L} (env : Env) (path data : string) :
  silent (writeFileSync (L := L) env path data).
Proof. intros s; apply outcome_writeFileSync; intros w' r _; split; reflexivity. Qed.

Lemma silent_existsSync {L} (path : string) : silent (existsSync (L := L) path).
Proof. intros s; exists []; cbn; rewrite app_nil_r; repeat split. Qed.

Lemma silent_mkdirSync {L} (env : Env) (path : string) :
  silent (mkdirSync (L := L) env path).
Proof.
  intros s; exists [CMkdir path]; unfold mkdirSync; cbv zeta.
  destruct (answer env (trace (fst s)) (CMkdir path)); repeat split.
Qed.

Create HintDb silent.
#[export] Hint Resolve silent_ret silent_throw silent_get silent_now silent_readFileSync
  silent_writeFileSync silent_existsSync silent_mkdirSync : silent.

(** Walk through a computation built from silent pieces. *)
Ltac silent_walk :=
  repeat first
    [ apply silent_bind; [| intros ?]
    | apply silent_try_catch; [| intros ?]
    | apply silent_call; reflexivity
    | solve [auto with silent]
    | match goal with
      | |- silent (if ?b then _ else _) => destruct b
      | |- silent (match ?x with _ => _ end) => destruct x
      end ].

Lemma silent_checkIfNeedsSearch {L} env b : silent (checkIfNeedsSearch (L := L) env b).
Proof. unfold checkIfNeedsSearch, extract; silent_walk. Qed.

Lemma silent_performSearch {L} env u : silent (performSearch (L := L) env u).
Proof. unfold performSearch, act; silent_walk. Qed.

Lemma silent_findAndClickListing {L} env u : silent (findAndClickListing (L := L) env u).
Proof. unfold findAndClickListing, extract; silent_walk. Qed.

Lemma silent_fillRemovalForm {L} env u : silent (fillRemovalForm (L := L) env u).
Proof.
  unfold fillRemovalForm, handleCheckboxesAndTerms, extract, act, waitForTimeout; silent_walk.
Qed.

Lemma silent_applySpecialInstructions {L} env b :
  silent (applySpecialInstructions (L := L) env b).
Proof. unfold applySpecialInstructions, act; silent_walk. Qed.

Lemma silent_submitRemovalForm {L} env : silent (submitRemovalForm (L := L) env).
Proof.
  unfold submitRemovalForm, clickSubmit, extract, act, waitForTimeout, waitForLoadState;
    silent_walk.
Qed.

Lemma silent_verifySubmission {L} env : silent (verifySubmission (L := L) env).
Proof. unfold verifySubmission, extract, waitForTimeout; silent_walk. Qed.

Lemma silent_saveUpdatedBroker {L} json env b : silent (saveUpdatedBroker (L := L) json env b).
Proof. unfold saveUpdatedBroker; silent_walk. Qed.

Lemma silent_updateBrokerWithAnalysis {L} json env b a :
  silent (updateBrokerWithAnalysis (L := L) json env b a).
Proof.
  unfold updateBrokerWithAnalysis; silent_walk; apply silent_saveUpdatedBroker.
Qed.

Lemma silent_analyzeFailureScreenshot {L} env p b e :
  silent (analyzeFailureScreenshot (L := L) env p b e).
Proof. unfold analyzeFailureScreenshot, callOpenAIWithVision; silent_walk. Qed.

Lemma outcome_silent {L A} (m : M L A) (s : World * L) Q :
  silent m ->
  (forall calls w' r, screenshot_attempts calls = 0%nat -> Q calls (w', snd s) r) ->
  outcome m s Q.
Proof.
  intros Hm H; apply (outcome_weaken _ _ _ _ (Hm s)).
  intros calls [w' l'] r [Hc Hl]; cbn [snd] in Hl; subst l'; apply H, Hc.
Qed.

Lemma outcome_with_locals {L L' A} (l0 : L') (m : M L' A) (s : World * L) Q :
  outcome m (fst s, l0)
    (fun calls s1 r1 =>
       Q calls (fst s1, snd s)
         (match r1 with Ok a => Ok (a, snd s1) | Throw e => Throw e end)) ->
  outcome (with_locals l0 m) s Q.
Proof.
  unfold outcome, with_locals; intros (calls & Ht & H); exists calls.
  destruct (m (fst s, l0)) as [[w' l'] [a|e]]; cbn [fst snd] in *; split; assumption.
Qed.

Lemma outcome_existsSync {L} (path : string) (s : World * L) Q :
  Q [] s (Ok (bool_decide (path ∈ dirs (fst s)))) -> outcome (existsSync path) s Q.
Proof. intros H; exists []; cbn; rewrite app_nil_r; split; [reflexivity | exact H]. Qed.

Lemma outcome_now {L} (env : Env) (s : World * L) Q :
  Q [] s (Ok (clock env (trace (fst s)))) -> outcome (now env) s Q.
Proof. intros H; exists []; cbn; rewrite app_nil_r; split; [reflexivity | exact H]. Qed.

Lemma outcome_mkdirSync {L} (env : Env) (path : string) (s : World * L) Q :
  (forall w', trace w' = (trace (fst s) ++ [CMkdir path])%list ->
              Q [CMkdir path] (w', snd s) (Ok tt)) ->
  (forall e, answer env (trace (fst s)) (CMkdir path) = Throw e ->
             Q [CMkdir path] (log (CMkdir path) (fst s), snd s) (Throw e)) ->
  outcome (mkdirSync env path) s Q.
Proof.
  intros Hok Hthrow; exists [CMkdir path]; unfold mkdirSync; cbv zeta.
  destruct (answer env (trace (fst s)) (CMkdir path)) as [[]|e] eqn:E;
    (split; [reflexivity |]).
  - apply Hok; reflexivity.
  - apply Hthrow; reflexivity.
Qed.

(** ** Evidence *)

(** The screenshot block always returns, makes one screenshot call, and
    touches nothing of the result but the evidence reference. *)
Lemma take_screenshot_outcome env path (s : World * RemovalResult) :
  outcome (take_screenshot env path) s (fun calls s' r =>
    r = Ok tt /\ screenshot_attempts calls = 1%nat
    /\ (snd s' = set_screenshot path (snd s)
        \/ snd s' = set_screenshot "failed_to_save" (snd s))).
Proof.
  unfold take_screenshot, page_screenshot.
  outcome_walk ltac:(first
    [ apply outcome_bind | apply outcome_try_catch | apply outcome_ret
    | apply outcome_modify
    | apply outcome_call; intros [?|?]
    | apply outcome_writeFileSync; intros ? [?|?] ? ]).
  all: cbn [fst snd]; repeat split; auto.
Qed.

Lemma analyze_failure_outcome json env b (s : World * RemovalResult) :
  outcome (analyze_failure json env b) s (fun calls s' r =>
    r = Ok tt /\ screenshot_attempts calls = 0%nat
    /\ same_verdict (snd s) (snd s') /\ screenshot (snd s') = screenshot (snd s)).
Proof.
  unfold analyze_failure.
  apply outcome_bind, outcome_get; cbv beta iota.
  destruct (screenshot (snd s)) as [shot|] eqn:Hshot;
    [destruct (Js.truthy shot && negb (String.eqb shot "failed_to_save")) |].
  2,3: apply outcome_ret; unfold same_verdict; repeat split; auto.
  apply outcome_try_catch, outcome_bind.
  apply outcome_silent; [apply silent_analyzeFailureScreenshot |].
  intros c1 w1 [analysis|e] Hc1; cbv beta iota.
  - apply outcome_bind, outcome_silent; [apply silent_updateBrokerWithAnalysis |].
    intros c2 w2 [updated|e] Hc2; cbv beta iota; cbn [snd].
    + apply outcome_modify; cbn [fst snd].
      rewrite !screenshot_attempts_app, Hc1, Hc2.
      unfold same_verdict; repeat split; auto.
    + apply outcome_ret; cbn [snd].
      rewrite !screenshot_attempts_app, Hc1, Hc2.
      unfold same_verdict; repeat split; auto.
  - apply outcome_ret; cbn [snd].
    rewrite !screenshot_attempts_app, Hc1.
    unfold same_verdict; repeat split; auto.
Qed.

(** After the verdict: one screenshot call, then the analysis of a failure;
    the step always returns and the verdict stays as verification set it,
    whether the capture succeeds or not. *)
Lemma record_evidence_outcome json env b (s : World * RemovalResult) :
  outcome (record_evidence json env b) s (fun calls s' r =>
    r = Ok tt /\ screenshot_attempts calls = 1%nat
    /\ same_verdict (snd s) (snd s')
    /\ (screenshot (snd s') = Some (screenshot_path (success (snd s)) b)
        \/ screenshot (snd s') = Some "failed_to_save")).
Proof.
  unfold record_evidence.
  apply outcome_bind, outcome_get; cbv beta iota.
  apply outcome_bind.
  apply (outcome_weaken _ _ _ _ (take_screenshot_outcome env _ s)).
  intros c1 [w1 l1] r1 (-> & Hc1 & Hl1); cbn [snd] in Hl1.
  apply outcome_bind, outcome_get; cbv beta iota; cbn [snd].
  assert (Hv : same_verdict (snd s) l1)
    by (destruct Hl1 as [-> | ->]; unfold same_verdict; repeat split).
  assert (Hs : screenshot l1 = Some (screenshot_path (success (snd s)) b)
               \/ screenshot l1 = Some "failed_to_save")
    by (destruct Hl1 as [-> | ->]; cbn; auto).
  destruct (success l1).
  - apply outcome_ret; cbn [snd]; rewrite !screenshot_attempts_app, Hc1; auto.
  - apply (outcome_weaken _ _ _ _ (analyze_failure_outcome json env b (w1, l1))).
    intros c2 [w2 l2] r2 (-> & Hc2 & (V0 & V1 & V2 & V3) & Hshot); cbn [snd] in *.
    rewrite !screenshot_attempts_app, Hc1, Hc2.
    destruct Hv as (U0 & U1 & U2 & U3).
    unfold same_verdict; rewrite V0, V1, V2, V3, Hshot; repeat split; auto.
Qed.

Lemma fill_submit_verify_outcome json env b u (s : World * RemovalResult) :
  outcome (fill_submit_verify json env b u) s (fun calls s' r =>
    match r with
    | Ok _ => screenshot_attempts calls = 1%nat /\ evidence_taken b (snd s')
              /\ error (snd s') = error (snd s) /\ broker (snd s') = broker (snd s)
    | Throw _ => screenshot_attempts calls = 0%nat /\ snd s' = snd s
    end).
Proof.
  unfold fill_submit_verify.
  apply outcome_bind, outcome_silent;
    [destruct (has_instructions b);
     [apply silent_applySpecialInstructions | apply silent_ret] |].
  intros c1 w1 [[]|e] Hc1; cbv beta iota; [| auto].
  apply outcome_bind, outcome_silent; [apply silent_fillRemovalForm |].
  intros c2 w2 [[]|e] Hc2; cbv beta iota; cbn [snd];
    [| rewrite !screenshot_attempts_app, Hc1, Hc2; auto].
  apply outcome_bind, outcome_silent; [apply silent_submitRemovalForm |].
  intros c3 w3 [[]|e] Hc3; cbv beta iota; cbn [snd];
    [| rewrite !screenshot_attempts_app, Hc1, Hc2, Hc3; auto].
  apply outcome_bind, outcome_silent; [apply silent_verifySubmission |].
  intros c4 w4 [v|e] Hc4; cbv beta iota; cbn [snd];
    [| rewrite !screenshot_attempts_app, Hc1, Hc2, Hc3, Hc4; auto].
  apply outcome_bind, outcome_modify; cbv beta iota; cbn [fst snd].
  apply (outcome_weaken _ _ _ _ (record_evidence_outcome json env b _)).
  intros c5 [w5 l5] r5 (-> & Hc5 & (V0 & V1 & V2 & V3) & Hshot); cbn [snd] in *.
  rewrite !screenshot_attempts_app, Hc1, Hc2, Hc3, Hc4, Hc5.
  unfold evidence_taken; rewrite V0, V1, V2; cbn [broker success error set_verdict] in *.
  repeat split; auto.
Qed.

Lemma try_block_outcome json env b u (s : World * RemovalResult) :
  outcome (try_block json env b u) s (fun calls s' r =>
    match r with
    | Ok _ => (screenshot_attempts calls = 0%nat
               /\ snd s' = set_error "Could not find user listing" (snd s))
              \/ (screenshot_attempts calls = 1%nat /\ evidence_taken b (snd s')
                  /\ error (snd s') = error (snd s) /\ broker (snd s') = broker (snd s))
    | Throw _ => screenshot_attempts calls = 0%nat /\ snd s' = snd s
    end).
Proof.
  unfold try_block, goto, waitForLoadState.
  apply outcome_bind, outcome_silent; [apply silent_call; reflexivity |].
  intros c1 w1 [[]|e] Hc1; cbv beta iota; [| auto].
  apply outcome_bind, outcome_silent; [apply silent_call; reflexivity |].
  intros c2 w2 [[]|e] Hc2; cbv beta iota; cbn [snd];
    [| rewrite !screenshot_attempts_app, Hc1, Hc2; auto].
  apply outcome_bind, outcome_silent; [apply silent_checkIfNeedsSearch |].
  intros c3 w3 [needsSearch|e] Hc3; cbv beta iota; cbn [snd];
    [| rewrite !screenshot_attempts_app, Hc1, Hc2, Hc3; auto].
  assert (Hrest : forall w,
    outcome (fill_submit_verify json env b u) (w, snd s) (fun c s' r =>
      match r with
      | Ok _ => (screenshot_attempts c = 0%nat
                 /\ snd s' = set_error "Could not find user listing" (snd s))
                \/ (screenshot_attempts c = 1%nat /\ evidence_taken b (snd s')
                    /\ error (snd s') = error (snd s) /\ broker (snd s') = broker (snd s))
      | Throw _ => screenshot_attempts c = 0%nat /\ snd s' = snd s
      end)).
  { intros w; apply (outcome_weaken _ _ _ _ (fill_submit_verify_outcome json env b u _)).
    intros c s' [[]|e] H; cbn [snd] in H; auto. }
  destruct needsSearch.
  - apply outcome_bind, outcome_silent; [apply silent_performSearch |].
    intros c4 w4 [[]|e] Hc4; cbv beta iota; cbn [snd];
      [| rewrite !screenshot_attempts_app, Hc1, Hc2, Hc3, Hc4; auto].
    apply outcome_bind, outcome_silent; [apply silent_call; reflexivity |].
    intros c5 w5 [[]|e] Hc5; cbv beta iota; cbn [snd];
      [| rewrite !screenshot_attempts_app, Hc1, Hc2, Hc3, Hc4, Hc5; auto].
    apply outcome_bind, outcome_silent; [apply silent_findAndClickListing |].
    intros c6 w6 [listingFound|e] Hc6; cbv beta iota; cbn [snd];
      [| rewrite !screenshot_attempts_app, Hc1, Hc2, Hc3, Hc4, Hc5, Hc6; auto].
    destruct listingFound; cbn [negb].
    + apply outcome_bind, outcome_silent; [apply silent_call; reflexivity |].
      intros c7 w7 [[]|e] Hc7; cbv beta iota; cbn [snd];
        [| rewrite !screenshot_attempts_app, Hc1, Hc2, Hc3, Hc4, Hc5, Hc6, Hc7; auto].
      apply (outcome_weaken _ _ _ _ (Hrest _)); intros c s' r H.
      rewrite !screenshot_attempts_app, Hc1, Hc2, Hc3, Hc4, Hc5, Hc6, Hc7; exact H.
    + apply outcome_modify; cbn [fst snd]; left.
      rewrite !screenshot_attempts_app, Hc1, Hc2, Hc3, Hc4, Hc5, Hc6; auto.
  - apply (outcome_weaken _ _ _ _ (Hrest _)); intros c s' r H.
    rewrite !screenshot_attempts_app, Hc1, Hc2, Hc3; exact H.
Qed.

Lemma catch_block_outcome env b e (s : World * RemovalResult) :
  outcome (catch_block env b e) s (fun calls s' r =>
    r = Ok tt /\ screenshot_attempts calls = 1%nat
    /\ broker (snd s') = broker (snd s)
    /\ success (snd s') = success (snd s) /\ error (snd s') = Some e
    /\ details (snd s') = details (snd s)
    /\ (screenshot (snd s') = Some (screenshot_path false b)
        \/ screenshot (snd s') = Some "failed_to_save")).
Proof.
  unfold catch_block.
  apply outcome_bind, outcome_modify; cbv beta iota.
  apply (outcome_weaken _ _ _ _ (take_screenshot_outcome env _ _)).
  intros c [w l] r (-> & Hc & Hl); cbn [fst snd] in *.
  destruct Hl as [-> | ->]; cbn; repeat split; auto.
Qed.

Lemma attempt_body_outcome json env b u t (w : World) :
  outcome (try_catch (try_block json env b u) (catch_block env b)) (w, initial_result b t)
    (fun calls s' r =>
       r = Ok tt /\ broker (snd s') = b
       /\ ((screenshot_attempts calls = 0%nat
            /\ snd s' = set_error "Could not find user listing" (initial_result b t))
           \/ (screenshot_attempts calls = 1%nat /\ evidence_taken b (snd s')))).
Proof.
  apply outcome_try_catch.
  apply (outcome_weaken _ _ _ _ (try_block_outcome json env b u _)).
  intros c1 [w1 l1] [[]|e]; cbn [fst snd].
  - intros [[Hc Hl] | (Hc & Hev & _ & Hb)]; (split; [reflexivity |]).
    + rewrite Hl; split; [reflexivity | left; split; [exact Hc | reflexivity]].
    + split; [exact Hb | right; split; assumption].
  - intros [Hc ->].
    apply (outcome_weaken _ _ _ _ (catch_block_outcome env b e _)).
    intros c2 [w2 l2] r2 (-> & Hc2 & Hb & Hs & _ & _ & Hshot); cbn [fst snd] in *.
    split; [reflexivity | split; [exact Hb | right]].
    rewrite screenshot_attempts_app, Hc, Hc2; split; [reflexivity |].
    unfold evidence_taken; rewrite Hs; exact Hshot.
Qed.

Lemma attempt_tail_outcome {L} json env b u (s : World * L) :
  outcome (t <- now env ;;
           r <- with_locals (initial_result b t)
                  (try_catch (try_block json env b u) (catch_block env b)) ;;
           ret (snd r)) s
    (fun calls s' r => snd s' = snd s /\ attempt_post b calls r).
Proof.
  apply outcome_bind, outcome_now; cbv beta iota.
  apply outcome_bind, outcome_with_locals.
  apply (outcome_weaken _ _ _ _ (attempt_body_outcome json env b u _ _)).
  intros c [w1 l1] r (-> & Hb & H); cbn [fst snd] in Hb, H |- *.
  apply outcome_ret; cbn [fst snd]; split; [reflexivity |].
  exists l1; split; [reflexivity | split; [exact Hb |]].
  rewrite !screenshot_attempts_app, Nat.add_0_r; cbn [Nat.add].
  destruct H as [[Hc ->] | [Hc Hev]]; [left | right]; repeat split; auto.
Qed.

(** Every attempt of an initialised engine, whatever the environment
    answers: it returns a result for its broker, having made no screenshot
    call when it ended at the listing that was not found and exactly one
    otherwise; or the [screenshots] directory could not be made and it
    throws.  The local variables of the caller are untouched. *)
Lemma removeFromBroker_outcome {L} json env engine b u (s : World * L) :
  stagehand engine = true ->
  outcome (removeFromBroker json env engine b u) s (fun calls s' r =>
    snd s' = snd s
    /\ (attempt_post b calls r
        \/ exists e, r = Throw e
                     /\ bool_decide ("screenshots" ∈ dirs (fst s)) = false
                     /\ calls = [CMkdir "screenshots"]
                     /\ answer env (trace (fst s)) (CMkdir "screenshots") = Throw e)).
Proof.
  intros Hengine; unfold removeFromBroker; rewrite Hengine; cbn [negb].
  apply outcome_bind, outcome_existsSync; cbv beta iota.
  destruct (bool_decide ("screenshots" ∈ dirs (fst s))) eqn:Hdir; cbn [negb].
  - apply outcome_bind, outcome_ret; cbv beta iota.
    apply (outcome_weaken _ _ _ _ (attempt_tail_outcome json env b u s)).
    intros c s' r [Hl H]; split; [exact Hl | left; exact H].
  - apply outcome_bind, outcome_mkdirSync; cbv beta iota.
    + intros w' _.
      apply (outcome_weaken _ _ _ _ (attempt_tail_outcome json env b u _)).
      intros c s' r [Hl (res & -> & Hb & H)]; split; [exact Hl | left].
      exists res; split; [reflexivity | split; [exact Hb |]].
      rewrite !screenshot_attempts_app; exact H.
    + intros e He; split; [reflexivity | right].
      exists e; repeat split; auto.
Qed.

(** X1. Evidence, attempt by attempt.  Every attempt of an initialised engine
    that returns a result has made exactly one screenshot call and carries an
    evidence reference, except the attempt that ends at the listing that was
    not found, which has made none and carries none. *)
Theorem attempt_evidence {L} json env engine b u (s : World * L) res :
  stagehand engine = true ->
  snd (removeFromBroker json env engine b u s) = Ok res ->
  exists calls,
    trace (fst (fst (removeFromBroker json env engine b u s))) = (trace (fst s) ++ calls)%list
    /\ ((screenshot_attempts calls = 0%nat /\ screenshot res = None
         /\ success res = false /\ error res = Some "Could not find user listing"
         /\ details res = None)
        \/ (screenshot_attempts calls = 1%nat /\ evidence_taken b res)).
Proof.
  intros Hengine Hres.
  destruct (removeFromBroker_outcome json env engine b u s Hengine) as (calls & Ht & _ & H).
  exists calls; split; [exact Ht |].
  rewrite Hres in H.
  destruct H as [(res' & [= <-] & _ & H) | (e & [=] & _)]; exact H.
Qed.

Lemma attempt_evidence_witness :
  exists calls,
    trace (fst (fst (removeFromBroker demo_json quiet_env {| stagehand := true |} acme jane
                       (demo_world, tt))))
    = (trace demo_world ++ calls)%list
    /\ ((screenshot_attempts calls = 0%nat /\ screenshot acme_result = None
         /\ success acme_result = false
         /\ error acme_result = Some "Could not find user listing"
         /\ details acme_result = None)
        \/ (screenshot_attempts calls = 1%nat /\ evidence_taken acme acme_result)).
Proof.
  apply (attempt_evidence demo_json quiet_env {| stagehand := true |} acme jane
           (demo_world, tt) acme_result).
  - reflexivity.
  - vm_compute; reflexivity.
Defined.

(** X2. Evidence and verdict.  The step that follows the verdict (screenshot,
    then analysis of a failure) always returns and leaves the success flag,
    the error and the details as they were, whatever the capture and the
    write of the image answer; only the evidence reference (and the attached
    analysis) is set.  The same holds of the screenshot in the [catch]
    block, once it has recorded the error. *)
Theorem evidence_keeps_verdict json env b e (s : World * RemovalResult) :
  (let run := record_evidence json env b s in
   snd run = Ok tt
   /\ same_verdict (snd s) (snd (fst run))
   /\ (screenshot (snd (fst run)) = Some (screenshot_path (success (snd s)) b)
       \/ screenshot (snd (fst run)) = Some "failed_to_save"))
  /\ (let run := catch_block env b e s in
      snd run = Ok tt
      /\ success (snd (fst run)) = success (snd s)
      /\ error (snd (fst run)) = Some e
      /\ details (snd (fst run)) = details (snd s)
      /\ (screenshot (snd (fst run)) = Some (screenshot_path false b)
          \/ screenshot (snd (fst run)) = Some "failed_to_save")).
Proof.
  cbv zeta; split.
  - destruct (record_evidence_outcome json env b s) as (calls & _ & Hr & _ & Hv & Hs).
    repeat split; auto; apply Hv.
  - destruct (catch_block_outcome env b e s) as (calls & _ & Hr & _ & _ & H1 & H2 & H3 & H4).
    repeat split; auto.
Qed.

(** C3 at its failing input: the attempt on a search-first broker whose
    listing is not found returns its failure without one screenshot call;
    the result carries no evidence reference at all. *)
Theorem listing_not_found_takes_no_screenshot :
  let run := removeFromBroker demo_json quiet_env {| stagehand := true |} spokeo jane
               (demo_world, tt) in
  (exists result, snd run = Ok result
                  /\ success result = false
                  /\ error result = Some "Could not find user listing"
                  /\ screenshot result = None)
  /\ screenshot_attempts (trace (fst (fst run))) = 0%nat.
Proof.
  cbv zeta; split.
  - eexists; split; [vm_compute; reflexivity |].
    repeat split; reflexivity.
  - vm_compute; reflexivity.
Qed.

(** ** The session file *)

Lemma removeFromBroker_frame {L} json env engine b u (s : World * L) :
  stagehand engine = true ->
  snd (fst (removeFromBroker json env engine b u s)) = snd s
  /\ forall res, snd (removeFromBroker json env engine b u s) = Ok res -> broker res = b.
Proof.
  intros Hengine.
  destruct (removeFromBroker_outcome json env engine b u s Hengine) as (calls & _ & Hl & H).
  split; [exact Hl |].
  intros res Hres; rewrite Hres in H.
  destruct H as [(res' & [= <-] & Hb & _) | (e & [=] & _)]; exact Hb.
Qed.

Lemma process_broker_saves json env engine u b (s : World * RemovalSession) res :
  stagehand engine = true ->
  snd (removeFromBroker json env engine b u s) = Ok res ->
  answer env (trace (fst (fst (removeFromBroker json env engine b u s))))
    (CWriteFile session_file (stringify_session json (push_result res (snd s)))) = Ok tt ->
  snd (process_broker json env engine u b s) = Ok tt
  /\ snd (fst (process_broker json env engine u b s)) = push_result res (snd s)
  /\ broker res = b
  /\ files (fst (fst (process_broker json env engine u b s))) !! session_file
     = Some (stringify_session json (push_result res (snd s))).
Proof.
  intros Hengine Hres Hwrite.
  destruct (removeFromBroker_frame json env engine b u s Hengine) as [Hl Hb].
  specialize (Hb res Hres).
  unfold process_broker, try_catch, bind, modify, get, writeFileSync.
  destruct (removeFromBroker json env engine b u s) as [[w1 l1] r1] eqn:E.
  cbn [fst snd] in *; subst r1 l1.
  cbv zeta; cbn [fst snd]; rewrite Hwrite; cbn [fst snd files].
  repeat split; auto.
  apply lookup_insert_eq.
Qed.

Lemma process_brokers_step json env engine u b rest (s s1 : World * RemovalSession) :
  process_broker json env engine u b s = (s1, Ok tt) ->
  process_brokers json env engine u (b :: rest) s
  = process_brokers json env engine u rest s1.
Proof. intros H; cbn [process_brokers]; unfold bind; rewrite H; reflexivity. Qed.

(** X3. While every attempt returns and every write of the session file
    succeeds, the state after the first [k] brokers holds [k] more results,
    one per broker in processing order, and (once a broker has been
    processed) the session file is the serialised session with exactly those
    results. *)
Theorem session_file_follows_the_loop json env engine u bs (s : World * RemovalSession) :
  stagehand engine = true ->
  undisturbed json env engine u bs s ->
  forall k, (k <= List.length bs)%nat ->
    let run := process_brokers json env engine u (firstn k bs) s in
    snd run = Ok tt
    /\ exists rs,
         results (snd (fst run)) = (results (snd s) ++ rs)%list
         /\ List.map broker rs = firstn k bs
         /\ List.length rs = k
         /\ ((0 < k)%nat ->
             files (fst (fst run)) !! session_file
             = Some (stringify_session json (snd (fst run)))).
Proof.
  intros Hengine; revert s; induction bs as [|b rest IH]; intros s Hclean k Hk.
  - cbn in Hk; assert (k = 0%nat) as -> by lia; cbn.
    split; [reflexivity |]; exists []; rewrite app_nil_r; repeat split; lia.
  - destruct k as [|k]; cbn [firstn].
    + cbn; split; [reflexivity |]; exists []; rewrite app_nil_r; repeat split; lia.
    + cbn [undisturbed] in Hclean; cbv zeta in Hclean.
      destruct Hclean as [(res & Hres & Hwrite) Hrest].
      destruct (process_broker_saves json env engine u b s res Hengine Hres Hwrite)
        as (Hok & Hsess & Hb & Hfile).
      cbn [List.length] in Hk.
      specialize (IH _ Hrest k ltac:(lia)); cbv zeta in IH |- *.
      destruct (process_broker json env engine u b s) as [s1 r1] eqn:E; cbn [fst snd] in *.
      subst r1; rewrite (process_brokers_step _ _ _ _ _ _ _ _ E).
      destruct IH as (Hrun & rs & Hrs & Hmap & Hlen & Hfiles).
      split; [exact Hrun |].
      exists (res :: rs); repeat split.
      * rewrite Hrs, Hsess; cbn [results push_result]; rewrite <- app_assoc; reflexivity.
      * cbn [List.map]; rewrite Hmap, Hb; reflexivity.
      * cbn [List.length]; rewrite Hlen; reflexivity.
      * intros _; destruct k as [|k'].
        -- change (firstn 0 rest) with (@nil Broker).
           cbn [process_brokers]; unfold ret; cbn [fst snd].
           rewrite Hfile, Hsess; reflexivity.
        -- apply Hfiles; lia.
Qed.

Lemma session_file_follows_the_loop_witness :
  let run := process_brokers demo_json quiet_env {| stagehand := true |} jane
               (firstn 2 [acme; spokeo]) (demo_world, new_session jane 0) in
  snd run = Ok tt
  /\ exists rs,
       results (snd (fst run)) = (results (new_session jane 0) ++ rs)%list
       /\ List.map broker rs = firstn 2 [acme; spokeo]
       /\ List.length rs = 2%nat
       /\ ((0 < 2)%nat ->
           files (fst (fst run)) !! session_file
           = Some (stringify_session demo_json (snd (fst run)))).
Proof.
  apply (session_file_follows_the_loop demo_json quiet_env {| stagehand := true |} jane
           [acme; spokeo] (demo_world, new_session jane 0)).
  - reflexivity.
  - cbn [undisturbed]; cbv zeta; repeat split.
    + eexists; split; vm_compute; reflexivity.
    + eexists; split; vm_compute; reflexivity.
  - cbn; lia.
Defined.

(** C8 at its failing input: when [removeFromBroker] throws (here the
    [screenshots] directory cannot be made), the loop records the failure in
    the session but does not write the session file; after the first of two
    brokers the session holds one result and no session file exists.  When
    the write of the session file itself throws, the broker is recorded
    twice and still nothing is stored. *)
Theorem faulted_broker_is_not_persisted :
  let start := (empty_world, new_session jane 0) in
  let after_first := fst (process_brokers demo_json no_mkdir_env {| stagehand := true |}
                            jane [acme] start) in
  let after_second := fst (process_brokers demo_json no_mkdir_env {| stagehand := true |}
                             jane [acme; spokeo] start) in
  let full_disk := fst (process_brokers demo_json full_disk_env {| stagehand := true |}
                          jane [acme] start) in
  (List.length (results (snd after_first)) = 1%nat
   /\ files (fst after_first) !! session_file = None)
  /\ (List.length (results (snd after_second)) = 2%nat
      /\ files (fst after_second) !! session_file = None)
  /\ (List.map (fun r => name (broker r)) (results (snd full_disk)) = ["AcmeData"; "AcmeData"]
      /\ files (fst full_disk) !! session_file = None).
Proof. cbv zeta; repeat split; vm_compute; reflexivity. Qed.

(** ** Labelled lines *)

Lemma split_not_nil (sep : ascii) (s : string) : Js.split sep s <> [].
Proof.
  destruct s as [|c r]; cbn [Js.split]; [discriminate |].
  destruct (Ascii.eqb c sep); [discriminate |].
  destruct (Js.split sep r); discriminate.
Qed.

Lemma concat_cons (sep x : string) (l : list string) :
  l <> [] -> String.concat sep (x :: l) = String.append x (String.append sep (String.concat sep l)).
Proof. destruct l; [contradiction | reflexivity]. Qed.

Lemma split_join (sep : ascii) (s : string) :
  Js.join (String sep EmptyString) (Js.split sep s) = s.
Proof.
  unfold Js.join; induction s as [|c r IH]; [reflexivity |].
  cbn [Js.split]; destruct (Ascii.eqb_spec c sep) as [->|Hne].
  - rewrite concat_cons by apply split_not_nil; rewrite IH; reflexivity.
  - pose proof (split_not_nil sep r) as Hnil.
    destruct (Js.split sep r) as [|h t]; [contradiction |].
    destruct t as [|h' t'].
    + cbn [String.concat] in *; rewrite IH; reflexivity.
    + rewrite concat_cons by discriminate.
      rewrite concat_cons in IH by discriminate.
      rewrite append_cons, IH; reflexivity.
Qed.

Lemma split_app (sep : ascii) (a b : string) :
  lacks sep a = true ->
  Js.split sep (String.append a (String sep b)) = a :: Js.split sep b.
Proof.
  induction a as [|c a IH]; intros Ha.
  - rewrite append_nil; cbn [Js.split]; rewrite Ascii.eqb_refl; reflexivity.
  - unfold lacks in Ha; cbn [all_chars] in Ha; apply andb_prop in Ha; destruct Ha as [Hc Ha].
    rewrite append_cons; cbn [Js.split].
    apply negb_true_iff in Hc; rewrite Hc, (IH Ha); reflexivity.
Qed.

Lemma after_colon_app (a b : string) :
  lacks ":" a = true -> after_colon (String.append a (String ":" b)) = Js.trim b.
Proof.
  intros Ha; unfold after_colon; rewrite (split_app _ _ _ Ha).
  cbn [Js.slice1 tl]; rewrite (split_join ":" b); reflexivity.
Qed.

(** X6. The value of a labelled line.  When no colon precedes the colon of
    the label, the text that [parseAnalysisResponse] takes for a problem, a
    fix or a list of steps is all that follows that colon, trimmed, later
    colons included; the text it reads a confidence from stops at the next
    colon. *)
Theorem label_value_keeps_later_colons (label value : string) :
  lacks ":" label = true ->
  after_colon (String.append label (String ":" value)) = Js.trim value
  /\ confidence_text (String.append label (String ":" value))
     = Js.or_else (Js.trim (List.hd EmptyString (Js.split ":" value))) "5".
Proof.
  intros H; split; [apply after_colon_app, H |].
  unfold confidence_text; rewrite (split_app _ _ _ H); cbn [nth_error].
  pose proof (split_not_nil ":" value) as Hn.
  destruct (Js.split ":" value); [contradiction | reflexivity].
Qed.

Lemma label_value_keeps_later_colons_witness :
  after_colon (String.append "Fix" (String ":" " open https://example.com/optout"))
  = Js.trim " open https://example.com/optout"
  /\ confidence_text (String.append "Fix" (String ":" " open https://example.com/optout"))
     = Js.or_else
         (Js.trim (List.hd EmptyString (Js.split ":" " open https://example.com/optout"))) "5".
Proof.
  apply (label_value_keeps_later_colons "Fix" " open https://example.com/optout").
  reflexivity.
Defined.

(** ** Well-formed diagnoses *)

Lemma trimEnd_idem (s : string) : Js.trimEnd (Js.trimEnd s) = Js.trimEnd s.
Proof.
  induction s as [|c r IH]; [reflexivity |].
  cbn [Js.trimEnd].
  destruct (Js.trimEnd r) as [|c' r'] eqn:E.
  - destruct (Js.is_space c) eqn:Hc; [reflexivity |].
    cbn [Js.trimEnd]; rewrite Hc; reflexivity.
  - cbn [Js.trimEnd] in IH |- *; rewrite IH; reflexivity.
Qed.

Lemma trimStart_fixed (c : ascii) (r : string) :
  Js.is_space c = false -> Js.trimStart (String c r) = String c r.
Proof. intros H; cbn [Js.trimStart]; rewrite H; reflexivity. Qed.

Lemma trim_idem (s : string) : Js.trim (Js.trim s) = Js.trim s.
Proof.
  unfold Js.trim.
  destruct (trimStart_head s) as [E | (c & r & E & Hc)]; rewrite E; [reflexivity |].
  destruct (trimEnd_head c r) as [E' | (r' & E')].
  - rewrite E'; reflexivity.
  - rewrite E' at 1; rewrite (trimStart_fixed _ _ Hc), <- E'; apply trimEnd_idem.
Qed.

Lemma after_colon_trimmed (line : string) : is_trimmed (after_colon line).
Proof. unfold is_trimmed, after_colon; apply trim_idem. Qed.

Lemma parse_line_keeps (P : string -> Prop) (v : ParseVars) (line : string) :
  (forall l, P (after_colon l)) ->
  P (v_suggestedFix v) -> P (v_suggestedFix (parse_line v line)).
Proof.
  intros HP H; unfold parse_line; cbv zeta.
  repeat match goal with |- context [if ?b then _ else _] => destruct b end;
    cbn [v_suggestedFix]; auto.
Qed.

Lemma clean_steps_of (text : string) :
  Forall clean_step
    (List.filter (fun s => (0 <? String.length s)%nat) (List.map Js.trim (Js.split "," text))).
Proof.
  induction (Js.split "," text) as [|x xs IH]; cbn [List.map List.filter]; [constructor |].
  destruct (Js.trim x) as [|c r] eqn:E; cbn [String.length Nat.ltb Nat.leb]; [exact IH |].
  constructor; [| exact IH].
  split; [discriminate |]; unfold is_trimmed; rewrite <- E; apply trim_idem.
Qed.

Lemma parse_line_steps (v : ParseVars) (line : string) :
  Forall clean_step (v_nextSteps v) -> Forall clean_step (v_nextSteps (parse_line v line)).
Proof.
  intros H; unfold parse_line; cbv zeta.
  repeat match goal with |- context [if ?b then _ else _] => destruct b end;
    cbn [v_nextSteps]; auto using clean_steps_of.
Qed.

Lemma fold_parse_fields (lines : list string) (v : ParseVars) :
  is_trimmed (v_suggestedFix v) -> Forall clean_step (v_nextSteps v) ->
  is_trimmed (v_suggestedFix (fold_left parse_line lines v))
  /\ Forall clean_step (v_nextSteps (fold_left parse_line lines v)).
Proof.
  revert v; induction lines as [|l ls IH]; intros v Hf Hs; cbn [fold_left]; [auto |].
  apply IH; [apply parse_line_keeps; [apply after_colon_trimmed | exact Hf]
            | apply parse_line_steps, Hs].
Qed.

Lemma append_not_nil (s t : string) : t <> EmptyString -> String.append s t <> EmptyString.
Proof. destruct s; [rewrite append_nil; auto | rewrite append_cons; discriminate]. Qed.

(** X7. Whatever the completion holds, the diagnosis has a problem and a fix
    that are not empty, a fix without white space around it, and next steps
    that are not empty and have no white space around them. *)
Theorem diagnosis_is_well_formed (response : option string) :
  let a := parseAnalysisResponse response in
  problem a <> EmptyString
  /\ suggestedFix a <> EmptyString /\ is_trimmed (suggestedFix a)
  /\ Forall clean_step (nextSteps a).
Proof.
  cbv zeta; destruct response as [r|]; cbn [parseAnalysisResponse].
  2: { repeat split; try discriminate; repeat constructor; discriminate. }
  unfold parse_response_string; cbn [problem suggestedFix nextSteps].
  destruct (fold_parse_fields (Js.split "010" r) parse_init) as [Hf Hs];
    [reflexivity | constructor |].
  destruct (v_problem _) eqn:Hp, (v_suggestedFix _) eqn:Hx; cbn [Js.truthy negb];
    repeat split; try discriminate; try exact Hs; try exact Hf;
    apply append_not_nil; discriminate.
Qed.

(** ** The page analysis *)

Lemma trimEnd_tail (c : ascii) (r : string) :
  Js.trimEnd (String c r) = String c r -> Js.trimEnd r = r.
Proof.
  cbn [Js.trimEnd]; destruct (Js.trimEnd r) as [|c' r'] eqn:E.
  - destruct (Js.is_space c); [discriminate |]; intros [= <-]; reflexivity.
  - intros [= <-]; reflexivity.
Qed.

Lemma trimEnd_trimStart (s : string) :
  Js.trimEnd s = s -> Js.trimEnd (Js.trimStart s) = Js.trimStart s.
Proof.
  induction s as [|c r IH]; intros H; [reflexivity |].
  cbn [Js.trimStart]; destruct (Js.is_space c); [apply IH, (trimEnd_tail _ _ H) | exact H].
Qed.

Lemma trimEnd_skip_digits (s : string) :
  Js.trimEnd s = s -> Js.trimEnd (skip_digits s) = skip_digits s.
Proof.
  induction s as [|c r IH]; intros H; [reflexivity |].
  cbn [skip_digits]; destruct (is_digit c); [apply IH, (trimEnd_tail _ _ H) | exact H].
Qed.

Lemma trimEnd_trim (s : string) : Js.trimEnd (Js.trim s) = Js.trim s.
Proof. unfold Js.trim; apply trimEnd_idem. Qed.

Lemma trimStart_idem (s : string) : Js.trimStart (Js.trimStart s) = Js.trimStart s.
Proof.
  destruct (trimStart_head s) as [E | (c & r & E & Hc)]; rewrite E; [reflexivity |].
  apply trimStart_fixed, Hc.
Qed.

Lemma numbered_tail (s rest : string) :
  Js.trimEnd s = s -> numbered s = Some rest -> Js.trimEnd rest = rest.
Proof.
  unfold numbered; destruct s as [|d r]; [discriminate |].
  destruct (is_digit d); [| discriminate]; intros H.
  apply trimEnd_tail, trimEnd_skip_digits in H.
  destruct (skip_digits r) as [|c x]; [discriminate |].
  destruct (Ascii.eqb_spec c "."); [subst c | ].
  - intros [= <-]; apply (trimEnd_tail _ _ H).
  - repeat (destruct c as [[] [] [] [] [] [] [] []]; try discriminate); contradiction.
Qed.

Lemma clean_step_content (line rest : string) :
  numbered (Js.trim line) = Some rest ->
  (0 <? String.length (Js.trimStart rest))%nat = true ->
  clean_step (Js.trimStart rest).
Proof.
  intros Hn Hlen; split.
  - intros E; rewrite E in Hlen; discriminate Hlen.
  - apply (numbered_tail _ _ (trimEnd_trim line)), trimEnd_trimStart in Hn.
    unfold is_trimmed, Js.trim; rewrite trimStart_idem; exact Hn.
Qed.

Lemma comma_list_clean (text : string) : Forall clean_step (comma_list text).
Proof. apply clean_steps_of. Qed.

Lemma page_line_invariant (v : PageVars) (line : string) :
  page_invariant v -> page_invariant (page_line v line).
Proof.
  intros (Hs & Hf & Hr & Hc); unfold page_line; cbv zeta.
  repeat match goal with |- context [if String.prefix ?p ?t then _ else _] =>
           destruct (String.prefix p t) end;
    try (repeat split;
         cbn [p_steps p_formFields p_requiredActions p_confidence];
         first [assumption | apply comma_list_clean | apply clamp_range]).
  destruct (inSteps v); [| repeat split; assumption].
  destruct (numbered (Js.trim line)) as [rest|] eqn:Hn; [| repeat split; assumption].
  destruct (0 <? String.length (Js.trimStart rest))%nat eqn:Hlen; [| repeat split; assumption].
  repeat split; cbn [p_steps p_formFields p_requiredActions p_confidence]; auto.
  apply Forall_app; split; [exact Hs |].
  constructor; [apply (clean_step_content line rest Hn Hlen) | constructor].
Qed.

Lemma fold_page_invariant (lines : list string) (v : PageVars) :
  page_invariant v -> page_invariant (fold_left page_line lines v).
Proof.
  revert v; induction lines as [|l ls IH]; intros v H; cbn [fold_left]; [exact H |].
  apply IH, page_line_invariant, H.
Qed.

Lemma page_line_no_header (v : PageVars) (line : string) :
  String.prefix "STEPS:" (Js.trim line) = false ->
  inSteps v = false -> p_steps v = [] ->
  inSteps (page_line v line) = false /\ p_steps (page_line v line) = [].
Proof.
  intros Hh Hi Hs; unfold page_line; cbv zeta; rewrite Hh, Hi.
  repeat match goal with |- context [if String.prefix ?p ?t then _ else _] =>
           destruct (String.prefix p t) end; cbn; auto.
Qed.

Lemma fold_page_no_header (lines : list string) (v : PageVars) :
  (forall line, In line lines -> String.prefix "STEPS:" (Js.trim line) = false) ->
  inSteps v = false -> p_steps v = [] ->
  p_steps (fold_left page_line lines v) = [].
Proof.
  revert v; induction lines as [|l ls IH]; intros v H Hi Hs; cbn [fold_left]; [exact Hs |].
  destruct (page_line_no_header v l (H l (or_introl eq_refl)) Hi Hs) as [Hi' Hs'].
  apply IH; [intros line Hin; apply H; right; exact Hin | exact Hi' | exact Hs'].
Qed.

(** X8. For every response string, the steps, the form fields and the
    required actions of the page analysis are not empty and have no white
    space around them, and its confidence is [NaN] or a whole number from 1
    to 10. *)
Theorem page_analysis_is_well_formed (response : string) :
  let a := parsePageAnalysisResponse (Some response) in
  Forall clean_step (steps a) /\ Forall clean_step (formFields a)
  /\ Forall clean_step (requiredActions a)
  /\ confidence_ok (page_confidence a).
Proof.
  cbv zeta; cbn [parsePageAnalysisResponse]; cbv zeta.
  cbn [steps formFields requiredActions page_confidence].
  apply (fold_page_invariant (Js.split "010" response) page_init).
  repeat split; try apply List.Forall_nil.
  right; exists 5; split; [reflexivity | lia].
Qed.

(** X9. Steps need their header.  When no line of the response, once
    trimmed, starts with [STEPS:], the page analysis has no steps, however
    many numbered lines the response holds. *)
Theorem steps_need_the_header (response : string) :
  no_steps_header response ->
  steps (parsePageAnalysisResponse (Some response)) = [].
Proof.
  intros H; cbn [parsePageAnalysisResponse]; cbv zeta; cbn [steps].
  apply fold_page_no_header; [exact H | reflexivity | reflexivity].
Qed.

Lemma steps_need_the_header_witness :
  steps (parsePageAnalysisResponse
           (Some ("Steps:" ++ LF ++ "1. Enter your email" ++ LF ++ "2. Submit"))) = [].
Proof.
  apply (steps_need_the_header ("Steps:" ++ LF ++ "1. Enter your email" ++ LF ++ "2. Submit")).
  intros line Hin; vm_compute in Hin.
  repeat destruct Hin as [<- | Hin]; try reflexivity; destruct Hin.
Defined.

(** ** Annotations pile up *)

Lemma strip_prefix_app (p n t : string) :
  no_line_feed p = true ->
  strip_prefix p (String.append n (String "010" t))
  = option_map (fun x => String.append x (String "010" t)) (strip_prefix p n).
Proof.
  revert n; induction p as [|a p IH]; intros n Hp; [destruct n; reflexivity |].
  cbn [no_line_feed all_chars] in Hp; apply andb_prop in Hp; destruct Hp as [Ha Hp].
  destruct n as [|c n]; rewrite ?append_nil, ?append_cons; cbn [strip_prefix].
  - apply negb_true_iff in Ha; rewrite Ha; reflexivity.
  - destruct (Ascii.eqb a c); [apply IH, Hp | reflexivity].
Qed.

Lemma skip_digits_app (n t : string) :
  skip_digits (String.append n (String "010" t))
  = String.append (skip_digits n) (String "010" t).
Proof.
  induction n as [|c n IH]; [reflexivity |].
  rewrite append_cons; cbn [skip_digits]; destruct (is_digit c); [exact IH | reflexivity].
Qed.

Lemma take_line_app (n t : string) :
  take_line (String.append n (String "010" t)) = take_line n.
Proof.
  induction n as [|c n IH]; [reflexivity |].
  rewrite append_cons; cbn [take_line]; rewrite IH; reflexivity.
Qed.

Lemma ai_match_here_app (n t : string) :
  ai_match_here (String.append n (String "010" t)) = ai_match_here n.
Proof.
  unfold ai_match_here; rewrite strip_prefix_app by reflexivity.
  destruct (strip_prefix "AI Analysis (" n) as [[|d r1]|]; cbn [option_map]; try reflexivity.
  rewrite append_cons; destruct (is_digit d); [| reflexivity].
  rewrite skip_digits_app, strip_prefix_app by reflexivity.
  destruct (strip_prefix "/10): " (skip_digits r1)) as [r2|]; cbn [option_map]; [| reflexivity].
  rewrite take_line_app; reflexivity.
Qed.

Lemma ai_match_app (n t : string) :
  ai_match (String.append n (String "010" t))
  = match ai_match n with
    | Some g => Some g
    | None => ai_match (String "010" t)
    end.
Proof.
  induction n as [|c n IH]; [reflexivity |].
  rewrite append_cons; cbn [ai_match]; rewrite <- append_cons, ai_match_here_app.
  destruct (ai_match_here (String c n)); [reflexivity | exact IH].
Qed.

Lemma prefix_app (p n t : string) :
  String.prefix p n = true -> String.prefix p (String.append n t) = true.
Proof.
  revert n; induction p as [|a p IH]; intros n H.
  { destruct (String.append n t); reflexivity. }
  destruct n as [|c n]; [discriminate H |].
  rewrite append_cons; cbn [String.prefix] in *.
  destruct (ascii_dec a c); [apply IH, H | discriminate H].
Qed.

Lemma includes_app_l (n t p : string) :
  Js.includes n p = true -> Js.includes (String.append n t) p = true.
Proof.
  induction n as [|c n IH]; intros H.
  - cbn [Js.includes] in H; rewrite orb_false_r in H.
    destruct p; [destruct t; reflexivity | discriminate H].
  - rewrite append_cons; cbn [Js.includes] in *.
    apply orb_prop in H; destruct H as [H | H].
    + rewrite <- append_cons, (prefix_app _ _ _ H); reflexivity.
    + rewrite (IH H); apply orb_true_r.
Qed.

Lemma strip_prefix_prefix (p s : string) :
  strip_prefix p s <> None -> String.prefix p s = true.
Proof.
  revert s; induction p as [|a p IH]; intros s H; [destruct s; reflexivity |].
  destruct s as [|c s]; cbn [strip_prefix String.prefix] in *; [contradiction |].
  destruct (Ascii.eqb_spec a c) as [->|]; [| contradiction].
  destruct (ascii_dec c c); [apply IH, H | contradiction].
Qed.

Lemma ai_match_here_marker (s g : string) :
  ai_match_here s = Some g -> String.prefix "AI Analysis" s = true /\ g <> EmptyString.
Proof.
  unfold ai_match_here; intros H.
  destruct (strip_prefix "AI Analysis (" s) as [[|d r1]|] eqn:E; try discriminate H.
  split.
  - assert (Hp : String.prefix "AI Analysis (" s = true)
      by (apply strip_prefix_prefix; rewrite E; discriminate).
    apply (prefix_shorter "AI Analysis" " (") in Hp; exact Hp.
  - destruct (is_digit d); [| discriminate H].
    destruct (strip_prefix "/10): " (skip_digits r1)); [| discriminate H].
    destruct (take_line s0); [discriminate H | injection H as <-; discriminate].
Qed.

Lemma ai_match_marker (s g : string) :
  ai_match s = Some g -> Js.includes s "AI Analysis" = true /\ g <> EmptyString.
Proof.
  induction s as [|c s IH]; cbn [ai_match Js.includes]; intros H.
  - destruct (ai_match_here "") eqn:E; [| discriminate H].
    injection H as ->; apply ai_match_here_marker in E; destruct E as [E _]; discriminate E.
  - destruct (ai_match_here (String c s)) eqn:E.
    + injection H as ->; apply ai_match_here_marker in E; destruct E as [-> Hg].
      split; [reflexivity | exact Hg].
    + destruct (IH H) as [Hi Hg]; rewrite Hi; split; [apply orb_true_r | exact Hg].
Qed.

(** ** What a later attempt replays *)

Lemma lacks_app (c : ascii) (a b : string) :
  lacks c (String.append a b) = lacks c a && lacks c b.
Proof.
  unfold lacks; induction a as [|x a IH]; [reflexivity |].
  rewrite append_cons; cbn [all_chars]; rewrite IH, andb_assoc; reflexivity.
Qed.














(** X10. The oldest instruction wins.  Once the notes of a broker hold an
    annotation that [applySpecialInstructions] replays, appending the
    annotation of a later analysis changes nothing of what is replayed: the
    updated broker gets the same one action, with the instruction of the
    first annotation. *)
Theorem first_annotation_is_replayed {L} env (b : Broker) (a : FailureAnalysis) (g : string)
    (s : World * L) :
  ai_match (notes b) = Some g ->
  let updated := set_notes (String.append (notes b) (annotation a)) b in
  ai_match (notes updated) = Some g
  /\ applySpecialInstructions env updated s = act env (ASpecial g) s
  /\ applySpecialInstructions env updated s = applySpecialInstructions env b s.
Proof.
  intros Hm; cbv zeta; cbn [notes set_notes].
  destruct (ai_match_marker _ _ Hm) as [Hi Hg].
  assert (Hm' : ai_match (String.append (notes b) (annotation a)) = Some g).
  { unfold annotation, LF; rewrite append_cons, append_nil, ai_match_app, Hm; reflexivity. }
  assert (Hold : applySpecialInstructions (L := L) env b s = act env (ASpecial g) s).
  { unfold applySpecialInstructions, has_instructions; rewrite Hi, Hm.
    destruct (notes b) eqn:En; [discriminate Hi |].
    destruct g; [contradiction | reflexivity]. }
  split; [exact Hm' |].
  assert (Hnew : applySpecialInstructions (L := L) env
                   (set_notes (String.append (notes b) (annotation a)) b) s
                 = act env (ASpecial g) s).
  { unfold applySpecialInstructions, has_instructions; cbn [notes set_notes].
    rewrite (includes_app_l _ _ _ Hi), Hm'.
    destruct (String.append (notes b) (annotation a)) eqn:En.
    - destruct (notes b); [discriminate Hi | rewrite append_cons in En; discriminate En].
    - destruct g; [contradiction | reflexivity]. }
  split; [exact Hnew | rewrite Hnew, Hold; reflexivity].
Qed.

Lemma first_annotation_is_replayed_witness :
  let a := parseAnalysisResponse (Some "Fix: Use the phone form instead") in
  let updated := set_notes (String.append (notes annotated_acme) (annotation a)) annotated_acme in
  ai_match (notes updated) = Some "Click the 'I agree to terms' checkbox before continuing"
  /\ applySpecialInstructions quiet_env updated (demo_world, tt)
     = act quiet_env (ASpecial "Click the 'I agree to terms' checkbox before continuing")
         (demo_world, tt)
  /\ applySpecialInstructions quiet_env updated (demo_world, tt)
     = applySpecialInstructions quiet_env annotated_acme (demo_world, tt).
Proof.
  apply (first_annotation_is_replayed quiet_env annotated_acme
           (parseAnalysisResponse (Some "Fix: Use the phone form instead"))
           "Click the 'I agree to terms' checkbox before continuing" (demo_world, tt)).
  vm_compute; reflexivity.
Defined.

(** ** The catalog update *)

Lemma insert_keeps_names (bs : list Broker) (i : nat) (old updated : Broker) :
  bs !! i = Some old -> name old = name updated ->
  List.map name (<[i := updated]> bs) = List.map name bs.
Proof.
  revert i; induction bs as [|b rest IH]; intros [|i] Hl Hn; simpl in Hl |- *;
    try discriminate.
  - injection Hl as ->; rewrite Hn; reflexivity.
  - f_equal; apply (IH i Hl Hn).
Qed.

(** X11. When the stored catalog holds the name of the updated broker,
    [saveUpdatedBroker] asks to write the catalog with the first entry of
    that name replaced, whatever the write then answers: the entries before
    it have other names, every other entry is as it was, and the names of
    the catalog and their order are unchanged. *)
Theorem catalog_update_replaces_first_match {L} json env (updatedBroker : Broker)
    (s : World * L) (data : string) (brokers : list Broker) :
  files (fst s) !! "brokers.json" = Some data ->
  parse_brokers json data = Some brokers ->
  In (name updatedBroker) (List.map name brokers) ->
  exists i old,
    brokers !! i = Some old /\ name old = name updatedBroker
    /\ (forall j b', (j < i)%nat -> brokers !! j = Some b' -> name b' <> name updatedBroker)
    /\ let brokers' := <[i := updatedBroker]> brokers in
       trace (fst (fst (saveUpdatedBroker json env updatedBroker s)))
       = (trace (fst s) ++ [CWriteFile "brokers.json" (stringify_brokers json brokers')])%list
       /\ List.map name brokers' = List.map name brokers
       /\ brokers' !! i = Some updatedBroker
       /\ forall j, j <> i -> brokers' !! j = brokers !! j.
Proof.
  intros Hfile Hparse Hin.
  destruct (findIndex_found _ _ Hin) as [i Hi].
  destruct (findIndex_first _ _ _ Hi) as [(old & Hold & Hname) Hfirst].
  exists i, old; split; [exact Hold |]; split; [exact Hname |]; split; [exact Hfirst |].
  cbv zeta; split; [| split; [| split]].
  - unfold saveUpdatedBroker, try_catch, bind, readFileSync, writeFileSync, ret.
    rewrite Hfile, Hparse, Hi; cbv zeta.
    destruct (answer env (trace (fst s)) _); reflexivity.
  - apply (insert_keeps_names _ _ old); assumption.
  - apply list_lookup_insert_eq, (lookup_lt_Some _ _ _ Hold).
  - intros j Hj; apply list_lookup_insert_ne; auto.
Qed.

Lemma catalog_update_replaces_first_match_witness :
  exists i old,
    [spokeo] !! i = Some old /\ name old = name (set_notes "rewritten" spokeo)
    /\ (forall j b', (j < i)%nat -> [spokeo] !! j = Some b' ->
                     name b' <> name (set_notes "rewritten" spokeo))
    /\ let brokers' := <[i := set_notes "rewritten" spokeo]> [spokeo] in
       trace (fst (fst (saveUpdatedBroker demo_json quiet_env (set_notes "rewritten" spokeo)
                          (demo_world, tt))))
       = (trace (fst (demo_world, tt))
            ++ [CWriteFile "brokers.json" (stringify_brokers demo_json brokers')])%list
       /\ List.map name brokers' = List.map name [spokeo]
       /\ brokers' !! i = Some (set_notes "rewritten" spokeo)
       /\ forall j, j <> i -> brokers' !! j = [spokeo] !! j.
Proof.
  apply (catalog_update_replaces_first_match demo_json quiet_env (set_notes "rewritten" spokeo)
           (demo_world, tt) "CATALOG" [spokeo]).
  - reflexivity.
  - reflexivity.
  - left; reflexivity.
Defined.

(** X12. A failed analysis is not stored.  When the screenshot cannot be
    read, or the completion fails or is [null], [analyzeFailureScreenshot]
    still returns, with confidence 0, and [updateBrokerWithAnalysis] then
    returns the broker as it was and leaves every file as it was. *)
Theorem failed_analysis_is_not_stored {L} json env p b e (s : World * L) :
  analysis_fails env p b e s ->
  let run := (analysis <- analyzeFailureScreenshot env p b e ;;
              updateBrokerWithAnalysis json env b analysis) s in
  (exists a, snd (analyzeFailureScreenshot env p b e s) = Ok a /\ confidence a = Js.Num 0)
  /\ snd run = Ok b
  /\ files (fst (fst run)) = files (fst s).
Proof.
  unfold analysis_fails; intros H; cbv zeta.
  unfold analyzeFailureScreenshot, callOpenAIWithVision, try_catch, bind, readFileSync, call, ret.
  destruct (files (fst s) !! p) as [image|]; cbn [fst snd].
  - destruct (answer env (trace (fst s)) (CVision b e image)) as [[r|]|x]; [destruct H | |];
      cbn [fst snd]; (split; [eexists; split; reflexivity |]); split; reflexivity.
  - split; [eexists; split; reflexivity |]; split; reflexivity.
Qed.

Lemma failed_analysis_is_not_stored_witness :
  let run := (analysis <- analyzeFailureScreenshot quiet_env "screenshots/failure-Spokeo.png"
                            spokeo "Unknown error" ;;
              updateBrokerWithAnalysis demo_json quiet_env spokeo analysis) (demo_world, tt) in
  (exists a, snd (analyzeFailureScreenshot quiet_env "screenshots/failure-Spokeo.png"
                    spokeo "Unknown error" (demo_world, tt)) = Ok a
             /\ confidence a = Js.Num 0)
  /\ snd run = Ok spokeo
  /\ files (fst (fst run)) = files (fst (demo_world, tt)).
Proof.
  apply (failed_analysis_is_not_stored demo_json quiet_env "screenshots/failure-Spokeo.png"
           spokeo "Unknown error" (demo_world, tt)).
  vm_compute; exact I.
Defined.

(** ** Screenshot file names *)

Lemma sanitize_char_safe (c : ascii) : safe_char (sanitize_char c) = true.
Proof. unfold sanitize_char; destruct (is_alpha c || is_digit c || Ascii.eqb c "_" || Ascii.eqb c "-") eqn:E; [exact E | reflexivity]. Qed.

Lemma sanitize_char_fixed (c : ascii) : safe_char c = true -> sanitize_char c = c.
Proof. unfold sanitize_char, safe_char; intros ->; reflexivity. Qed.

(** X13. The broker name as it enters the path of a screenshot holds only
    letters, digits, underscore and minus, so no separator and no dot; it is
    as long as the name; replacing twice is replacing once; and exactly the
    names made of such characters are left as they are. *)
Theorem sanitize_is_safe (s : string) :
  all_chars safe_char (sanitize s) = true
  /\ String.length (sanitize s) = String.length s
  /\ sanitize (sanitize s) = sanitize s
  /\ (all_chars safe_char s = true <-> sanitize s = s).
Proof.
  induction s as [|c r (IH1 & IH2 & IH3 & IH4)]; [repeat split; reflexivity |].
  cbn [sanitize all_chars String.length].
  rewrite sanitize_char_safe, IH1, IH2, IH3, (sanitize_char_fixed _ (sanitize_char_safe c)).
  repeat split.
  - intros H; apply andb_prop in H; destruct H as [Hc Hr].
    rewrite (sanitize_char_fixed _ Hc), (proj1 IH4 Hr); reflexivity.
  - intros [= Hc Hr]; rewrite <- Hc, sanitize_char_safe; apply IH4, Hr.
Qed.

(** ** Rules for [obeys] *)

Lemma each_call_nil P h : each_call P h [].
Proof. intros pre c post H; destruct pre; discriminate. Qed.

Lemma each_call_one P h c : P h c -> each_call P h [c].
Proof.
  intros H pre c' post E; destruct pre as [|x pre]; cbn in E.
  - injection E as <- _; rewrite app_nil_r; exact H.
  - injection E as _ E; destruct pre; discriminate.
Qed.

Lemma each_call_app P h c1 c2 :
  each_call P h c1 -> each_call P (h ++ c1)%list c2 -> each_call P h (c1 ++ c2)%list.
Proof.
  intros H1 H2 pre c post E.
  apply app_eq_app in E; destruct E as (l & [[E1 E2] | [E1 E2]]).
  - destruct l as [|x l]; cbn in E2.
    + rewrite app_nil_r in E1; subst c1.
      specialize (H2 [] c post (eq_sym E2)); rewrite app_nil_r in H2; exact H2.
    + injection E2 as <- ->; apply (H1 pre c l); exact E1.
  - subst pre; rewrite app_assoc; apply (H2 l c post); exact E2.
Qed.

Lemma each_call_cons P h c rest :
  P h c -> each_call P (h ++ [c])%list rest -> each_call P h (c :: rest).
Proof. intros Hc Hr; apply (each_call_app P h [c] rest); [apply each_call_one, Hc | exact Hr]. Qed.

Lemma each_call_Forall (Q : Call -> Prop) h calls :
  each_call (fun _ c => Q c) h calls -> Forall Q calls.
Proof.
  intros H; apply List.Forall_forall; intros c Hc.
  apply in_split in Hc; destruct Hc as (pre & post & ->); apply (H pre c post eq_refl).
Qed.

Lemma unwritten_app path c1 c2 : unwritten path (c1 ++ c2)%list -> unwritten path c1 /\ unwritten path c2.
Proof. intros H; split; intros d Hd; apply (H d), in_or_app; auto. Qed.

Lemma obeys_pure {L A} P (m : M L A) :
  (forall s, fst (m s) = s) -> obeys P m.
Proof.
  intros H s; exists []; rewrite H, app_nil_r; split; [reflexivity |].
  split; [apply each_call_nil | reflexivity].
Qed.

Lemma obeys_ret {L A} P (a : A) : obeys P (ret (L := L) a).
Proof. apply obeys_pure; reflexivity. Qed.

Lemma obeys_throw {L A} P (e : Exn) : obeys P (throw (L := L) (A := A) e).
Proof. apply obeys_pure; reflexivity. Qed.

Lemma obeys_get {L} P : obeys P (get (L := L)).
Proof. apply obeys_pure; reflexivity. Qed.

Lemma obeys_modify {L} P (f : L -> L) : obeys P (modify f).
Proof.
  intros s; exists []; cbn; rewrite app_nil_r; split; [reflexivity |].
  split; [apply each_call_nil | reflexivity].
Qed.

Lemma obeys_now {L} P env : obeys P (now (L := L) env).
Proof. apply obeys_pure; reflexivity. Qed.

Lemma obeys_existsSync {L} P path : obeys P (existsSync (L := L) path).
Proof. apply obeys_pure; reflexivity. Qed.

Lemma obeys_readFileSync {L} P path : obeys P (readFileSync (L := L) path).
Proof.
  apply obeys_pure; intros s; unfold readFileSync; destruct (files (fst s) !! path); reflexivity.
Qed.

Lemma obeys_call {L} (P : list Call -> Call -> Prop) env (c : Call) :
  (forall h, P h c) -> obeys P (call (L := L) env c).
Proof.
  intros H s; apply outcome_call; intros r; split; [apply each_call_one, H | reflexivity].
Qed.

Lemma obeys_writeFileSync {L} (P : list Call -> Call -> Prop) env path data :
  (forall h, P h (CWriteFile path data)) -> obeys P (writeFileSync (L := L) env path data).
Proof.
  intros H s; exists [CWriteFile path data]; unfold writeFileSync; cbv zeta.
  destruct (answer env (trace (fst s)) (CWriteFile path data));
    (split; [reflexivity |]); (split; [apply each_call_one, H |]);
    intros p Hp; cbn [fst files log]; [| reflexivity].
  apply lookup_insert_ne; intros ->; apply (Hp data); left; reflexivity.
Qed.

Lemma obeys_mkdirSync {L} (P : list Call -> Call -> Prop) env path :
  (forall h, P h (CMkdir path)) -> obeys P (mkdirSync (L := L) env path).
Proof.
  intros H s; exists [CMkdir path]; unfold mkdirSync; cbv zeta.
  destruct (answer env (trace (fst s)) (CMkdir path));
    (split; [reflexivity |]); (split; [apply each_call_one, H | reflexivity]).
Qed.

Lemma obeys_bind {L A B} P (m : M L A) (k : A -> M L B) :
  obeys P m -> (forall a, obeys P (k a)) -> obeys P (bind m k).
Proof.
  intros Hm Hk s; apply outcome_bind.
  destruct (Hm s) as (c1 & Ht1 & Hc1 & Hf1); exists c1; split; [exact Ht1 |].
  destruct (snd (m s)) as [a|e]; [| split; assumption].
  destruct (Hk a (fst (m s))) as (c2 & Ht2 & Hc2 & Hf2); exists c2; split; [exact Ht2 |].
  split.
  - apply each_call_app; [exact Hc1 | rewrite <- Ht1; exact Hc2].
  - intros p Hp; apply unwritten_app in Hp; destruct Hp as [Hp1 Hp2].
    rewrite (Hf2 p Hp2); apply Hf1, Hp1.
Qed.

Lemma obeys_try_catch {L A} P (m : M L A) (h : Exn -> M L A) :
  obeys P m -> (forall e, obeys P (h e)) -> obeys P (try_catch m h).
Proof.
  intros Hm Hh s; apply outcome_try_catch.
  destruct (Hm s) as (c1 & Ht1 & Hc1 & Hf1); exists c1; split; [exact Ht1 |].
  destruct (snd (m s)) as [a|e]; [split; assumption |].
  destruct (Hh e (fst (m s))) as (c2 & Ht2 & Hc2 & Hf2); exists c2; split; [exact Ht2 |].
  split.
  - apply each_call_app; [exact Hc1 | rewrite <- Ht1; exact Hc2].
  - intros p Hp; apply unwritten_app in Hp; destruct Hp as [Hp1 Hp2].
    rewrite (Hf2 p Hp2); apply Hf1, Hp1.
Qed.

Lemma obeys_with_locals {L L' A} P (l0 : L') (m : M L' A) :
  obeys P m -> obeys P (with_locals (L := L) l0 m).
Proof.
  intros Hm s; apply outcome_with_locals.
  apply (outcome_weaken _ _ _ _ (Hm (fst s, l0))); intros c s1 r H; exact H.
Qed.

(** Walk through a computation: [known] closes the parts that have a lemma,
    [leaf] the condition on one call. *)

Ltac obeys_walk known leaf :=
  repeat first
    [ known
    | apply obeys_bind; [| intros ?]
    | apply obeys_try_catch; [| intros ?]
    | apply obeys_with_locals
    | apply obeys_ret | apply obeys_throw | apply obeys_get | apply obeys_modify
    | apply obeys_now | apply obeys_existsSync | apply obeys_readFileSync
    | apply obeys_call; solve [leaf]
    | apply obeys_writeFileSync; solve [leaf]
    | apply obeys_mkdirSync; solve [leaf]
    | progress cbv zeta
    | match goal with
      | |- obeys _ (if ?b then _ else _) => destruct b
      | |- obeys _ (match ?x with _ => _ end) => destruct x
      end ].

Ltac unfold_attempt :=
  unfold removeFromBroker, try_block, catch_block, fill_submit_verify, record_evidence,
    analyze_failure, take_screenshot, analyzeFailureScreenshot, updateBrokerWithAnalysis,
    saveUpdatedBroker, checkIfNeedsSearch, performSearch, findAndClickListing,
    fillRemovalForm, handleCheckboxesAndTerms, applySpecialInstructions, verifySubmission,
    callOpenAIWithVision, goto, waitForLoadState, waitForTimeout, extract, act,
    page_screenshot.

(** ** The submit button *)

Ltac close_trace :=
  cbn [fst snd log trace]; eexists;
  (split; [rewrite <- ?app_assoc; reflexivity |]); (split; [| reflexivity]).

Ltac other_calls :=
  repeat (apply each_call_cons; [let H := fresh in intros H; discriminate H |]);
  try apply each_call_nil.

Lemma obeys_submitRemovalForm {L} env :
  obeys (click_after_ready env) (submitRemovalForm (L := L) env).
Proof.
  intros s; unfold outcome, submitRemovalForm, clickSubmit; run_unfold.
  destruct (answer env (trace (fst s)) (CAct AFillRequired)) as [[]|e0] eqn:E0;
    [| close_trace; other_calls].
  cbn [fst snd log trace].
  destruct (answer env (trace (fst s) ++ [CAct AFillRequired]) (CExtract PFormReady))
    as [fc|e1] eqn:E1; [| close_trace; other_calls].
  cbn [fst snd log trace].
  destruct (formReady fc) eqn:Hready; cbn [negb].
  - destruct (answer env _ (CAct AClickSubmit)) as [[]|e2]; close_trace; other_calls.
    all: apply each_call_cons;
      [intros _; eexists _, _; split; [reflexivity |]; cbn [says_ready]; rewrite E1; exact Hready |].
    all: other_calls.
  - destruct (0 <? List.length (uncheckedCheckboxes fc))%nat; [| close_trace; other_calls].
    destruct (answer env _ (CAct ACheckBoxes)) as [[]|e2]; [| close_trace; other_calls].
    cbn [fst snd log trace].
    destruct (answer env _ (CWaitForTimeout 1000)) as [[]|e3]; [| close_trace; other_calls].
    cbn [fst snd log trace].
    destruct (answer env _ (CExtract PRecheck)) as [rc|e4] eqn:E4; [| close_trace; other_calls].
    cbn [fst snd log trace].
    destruct (recheck_formReady rc) eqn:Hre; cbn [negb]; [| close_trace; other_calls].
    destruct (answer env _ (CAct AClickSubmit)) as [[]|e5]; close_trace; other_calls.
    all: apply each_call_cons;
      [intros _; eexists _, _; split; [reflexivity |]; cbn [says_ready]; rewrite E4; exact Hre |].
    all: other_calls.
Qed.

Lemma obeys_removeFromBroker_click {L} json env engine b u :
  obeys (click_after_ready env) (removeFromBroker (L := L) json env engine b u).
Proof.
  unfold_attempt.
  obeys_walk ltac:(apply obeys_submitRemovalForm)
             ltac:(let H := fresh in intros ? H; discriminate H).
Qed.

(** X14. No submit without a ready form.  In every attempt, whatever the
    environment answers, a click on the submit button comes directly after
    a readiness probe of [submitRemovalForm] (the first check, or the check
    after the checkbox pass) that answered that the form is ready. *)
Theorem submit_click_follows_ready {L} json env engine b u (s : World * L) pre post :
  trace (fst (fst (removeFromBroker json env engine b u s)))
  = (pre ++ CAct AClickSubmit :: post)%list ->
  (List.length (trace (fst s)) <= List.length pre)%nat ->
  exists pre' q, pre = (pre' ++ [q])%list /\ says_ready env pre' q = true.
Proof.
  intros Htrace Hlen.
  destruct (obeys_removeFromBroker_click json env engine b u s) as (calls & Ht & Hc & _).
  rewrite Ht in Htrace.
  apply app_eq_app in Htrace; destruct Htrace as (l & [[E1 E2] | [E1 E2]]).
  - assert (l = []) as ->.
    { apply (f_equal (@List.length Call)) in E1; rewrite List.length_app in E1.
      destruct l; [reflexivity | cbn in E1; lia]. }
    rewrite app_nil_r in E1; subst pre; cbn in E2.
    specialize (Hc [] _ _ (eq_sym E2) eq_refl); rewrite app_nil_r in Hc; exact Hc.
  - subst pre; apply (Hc l _ _ E2 eq_refl).
Qed.

Lemma submit_click_follows_ready_witness :
  exists pre' q,
    calls_before_click = (pre' ++ [q])%list /\ says_ready quiet_env pre' q = true.
Proof.
  apply (submit_click_follows_ready demo_json quiet_env {| stagehand := true |} acme jane
           (demo_world, tt) calls_before_click calls_after_click).
  - vm_compute; reflexivity.
  - cbn; lia.
Defined.

(** ** The footprint of an attempt *)

Lemma obeys_removeFromBroker_footprint {L} json env engine b u :
  obeys (fun _ c => in_footprint b c = true) (removeFromBroker (L := L) json env engine b u).
Proof.
  unfold_attempt; unfold submitRemovalForm, clickSubmit, act, extract, waitForTimeout,
    waitForLoadState.
  obeys_walk ltac:(fail)
             ltac:(intros; cbn [in_footprint];
                   repeat match goal with |- context [success ?r] => destruct (success r) end;
                   rewrite ?String.eqb_refl, ?orb_true_r; reflexivity).
Qed.

(** X15. The footprint of an attempt.  Whatever the environment answers,
    an attempt navigates only to the opt-out address of its broker, creates
    no directory but [screenshots], and writes no file but its two
    screenshot paths and [brokers.json]; every other file is as it was. *)
Theorem attempt_footprint {L} json env engine b u (s : World * L) :
  let run := removeFromBroker json env engine b u s in
  (exists calls,
      trace (fst (fst run)) = (trace (fst s) ++ calls)%list
      /\ Forall (fun c => in_footprint b c = true) calls)
  /\ forall path,
       path <> screenshot_path true b -> path <> screenshot_path false b ->
       path <> "brokers.json" ->
       files (fst (fst run)) !! path = files (fst s) !! path.
Proof.
  cbv zeta.
  destruct (obeys_removeFromBroker_footprint json env engine b u s) as (calls & Ht & Hc & Hf).
  apply each_call_Forall in Hc.
  split; [exists calls; split; assumption |].
  intros path H1 H2 H3; apply Hf; intros data Hin.
  rewrite List.Forall_forall in Hc; specialize (Hc _ Hin); cbn [in_footprint] in Hc.
  apply orb_prop in Hc; destruct Hc as [Hc | Hc]; [apply orb_prop in Hc; destruct Hc as [Hc | Hc] |];
    apply String.eqb_eq in Hc; contradiction.
Qed.

(** ** The shapes of a result; the catalog guard *)

Lemma quiet_intro {L A} (m : M L A) :
  silent m -> obeys (fun _ c => is_write c = false) m -> quiet m.
Proof.
  intros Hs Ho s.
  destruct (Hs s) as (c1 & Ht1 & _ & Hl); destruct (Ho s) as (c2 & _ & Hc & Hf).
  exists c1; split; [exact Ht1 |]; split; [exact Hl |].
  apply map_eq; intros p; apply Hf; intros d Hin.
  apply each_call_Forall in Hc; rewrite List.Forall_forall in Hc.
  specialize (Hc _ Hin); discriminate Hc.
Qed.

Lemma outcome_quiet {L A} (m : M L A) (s : World * L) Q :
  quiet m ->
  (forall calls w' r, files w' = files (fst s) -> Q calls (w', snd s) r) ->
  outcome m s Q.
Proof.
  intros Hm H; apply (outcome_weaken _ _ _ _ (Hm s)).
  intros calls [w' l'] r [Hl Hf]; cbn [fst snd] in *; subst l'; apply H, Hf.
Qed.

Ltac no_write_walk := obeys_walk ltac:(fail) ltac:(intros; reflexivity).

Lemma quiet_goto {L} env t : quiet (goto (L := L) env t).
Proof. apply quiet_intro; [apply silent_call; reflexivity | unfold goto; no_write_walk]. Qed.

Lemma quiet_waitForLoadState {L} env : quiet (waitForLoadState (L := L) env).
Proof.
  apply quiet_intro; [apply silent_call; reflexivity | unfold waitForLoadState; no_write_walk].
Qed.

Lemma quiet_checkIfNeedsSearch {L} env b : quiet (checkIfNeedsSearch (L := L) env b).
Proof.
  apply quiet_intro; [apply silent_checkIfNeedsSearch |].
  unfold checkIfNeedsSearch, extract; no_write_walk.
Qed.

Lemma quiet_performSearch {L} env u : quiet (performSearch (L := L) env u).
Proof.
  apply quiet_intro; [apply silent_performSearch | unfold performSearch, act; no_write_walk].
Qed.

Lemma quiet_findAndClickListing {L} env u : quiet (findAndClickListing (L := L) env u).
Proof.
  apply quiet_intro; [apply silent_findAndClickListing |].
  unfold findAndClickListing, extract; no_write_walk.
Qed.

Lemma quiet_stored_instructions {L} env b :
  quiet (if has_instructions b then applySpecialInstructions (L := L) env b else ret tt).
Proof.
  apply quiet_intro.
  - destruct (has_instructions b); [apply silent_applySpecialInstructions | apply silent_ret].
  - unfold applySpecialInstructions, act; no_write_walk.
Qed.

Lemma quiet_fillRemovalForm {L} env u : quiet (fillRemovalForm (L := L) env u).
Proof.
  apply quiet_intro; [apply silent_fillRemovalForm |].
  unfold fillRemovalForm, handleCheckboxesAndTerms, extract, act, waitForTimeout; no_write_walk.
Qed.

Lemma quiet_submitRemovalForm {L} env : quiet (submitRemovalForm (L := L) env).
Proof.
  apply quiet_intro; [apply silent_submitRemovalForm |].
  unfold submitRemovalForm, clickSubmit, extract, act, waitForTimeout, waitForLoadState;
    no_write_walk.
Qed.

Lemma quiet_verifySubmission {L} env : quiet (verifySubmission (L := L) env).
Proof.
  apply quiet_intro; [apply silent_verifySubmission |].
  unfold verifySubmission, extract, waitForTimeout; no_write_walk.
Qed.

Lemma quiet_analyzeFailureScreenshot {L} env p b e :
  quiet (analyzeFailureScreenshot (L := L) env p b e).
Proof.
  apply quiet_intro; [apply silent_analyzeFailureScreenshot |].
  unfold analyzeFailureScreenshot, callOpenAIWithVision; no_write_walk.
Qed.

Lemma quiet_ensure_dir {L} env (there : bool) :
  quiet (if negb there then mkdirSync (L := L) env "screenshots" else ret tt).
Proof.
  apply quiet_intro.
  - destruct there; cbn [negb]; [apply silent_ret | apply silent_mkdirSync].
  - no_write_walk.
Qed.

Lemma analyzeFailureScreenshot_returns {L} env p b e (s : World * L) :
  exists a, snd (analyzeFailureScreenshot env p b e s) = Ok a.
Proof.
  unfold analyzeFailureScreenshot, callOpenAIWithVision, try_catch, bind, readFileSync, call, ret.
  destruct (files (fst s) !! p); cbn [fst snd]; [| eauto].
  match goal with |- context [answer env ?h ?c] => destruct (answer env h c) end; eauto.
Qed.

Lemma analyzeFailureScreenshot_outcome {L} env p b e (s : World * L) :
  outcome (analyzeFailureScreenshot env p b e) s (fun _ s' r =>
    (exists a, r = Ok a) /\ snd s' = snd s /\ files (fst s') = files (fst s)).
Proof.
  destruct (quiet_analyzeFailureScreenshot env p b e s) as (calls & Ht & Hl & Hf).
  exists calls; split; [exact Ht |]; split; [| split; assumption].
  apply analyzeFailureScreenshot_returns.
Qed.

Lemma screenshot_path_not_catalog ok b : screenshot_path ok b <> "brokers.json".
Proof. unfold screenshot_path; intros H; cbv in H; discriminate H. Qed.

Lemma take_screenshot_files env path (s : World * RemovalResult) :
  path <> "brokers.json" -> kept (fst s) (fst (fst (take_screenshot env path s))).
Proof.
  intros Hp.
  assert (Ho : obeys (fun _ c => forall d, c <> CWriteFile "brokers.json" d)
                 (take_screenshot env path)).
  { unfold take_screenshot, page_screenshot.
    obeys_walk ltac:(fail) ltac:(intros; try discriminate; intros [=]; congruence). }
  destruct (Ho s) as (calls & _ & Hc & Hf); apply Hf.
  intros d Hin; apply each_call_Forall in Hc; rewrite List.Forall_forall in Hc.
  apply (Hc _ Hin d); reflexivity.
Qed.

Lemma take_screenshot_catalog env path (s : World * RemovalResult) :
  path <> "brokers.json" ->
  outcome (take_screenshot env path) s (fun _ s' r =>
    r = Ok tt
    /\ (snd s' = set_screenshot path (snd s) \/ snd s' = set_screenshot "failed_to_save" (snd s))
    /\ kept (fst s) (fst s')).
Proof.
  intros Hp.
  destruct (take_screenshot_outcome env path s) as (calls & Ht & Hr & _ & Hl).
  exists calls; split; [exact Ht |]; split; [exact Hr | split; [exact Hl |]].
  apply take_screenshot_files, Hp.
Qed.

Lemma updateBrokerWithAnalysis_outcome {L} json env b a (s : World * L) :
  outcome (updateBrokerWithAnalysis json env b a) s (fun _ s' r =>
    (exists b', r = Ok b') /\ snd s' = snd s /\ (kept (fst s) (fst s') \/ confident a)).
Proof.
  destruct (silent_updateBrokerWithAnalysis json env b a s) as (calls & Ht & _ & Hl).
  exists calls; split; [exact Ht |]; split; [| split; [exact Hl |]].
  - unfold updateBrokerWithAnalysis.
    destruct (Js.ge (confidence a) (Js.Num 6)); [| cbn; eauto].
    unfold bind.
    pose proof (saveUpdatedBroker_returns json env
                  (set_notes (notes b ++ annotation a) b) s) as Hret.
    destruct (saveUpdatedBroker json env _ s) as [s' r]; cbn [snd] in Hret; subst r.
    cbn; eauto.
  - unfold confident, updateBrokerWithAnalysis.
    destruct (Js.ge (confidence a) (Js.Num 6)); [right; reflexivity | left; reflexivity].
Qed.

Lemma analyze_failure_catalog json env b (s : World * RemovalResult) :
  outcome (analyze_failure json env b) s (fun _ s' r =>
    r = Ok tt
    /\ ((snd s' = snd s /\ kept (fst s) (fst s'))
        \/ exists a shot,
             screenshot (snd s) = Some shot /\ shot <> "failed_to_save"
             /\ snd s' = set_aiAnalysis a (snd s)
             /\ (kept (fst s) (fst s') \/ confident a))).
Proof.
  unfold analyze_failure.
  apply outcome_bind, outcome_get; cbv beta iota.
  destruct (screenshot (snd s)) as [shot|] eqn:Hshot;
    [destruct (Js.truthy shot && negb (String.eqb shot "failed_to_save")) eqn:Hok |].
  2,3: apply outcome_ret; split; [reflexivity | left; split; reflexivity].
  assert (Hne : shot <> "failed_to_save").
  { apply andb_prop in Hok; destruct Hok as [_ Hok]; apply negb_true_iff in Hok.
    apply String.eqb_neq, Hok. }
  apply outcome_try_catch, outcome_bind.
  apply (outcome_weaken _ _ _ _ (analyzeFailureScreenshot_outcome env shot b _ s)).
  intros c1 [w1 l1] r1 ((a & ->) & Hl1 & Hf1); cbn [fst snd] in Hl1, Hf1; subst l1.
  apply outcome_bind.
  apply (outcome_weaken _ _ _ _ (updateBrokerWithAnalysis_outcome json env b a _)).
  intros c2 [w2 l2] r2 ((b' & ->) & Hl2 & Hk); cbn [fst snd] in Hl2, Hk; subst l2.
  apply outcome_modify; cbn [fst snd]; split; [reflexivity | right].
  exists a, shot; repeat split; auto.
  destruct Hk as [Hk | Hk]; [left | right; exact Hk].
  unfold kept in *; rewrite Hk, Hf1; reflexivity.
Qed.

Lemma record_evidence_catalog json env b (s : World * RemovalResult) :
  outcome (record_evidence json env b) s (fun _ s' r =>
    r = Ok tt
    /\ same_verdict (snd s) (snd s') /\ timestamp (snd s') = timestamp (snd s)
    /\ evidence_taken b (snd s')
    /\ ((aiAnalysis (snd s') = aiAnalysis (snd s) /\ kept (fst s) (fst s'))
        \/ exists a,
             aiAnalysis (snd s') = Some a /\ success (snd s) = false
             /\ screenshot (snd s') = Some (screenshot_path false b)
             /\ (kept (fst s) (fst s') \/ confident a))).
Proof.
  unfold record_evidence.
  apply outcome_bind, outcome_get; cbv beta iota.
  apply outcome_bind.
  apply (outcome_weaken _ _ _ _ (take_screenshot_catalog env _ s (screenshot_path_not_catalog _ _))).
  intros c1 [w1 l1] r1 (-> & Hl1 & Hk1); cbn [fst snd] in Hl1, Hk1.
  apply outcome_bind, outcome_get; cbv beta iota; cbn [snd].
  assert (Hsucc : success l1 = success (snd s)) by (destruct Hl1 as [-> | ->]; reflexivity).
  assert (Hv : same_verdict (snd s) l1)
    by (destruct Hl1 as [-> | ->]; unfold same_verdict; repeat split).
  assert (Hts : timestamp l1 = timestamp (snd s)) by (destruct Hl1 as [-> | ->]; reflexivity).
  assert (Hai : aiAnalysis l1 = aiAnalysis (snd s)) by (destruct Hl1 as [-> | ->]; reflexivity).
  assert (Hev : evidence_taken b l1).
  { unfold evidence_taken; rewrite Hsucc; destruct Hl1 as [-> | ->]; cbn; auto. }
  destruct (success l1) eqn:Hs1.
  - apply outcome_ret; cbn [fst snd]; repeat split; auto; apply Hv.
  - apply (outcome_weaken _ _ _ _ (analyze_failure_catalog json env b (w1, l1))).
    intros c2 [w2 l2] r2 (-> & H); cbn [fst snd] in H |- *.
    destruct H as [[-> Hk2] | (a & shot & Hshot & Hne & -> & Hk2)].
    + repeat split; auto; try apply Hv.
      left; split; [exact Hai |]; unfold kept in *; rewrite Hk2; exact Hk1.
    + destruct Hv as (V0 & V1 & V2 & V3).
      split; [reflexivity |]; split; [unfold same_verdict; cbn; auto |].
      split; [exact Hts |]; split.
      { unfold evidence_taken in *; cbn; exact Hev. }
      right; exists a; split; [reflexivity |]; split; [symmetry; exact Hsucc |]; split.
      * cbn [screenshot set_aiAnalysis].
        destruct Hl1 as [-> | ->]; cbn [screenshot set_screenshot] in Hshot |- *.
        -- rewrite <- Hsucc; reflexivity.
        -- injection Hshot as <-; contradiction.
      * destruct Hk2 as [Hk2 | Hk2]; [left | right; exact Hk2].
        unfold kept in *; rewrite Hk2; exact Hk1.
Qed.

Lemma kept_files (w w' : World) : files w' = files w -> kept w w'.
Proof. unfold kept; intros ->; reflexivity. Qed.

Lemma kept_after (w w1 w2 : World) : files w1 = files w -> kept w1 w2 -> kept w w2.
Proof. unfold kept; intros <- H; exact H. Qed.

Lemma outcome_quiet_at {L A} (m : M L A) (s : World * L) Q :
  quiet m ->
  (forall calls w' r,
      trace w' = (trace (fst s) ++ calls)%list -> files w' = files (fst s) ->
      Q calls (w', snd s) r) ->
  outcome m s Q.
Proof.
  intros Hm H; destruct (Hm s) as (calls & Ht & Hl & Hf).
  exists calls; split; [exact Ht |].
  destruct (m s) as [[w' l'] r]; cbn [fst snd] in *; subst l'; apply H; assumption.
Qed.

(** The verdict depends on the environment and the history only. *)
Lemma verifySubmission_at {L} env (s : World * L) :
  snd (verifySubmission env s) = verdict_at env (trace (fst s)).
Proof.
  unfold verdict_at, at_history, verifySubmission; run_unfold.
  destruct (answer env (trace (fst s)) (CWaitForTimeout 2000)) as [[]|e0]; [| reflexivity].
  cbv beta iota; cbn [fst snd log trace].
  destruct (answer env (trace (fst s) ++ [CWaitForTimeout 2000]) (CExtract PErrors))
    as [ec|e1]; [| reflexivity].
  destruct (foundErrorIndicators ec); cbv beta iota; cbn [fst snd log trace]; [reflexivity |].
  destruct (answer env ((trace (fst s) ++ [CWaitForTimeout 2000]) ++ [CExtract PErrors])
              (CExtract PSuccess)) as [sc|e2]; [| reflexivity].
  destruct (foundSuccessText sc); cbv beta iota; cbn [fst snd log trace]; [reflexivity |].
  destruct (answer env
              (((trace (fst s) ++ [CWaitForTimeout 2000]) ++ [CExtract PErrors])
                 ++ [CExtract PSuccess]) (CExtract PStillForm)) as [fc|e3]; [| reflexivity].
  destruct (stillOnForm fc || hasSubmitButton fc || hasFormFields fc); reflexivity.
Qed.

Lemma verifySubmission_verdict {L} env (s : World * L) :
  outcome (verifySubmission env) s (fun calls s' r =>
    snd s' = snd s /\ files (fst s') = files (fst s)
    /\ r = verdict_at env (trace (fst s))).
Proof.
  destruct (quiet_verifySubmission env s) as (calls & Ht & Hl & Hf).
  exists calls; split; [exact Ht |]; split; [exact Hl |]; split; [exact Hf |].
  apply verifySubmission_at.
Qed.

Lemma verdict_within_later env (h d calls : list Call) (v : Verification) :
  verdict_within env (h ++ d)%list calls v -> verdict_within env h (d ++ calls)%list v.
Proof.
  intros (pre & post & -> & Hv); exists (d ++ pre)%list, post; split.
  - rewrite app_assoc; reflexivity.
  - rewrite app_assoc; exact Hv.
Qed.

Lemma after_verdict_later env b (h d calls : list Call) (w0 w w' : World)
    (l l' : RemovalResult) :
  files w = files w0 ->
  after_verdict env b (h ++ d)%list calls w w' l l' ->
  after_verdict env b h (d ++ calls)%list w0 w' l l'.
Proof.
  intros F (v & Hv & H0 & H1 & H2 & H3 & H4 & H5 & H6).
  exists v; split; [apply verdict_within_later, Hv |]; repeat split; auto.
  destruct H6 as [[Hai Hk] | (a & Hai & Hs & Hshot & Hk)]; [left | right].
  - split; [exact Hai | apply (kept_after _ _ _ F Hk)].
  - exists a; repeat split; auto.
    destruct Hk as [Hk | Hk]; [left; apply (kept_after _ _ _ F Hk) | right; exact Hk].
Qed.

Lemma fill_submit_verify_catalog json env b u (s : World * RemovalResult) :
  outcome (fill_submit_verify json env b u) s (fun calls s' r =>
    match r with
    | Ok _ => after_verdict env b (trace (fst s)) calls (fst s) (fst s') (snd s) (snd s')
    | Throw _ => snd s' = snd s /\ files (fst s') = files (fst s)
    end).
Proof.
  unfold fill_submit_verify.
  apply outcome_bind, outcome_quiet_at; [apply quiet_stored_instructions |].
  intros c1 w1 [[]|e] T1 F1; cbv beta iota; [| auto].
  apply outcome_bind, outcome_quiet_at; [apply quiet_fillRemovalForm |].
  intros c2 w2 [[]|e] T2 F2; cbv beta iota; cbn [fst snd] in *; [| split; congruence].
  apply outcome_bind, outcome_quiet_at; [apply quiet_submitRemovalForm |].
  intros c3 w3 [[]|e] T3 F3; cbv beta iota; cbn [fst snd] in *; [| split; congruence].
  apply outcome_bind.
  apply (outcome_weaken _ _ _ _ (verifySubmission_verdict env _)).
  intros c4 [w4 l4] r4 (Hl4 & F4 & ->); cbn [fst snd] in *; subst l4.
  destruct (verdict_at env (trace w3)) as [v|e] eqn:Ev; [| split; congruence].
  apply outcome_bind, outcome_modify; cbv beta iota; cbn [fst snd].
  apply (outcome_weaken _ _ _ _ (record_evidence_catalog json env b _)).
  intros c5 [w5 l5] r5 (-> & (V0 & V1 & V2 & V3) & Hts & Hev & Hcat); cbn [fst snd] in *.
  assert (F : files w4 = files (fst s)) by congruence.
  exists v; split.
  { exists (c1 ++ c2 ++ c3)%list, (c4 ++ [] ++ c5)%list; split.
    - rewrite <- !app_assoc; reflexivity.
    - rewrite <- Ev, T3, T2, T1, <- !app_assoc; reflexivity. }
  repeat split; auto.
  destruct Hcat as [[Hai Hk] | (a & Hai & Hs & Hshot & Hk)]; [left | right].
  - split; [exact Hai | apply (kept_after _ _ _ F Hk)].
  - exists a; repeat split; auto.
    + rewrite V1; exact Hs.
    + destruct Hk as [Hk | Hk]; [left; apply (kept_after _ _ _ F Hk) | right; exact Hk].
Qed.

Lemma try_block_catalog json env b u (s : World * RemovalResult) :
  outcome (try_block json env b u) s (fun calls s' r =>
    match r with
    | Ok _ => (snd s' = set_error "Could not find user listing" (snd s)
               /\ files (fst s') = files (fst s))
              \/ after_verdict env b (trace (fst s)) calls (fst s) (fst s') (snd s) (snd s')
    | Throw _ => snd s' = snd s /\ files (fst s') = files (fst s)
    end).
Proof.
  unfold try_block.
  apply outcome_bind, outcome_quiet_at; [apply quiet_goto |].
  intros c1 w1 [[]|e] T1 F1; cbv beta iota; [| auto].
  apply outcome_bind, outcome_quiet_at; [apply quiet_waitForLoadState |].
  intros c2 w2 [[]|e] T2 F2; cbv beta iota; cbn [fst snd] in *; [| split; congruence].
  apply outcome_bind, outcome_quiet_at; [apply quiet_checkIfNeedsSearch |].
  intros c3 w3 [needsSearch|e] T3 F3; cbv beta iota; cbn [fst snd] in *;
    [| split; congruence].
  assert (Hrest : forall d w, trace w = (trace (fst s) ++ d)%list -> files w = files (fst s) ->
    outcome (fill_submit_verify json env b u) (w, snd s) (fun c s' r =>
      match r with
      | Ok _ => (snd s' = set_error "Could not find user listing" (snd s)
                 /\ files (fst s') = files (fst s))
                \/ after_verdict env b (trace (fst s)) (d ++ c)%list
                     (fst s) (fst s') (snd s) (snd s')
      | Throw _ => snd s' = snd s /\ files (fst s') = files (fst s)
      end)).
  { intros d w T F; apply (outcome_weaken _ _ _ _ (fill_submit_verify_catalog json env b u _)).
    intros c [w' l'] [[]|e]; cbn [fst snd].
    - intros H; right; rewrite T in H; apply (after_verdict_later _ _ _ _ _ _ _ _ _ _ F H).
    - intros [-> ->]; auto. }
  destruct needsSearch.
  - apply outcome_bind, outcome_quiet_at; [apply quiet_performSearch |].
    intros c4 w4 [[]|e] T4 F4; cbv beta iota; cbn [fst snd] in *; [| split; congruence].
    apply outcome_bind, outcome_quiet_at; [apply quiet_waitForLoadState |].
    intros c5 w5 [[]|e] T5 F5; cbv beta iota; cbn [fst snd] in *; [| split; congruence].
    apply outcome_bind, outcome_quiet_at; [apply quiet_findAndClickListing |].
    intros c6 w6 [listingFound|e] T6 F6; cbv beta iota; cbn [fst snd] in *;
      [| split; congruence].
    destruct listingFound; cbn [negb].
    + apply outcome_bind, outcome_quiet_at; [apply quiet_waitForLoadState |].
      intros c7 w7 [[]|e] T7 F7; cbv beta iota; cbn [fst snd] in *; [| split; congruence].
      apply (outcome_weaken _ _ _ _
               (Hrest (c1 ++ c2 ++ c3 ++ c4 ++ c5 ++ c6 ++ c7)%list w7
                  ltac:(rewrite T7, T6, T5, T4, T3, T2, T1, <- !app_assoc; reflexivity)
                  ltac:(congruence))).
      intros c s' r H; rewrite <- !app_assoc in H; exact H.
    + apply outcome_modify; cbn [fst snd]; left; split; congruence.
  - apply (outcome_weaken _ _ _ _
             (Hrest (c1 ++ c2 ++ c3)%list w3
                ltac:(rewrite T3, T2, T1, <- !app_assoc; reflexivity) ltac:(congruence))).
    intros c s' r H; rewrite <- !app_assoc in H; exact H.
Qed.

Lemma catch_block_catalog env b e (s : World * RemovalResult) :
  outcome (catch_block env b e) s (fun _ s' r =>
    r = Ok tt
    /\ (snd s' = set_screenshot (screenshot_path false b) (set_error e (snd s))
        \/ snd s' = set_screenshot "failed_to_save" (set_error e (snd s)))
    /\ kept (fst s) (fst s')).
Proof.
  unfold catch_block.
  apply outcome_bind, outcome_modify; cbv beta iota.
  apply (outcome_weaken _ _ _ _
           (take_screenshot_catalog env _ _ (screenshot_path_not_catalog false b))).
  intros c [w l] r H; exact H.
Qed.

Lemma attempt_body_catalog json env b u t (w : World) :
  outcome (try_catch (try_block json env b u) (catch_block env b)) (w, initial_result b t)
    (fun calls s' r =>
       r = Ok tt /\ broker (snd s') = b /\ timestamp (snd s') = t
       /\ attempt_shapes env (trace w) calls b (snd s')
       /\ catalog_guard w (fst s') (snd s')).
Proof.
  apply outcome_try_catch.
  apply (outcome_weaken _ _ _ _ (try_block_catalog json env b u _)).
  intros c1 [w1 l1] [[]|e]; cbn [fst snd].
  - intros [[-> F] | (v & Hv & H0 & H1 & H2 & H3 & H4 & H5 & H6)].
    + repeat split; [left; reflexivity | left; apply kept_files, F].
    + split; [reflexivity |]; split; [exact H3 |]; split; [exact H4 |]; split.
      * right; left; exists v; split; [exact Hv |]; repeat split; auto;
          destruct H6 as [[Hai _] | (a' & Hai & Hs & Hshot & _)];
          rewrite Hai in *; cbn in *; congruence.
      * destruct H6 as [[_ Hk] | (a & Hai & Hs & _ & [Hk | Hk])];
          [left; exact Hk | left; exact Hk | right; exists a; auto].
  - intros [-> F].
    apply (outcome_weaken _ _ _ _ (catch_block_catalog env b e _)).
    intros c2 [w2 l2] r2 (-> & Hl & Hk); cbn [fst snd] in *.
    split; [reflexivity |].
    assert (Hk' : kept w w2) by (apply (kept_after _ _ _ F Hk)).
    destruct Hl as [-> | ->]; cbn; repeat split; auto; try (left; exact Hk');
      right; right; exists e; cbn; auto 10.
Qed.

Lemma attempt_shapes_later env (h d calls : list Call) b res :
  attempt_shapes env (h ++ d)%list calls b res -> attempt_shapes env h (d ++ calls)%list b res.
Proof.
  intros [H | [(v & Hv & H) | H]]; [left; exact H | right; left | right; right; exact H].
  exists v; split; [apply verdict_within_later, Hv | exact H].
Qed.

Lemma removeFromBroker_catalog {L} json env engine b u (s : World * L) :
  outcome (removeFromBroker json env engine b u) s (fun calls s' r =>
    match r with
    | Ok res => broker res = b /\ attempt_shapes env (trace (fst s)) calls b res
                /\ catalog_guard (fst s) (fst s') res
    | Throw _ => files (fst s') = files (fst s)
    end).
Proof.
  unfold removeFromBroker.
  destruct (stagehand engine); cbn [negb]; [| apply outcome_throw; reflexivity].
  apply outcome_bind, outcome_existsSync; cbv beta iota.
  apply outcome_bind, outcome_quiet_at; [apply quiet_ensure_dir |].
  intros c1 w1 [[]|e] T1 F1; cbv beta iota; [| exact F1].
  apply outcome_bind, outcome_now; cbv beta iota.
  apply outcome_bind, outcome_with_locals.
  apply (outcome_weaken _ _ _ _ (attempt_body_catalog json env b u _ _)).
  intros c [w2 l2] r (-> & Hb & _ & Hshape & Hguard); cbn [fst snd] in *.
  apply outcome_ret; cbn [fst snd]; split; [exact Hb |]; split.
  - rewrite T1 in Hshape; apply attempt_shapes_later in Hshape.
    cbn [app]; rewrite app_nil_r; exact Hshape.
  - destruct Hguard as [Hk | H]; [left; apply (kept_after _ _ _ F1 Hk) | right; exact H].
Qed.



(** X17. The catalog guard.  Whatever the environment answers, an attempt
    leaves [brokers.json] as it was unless it returns a failed result that
    carries an analysis with confidence 6 or more. *)
Theorem catalog_changes_need_confidence {L} json env engine b u (s : World * L) :
  let run := removeFromBroker json env engine b u s in
  files (fst (fst run)) !! "brokers.json" = files (fst s) !! "brokers.json"
  \/ exists res a,
       snd run = Ok res /\ success res = false /\ aiAnalysis res = Some a
       /\ Js.ge (confidence a) (Js.Num 6) = true.
Proof.
  cbv zeta.
  destruct (removeFromBroker_catalog json env engine b u s) as (calls & _ & H).
  destruct (snd (removeFromBroker json env engine b u s)) as [res|e].
  - destruct H as (_ & _ & [Hk | (a & Hai & Hc & Hs)]); [left; exact Hk | right].
    exists res, a; auto.
  - left; rewrite H; reflexivity.
Qed.

(** ** The loop and the final save *)

Lemma removeFromBroker_locals {L} json env engine b u (s : World * L) :
  snd (fst (removeFromBroker json env engine b u s)) = snd s
  /\ forall res, snd (removeFromBroker json env engine b u s) = Ok res -> broker res = b.
Proof.
  destruct (stagehand engine) eqn:Hengine.
  - apply removeFromBroker_frame, Hengine.
  - unfold removeFromBroker; rewrite Hengine; cbn; split; [reflexivity | discriminate].
Qed.

Lemma process_broker_group json env engine u b (s : World * RemovalSession) :
  let run := process_broker json env engine u b s in
  snd run = Ok tt
  /\ same_header (snd s) (snd (fst run))
  /\ exists g, results (snd (fst run)) = (results (snd s) ++ g)%list /\ broker_group b g.
Proof.
  cbv zeta.
  destruct (removeFromBroker_locals json env engine b u s) as [Hl Hb].
  unfold process_broker, try_catch, bind, modify, get, writeFileSync, now, ret.
  destruct (removeFromBroker json env engine b u s) as [[w1 l1] [res|e]];
    cbn [fst snd] in *; subst l1.
  - specialize (Hb res eq_refl); cbv zeta; cbn [fst snd].
    destruct (answer env (trace w1) _) as [[]|e]; cbn [fst snd].
    + split; [reflexivity |]; split; [repeat split |].
      exists [res]; split; [reflexivity |]; split; [left; reflexivity |].
      repeat constructor; exact Hb.
    + split; [reflexivity |]; split; [repeat split |].
      eexists [res; _]; split; [cbn [results push_result]; rewrite <- app_assoc; reflexivity |].
      split; [right; reflexivity |]; repeat constructor; exact Hb.
  - split; [reflexivity |]; split; [repeat split |].
    eexists [_]; split; [reflexivity |]; split; [left; reflexivity |].
    repeat constructor.
Qed.

Lemma process_brokers_groups json env engine u bs (s : World * RemovalSession) :
  let run := process_brokers json env engine u bs s in
  snd run = Ok tt
  /\ same_header (snd s) (snd (fst run))
  /\ exists groups,
       results (snd (fst run)) = (results (snd s) ++ concat groups)%list
       /\ Forall2 broker_group bs groups.
Proof.
  cbv zeta; revert s; induction bs as [|b rest IH]; intros s.
  - cbn; split; [reflexivity |]; split; [repeat split |].
    exists []; cbn; rewrite app_nil_r; split; [reflexivity | constructor].
  - destruct (process_broker_group json env engine u b s) as (Hr & Hh & g & Hg & Hbg).
    destruct (process_broker json env engine u b s) as [s1 r1] eqn:E; cbn [fst snd] in *.
    subst r1; rewrite (process_brokers_step _ _ _ _ _ _ _ _ E).
    destruct (IH s1) as (Hr' & Hh' & groups & Hgs & Hall).
    split; [exact Hr' |]; split.
    + destruct Hh as (A & B & C), Hh' as (A' & B' & C'); repeat split; congruence.
    + exists (g :: groups); split; [| constructor; assumption].
      rewrite Hgs, Hg; cbn [concat]; rewrite <- app_assoc; reflexivity.
Qed.

Lemma groups_length (bs : list Broker) (groups : list (list RemovalResult)) :
  Forall2 broker_group bs groups ->
  (List.length bs <= List.length (concat groups) <= 2 * List.length bs)%nat.
Proof.
  induction 1 as [|b g bs gs [Hg _] _ IH]; cbn [concat List.length]; [lia |].
  rewrite List.length_app; lia.
Qed.

Lemma process_broker_turn json env engine u b (s : World * RemovalSession) :
  exists g,
    results (snd (fst (process_broker json env engine u b s))) = (results (snd s) ++ g)%list
    /\ broker_group b g /\ turn_results json env engine u b s g.
Proof.
  destruct (removeFromBroker_locals json env engine b u s) as [Hl Hb].
  unfold turn_results, process_broker, try_catch, bind, modify, get, writeFileSync, now, ret.
  cbv zeta.
  destruct (removeFromBroker json env engine b u s) as [[w1 l1] [res|e]];
    cbn [fst snd] in *; subst l1.
  - specialize (Hb res eq_refl).
    destruct (answer env (trace w1) _) as [[]|e]; cbn [fst snd log trace].
    + exists [res]; split; [reflexivity |]; split; [| split; [exact Hb | reflexivity]].
      split; [left; reflexivity | repeat constructor; exact Hb].
    + eexists [res; _]; split; [cbn [results push_result]; rewrite <- app_assoc; reflexivity |].
      split; [| split; [exact Hb | reflexivity]].
      split; [right; reflexivity | repeat constructor; exact Hb].
  - eexists [_]; split; [reflexivity |]; split; [| reflexivity].
    split; [left; reflexivity | repeat constructor].
Qed.

Lemma process_brokers_turns json env engine u bs (s : World * RemovalSession) :
  exists groups,
    results (snd (fst (process_brokers json env engine u bs s)))
    = (results (snd s) ++ concat groups)%list
    /\ Forall2 broker_group bs groups
    /\ loop_results json env engine u bs s groups.
Proof.
  revert s; induction bs as [|b rest IH]; intros s.
  - exists []; cbn; rewrite app_nil_r; repeat split; constructor.
  - destruct (process_broker_group json env engine u b s) as (Hr & _ & _).
    destruct (process_broker_turn json env engine u b s) as (g & Hg & Hbg & Hturn).
    destruct (process_broker json env engine u b s) as [s1 r1] eqn:E; cbn [fst snd] in *.
    subst r1; rewrite (process_brokers_step _ _ _ _ _ _ _ _ E).
    destruct (IH s1) as (groups & Hgs & Hall & Hloop).
    exists (g :: groups); split; [| split].
    + rewrite Hgs, Hg; cbn [concat]; rewrite <- app_assoc; reflexivity.
    + constructor; assumption.
    + cbn [loop_results]; rewrite E; cbn [fst]; split; assumption.
Qed.

(** X18. The loop survives every fault.  For every engine, environment and
    list of brokers the loop of [main] returns; it leaves the user and the
    start time of the session alone and keeps the results it found; each
    broker, in order, adds results of its own: the result of its attempt
    alone when the write of the session file that follows succeeds; that
    result and then a fault result exactly when that write throws; and a
    fault result alone exactly when the attempt itself throws. *)
Theorem loop_survives_faults json env engine u bs (s : World * RemovalSession) :
  let run := process_brokers json env engine u bs s in
  snd run = Ok tt
  /\ user (snd (fst run)) = user (snd s)
  /\ startTime (snd (fst run)) = startTime (snd s)
  /\ exists groups,
       results (snd (fst run)) = (results (snd s) ++ concat groups)%list
       /\ Forall2 broker_group bs groups
       /\ loop_results json env engine u bs s groups.
Proof.
  cbv zeta.
  destruct (process_brokers_groups json env engine u bs s) as (Hr & (A & B & _) & _).
  split; [exact Hr |]; split; [exact A |]; split; [exact B |].
  apply process_brokers_turns.
Qed.

(** X19. The final save.  When the loop followed by the final save returns,
    the session file holds the serialised final session: its end time is
    set and it has, after the results it started with, at least one and at
    most two results for each broker, those of faulted brokers included. *)
Theorem finished_session_is_complete json env engine u bs (s : World * RemovalSession) :
  let run := run_session json env engine u bs s in
  let final := snd (fst run) in
  snd run = Ok tt ->
  files (fst (fst run)) !! session_file = Some (stringify_session json final)
  /\ endTime final <> None
  /\ exists rs,
       results final = (results (snd s) ++ rs)%list
       /\ (List.length bs <= List.length rs <= 2 * List.length bs)%nat
       /\ forall b, In b bs -> In b (List.map broker rs).
Proof.
  cbv zeta.
  destruct (process_brokers_groups json env engine u bs s) as (Hr & _ & groups & Hg & Hall).
  assert (E : run_session json env engine u bs s
              = finish_session json env (fst (process_brokers json env engine u bs s))).
  { unfold run_session, bind.
    destruct (process_brokers json env engine u bs s) as [s1 r1]; cbn [fst snd] in *.
    subst r1; reflexivity. }
  rewrite E; clear E.
  destruct (process_brokers json env engine u bs s) as [[w1 l1] r1]; cbn [fst snd] in *.
  subst r1; unfold finish_session, bind, now, modify, get, writeFileSync; cbn [fst snd].
  cbv zeta; destruct (answer env (trace w1) _) as [[]|e]; cbn [fst snd files]; [| discriminate].
  intros _; split; [apply lookup_insert_eq |]; split; [discriminate |].
  exists (concat groups); split; [exact Hg |]; split; [apply groups_length, Hall |].
  clear Hg; induction Hall as [|b g bs' gs [Hlen Hb] _ IH]; intros b0 Hin; [destruct Hin |].
  cbn [concat]; rewrite List.map_app; apply in_or_app.
  destruct Hin as [<- | Hin]; [left | right; apply IH, Hin].
  destruct g as [|r g]; [destruct Hlen; discriminate |].
  apply List.Forall_inv in Hb; left; exact Hb.
Qed.

Lemma finished_session_is_complete_witness :
  let run := run_session demo_json quiet_env {| stagehand := true |} jane [acme; spokeo]
               (demo_world, new_session jane 0) in
  let final := snd (fst run) in
  files (fst (fst run)) !! session_file = Some (stringify_session demo_json final)
  /\ endTime final <> None
  /\ exists rs,
       results final = (results (new_session jane 0) ++ rs)%list
       /\ (List.length [acme; spokeo] <= List.length rs <= 2 * List.length [acme; spokeo])%nat
       /\ forall b, In b [acme; spokeo] -> In b (List.map broker rs).
Proof.
  apply (finished_session_is_complete demo_json quiet_env {| stagehand := true |} jane
           [acme; spokeo] (demo_world, new_session jane 0)).
  vm_compute; reflexivity.
Defined.

(** ** The stored profile *)

Lemma UserSchema_parse_candidate_of email_check (u : User) :
  UserSchema_parse email_check (candidate_of u)
  = if email_check (email u) then Some u else None.
Proof.
  unfold UserSchema_parse, candidate_of; cbn.
  destruct u as [fn ln em ad ci st zp ph dob [n|]]; cbn; reflexivity.
Qed.

(** X20. The stored profile comes back.  When [JSON.parse] reads back what
    [JSON.stringify] wrote for the user and the write of [user.json]
    succeeds, [loadUserData] after [saveUserData] changes nothing and
    returns that user if its email passes the check of the schema, and
    [null] otherwise; no other field is looked at. *)
Theorem stored_profile_round_trip {L} codec email_check env (u : User) (s : World * L) :
  parse_user codec (stringify_user codec u) = Some (candidate_of u) ->
  answer env (trace (fst s)) (CWriteFile user_file (stringify_user codec u)) = Ok tt ->
  let saved := saveUserData codec env u s in
  snd saved = Ok tt
  /\ loadUserData codec email_check (fst saved)
     = (fst saved, Ok (if email_check (email u) then Some u else None)).
Proof.
  intros Hcodec Hwrite; cbv zeta.
  unfold saveUserData, loadUserData, try_catch, bind, writeFileSync, readFileSync, ret, throw.
  cbv zeta; rewrite Hwrite; cbn [fst snd files log].
  rewrite lookup_insert_eq, Hcodec, UserSchema_parse_candidate_of.
  split; [reflexivity |]; destruct (email_check (email u)); reflexivity.
Qed.

Lemma stored_profile_round_trip_witness :
  let saved := saveUserData demo_codec quiet_env jane (demo_world, tt) in
  snd saved = Ok tt
  /\ loadUserData demo_codec zod_email (fst saved)
     = (fst saved, Ok (if zod_email (email jane) then Some jane else None)).
Proof.
  apply (stored_profile_round_trip demo_codec zod_email quiet_env jane (demo_world, tt)).
  - reflexivity.
  - reflexivity.
Defined.

(** X21. Loading is safe.  [loadUserData] never throws and changes nothing;
    without a file [user.json] it returns [null]; a user it returns has an
    email that passes the check of the schema. *)
Theorem loadUserData_is_safe {L} codec email_check (s : World * L) :
  fst (loadUserData codec email_check s) = s
  /\ (exists r, snd (loadUserData codec email_check s) = Ok r)
  /\ (files (fst s) !! user_file = None -> snd (loadUserData codec email_check s) = Ok None)
  /\ forall u, snd (loadUserData codec email_check s) = Ok (Some u) ->
               email_check (email u) = true.
Proof.
  unfold loadUserData, try_catch, bind, readFileSync, ret, throw.
  destruct (files (fst s) !! user_file) as [data|]; cbn [fst snd].
  2: { repeat split; eauto; discriminate. }
  destruct (parse_user codec data) as [c|]; cbn [fst snd].
  2: { repeat split; eauto; discriminate. }
  destruct (UserSchema_parse email_check c) as [u|] eqn:E; cbn [fst snd].
  2: { repeat split; eauto; discriminate. }
  repeat split; eauto; try discriminate.
  intros u' [= <-].
  unfold UserSchema_parse in E.
  repeat match type of E with
         | match ?x with _ => _ end = _ => destruct x eqn:?; try discriminate E
         | (if ?x then _ else _) = _ => destruct x eqn:?; try discriminate E
         end.
  injection E as <-; cbn [email]; assumption.
Qed.

(** ** The layout of the prompt *)

Lemma split_lacks (sep : ascii) (s : string) : lacks sep s = true -> Js.split sep s = [s].
Proof.
  unfold lacks; induction s as [|c r IH]; [reflexivity |].
  cbn [all_chars Js.split]; intros H; apply andb_prop in H; destruct H as [Hc Hr].
  apply negb_true_iff in Hc; rewrite Hc, (IH Hr); reflexivity.
Qed.

Lemma split_join_lines (sep : ascii) (ls : list string) :
  ls <> [] -> Forall (fun l => lacks sep l = true) ls ->
  Js.split sep (Js.join (String sep EmptyString) ls) = ls.
Proof.
  unfold Js.join; induction ls as [|a rest IH]; [contradiction |].
  intros _ H; apply List.Forall_cons_iff in H; destruct H as [Ha Hrest].
  destruct rest as [|b rest]; [cbn [String.concat]; apply split_lacks, Ha |].
  rewrite concat_cons by discriminate.
  change (String.append (String sep EmptyString) ?x) with (String sep x).
  rewrite (split_app _ _ _ Ha), IH; [reflexivity | discriminate | exact Hrest].
Qed.

Lemma digit_not_space (d : ascii) : is_digit d = true -> Js.is_space d = false.
Proof. destruct d as [[] [] [] [] [] [] [] []]; try discriminate; reflexivity. Qed.

Lemma plain_head seps (s : string) :
  plain seps s -> exists c r, s = String c r /\ Js.is_space c = false.
Proof.
  intros (Hne & Ht & _); destruct s as [|c r]; [contradiction |].
  exists c, r; split; [reflexivity | apply (trim_head _ _ _ Ht)].
Qed.

Lemma plain_trimEnd seps (s : string) : plain seps s -> Js.trimEnd s = s.
Proof.
  intros H; destruct (plain_head _ _ H) as (c & r & -> & Hc).
  destruct H as (_ & Ht & _); unfold is_trimmed, Js.trim in Ht.
  rewrite (trimStart_fixed _ _ Hc) in Ht; exact Ht.
Qed.

Lemma trimEnd_app (a s : string) :
  s <> EmptyString -> Js.trimEnd s = s ->
  Js.trimEnd (String.append a s) = String.append a s.
Proof.
  intros Hne Hs; induction a as [|c a IH]; [exact Hs |].
  rewrite append_cons; cbn [Js.trimEnd]; rewrite IH.
  destruct (String.append a s) eqn:E; [| reflexivity].
  destruct a; [rewrite append_nil in E; contradiction | rewrite append_cons in E; discriminate].
Qed.

Lemma trim_fixed (c : ascii) (a s : string) :
  Js.is_space c = false -> s <> EmptyString -> Js.trimEnd s = s ->
  Js.trim (String c (String.append a s)) = String c (String.append a s).
Proof.
  intros Hc Hne Hs; unfold Js.trim; rewrite (trimStart_fixed _ _ Hc).
  rewrite <- append_cons; apply trimEnd_app; assumption.
Qed.

Lemma prefix_diff (c d : ascii) (p r : string) :
  c <> d -> String.prefix (String c p) (String d r) = false.
Proof. intros H; cbn [String.prefix]; destruct (ascii_dec c d); [contradiction | reflexivity]. Qed.

Lemma prefix_same (c : ascii) (p r : string) :
  String.prefix (String c p) (String c r) = String.prefix p r.
Proof. cbn [String.prefix]; destruct (ascii_dec c c); [reflexivity | contradiction]. Qed.

Lemma skip_digits_number (n : string) (c : ascii) (r : string) :
  all_chars is_digit n = true -> is_digit c = false ->
  skip_digits (String.append n (String c r)) = String c r.
Proof.
  intros Hn Hc; induction n as [|d n IH].
  - rewrite append_nil; cbn [skip_digits]; rewrite Hc; reflexivity.
  - cbn [all_chars] in Hn; apply andb_prop in Hn; destruct Hn as [Hd Hn].
    rewrite append_cons; cbn [skip_digits]; rewrite Hd; apply IH, Hn.
Qed.

Lemma second_segment_label (fallback label x : string) :
  lacks ":" label = true -> lacks ":" x = true ->
  second_segment fallback (String.append label (String ":" x)) = Js.or_else (Js.trim x) fallback.
Proof.
  intros Hl Hx; unfold second_segment.
  rewrite (split_app _ _ _ Hl), (split_lacks _ _ Hx); reflexivity.
Qed.

Lemma trim_blank (x : string) : Js.trim (String " " x) = Js.trim x.
Proof. reflexivity. Qed.

Lemma plain_trim seps (s : string) : plain seps s -> Js.trim s = s.
Proof. intros (_ & H & _); exact H. Qed.

Lemma plain_lacks seps (c : ascii) (s : string) : plain seps s -> In c seps -> lacks c s = true.
Proof. intros (_ & _ & H) Hin; rewrite List.Forall_forall in H; apply H, Hin. Qed.

Lemma join_plain (c : ascii) (fs : list string) :
  fs <> [] -> c <> ","%char -> c <> " "%char ->
  Forall (fun f => f <> EmptyString /\ is_trimmed f /\ lacks c f = true) fs ->
  let J := Js.join ", " fs in
  J <> EmptyString /\ is_trimmed J /\ lacks c J = true.
Proof.
  intros Hne Hc1 Hc2 H; cbv zeta; unfold Js.join.
  induction fs as [|a rest IH]; [contradiction |].
  apply List.Forall_cons_iff in H; destruct H as [(Ha & Hta & Hla) Hrest].
  destruct rest as [|b rest]; [cbn [String.concat]; auto |].
  rewrite concat_cons by discriminate.
  destruct (IH ltac:(discriminate) Hrest) as (Hj & Htj & Hlj).
  set (J := String.concat ", " (b :: rest)) in *.
  destruct a as [|x a]; [contradiction |].
  assert (Hx : Js.is_space x = false) by (apply (trim_head _ _ _ Hta)).
  assert (HeJ : Js.trimEnd J = J).
  { destruct J as [|y J']; [contradiction |].
    unfold is_trimmed, Js.trim in Htj.
    rewrite (trimStart_fixed _ _ (trim_head _ _ _ Htj)) in Htj; exact Htj. }
  split; [rewrite append_cons; discriminate |]; split.
  - unfold is_trimmed; rewrite append_cons.
    change (String.append ", " J) with (String "," (String " " J)).
    unfold Js.trim; rewrite (trimStart_fixed _ _ Hx), <- append_cons.
    apply trimEnd_app; [discriminate |].
    change (String "," (String " " J)) with (String.append ", " J).
    apply trimEnd_app; assumption.
  - rewrite !lacks_app, Hla, Hlj, andb_true_r; cbn [andb].
    unfold lacks; cbn [all_chars]; rewrite andb_true_r.
    apply andb_true_intro; split; apply negb_true_iff, Ascii.eqb_neq; congruence.
Qed.

Lemma split_head (sep c : ascii) (x : string) :
  c <> sep ->
  Js.split sep (String c x)
  = String c (List.hd EmptyString (Js.split sep x)) :: List.tl (Js.split sep x).
Proof.
  intros H; cbn [Js.split]; apply Ascii.eqb_neq in H; rewrite H.
  pose proof (split_not_nil sep x); destruct (Js.split sep x); [contradiction | reflexivity].
Qed.

Lemma comma_list_blank (x : string) : comma_list (String " " x) = comma_list x.
Proof.
  unfold comma_list; rewrite split_head by discriminate.
  pose proof (split_not_nil "," x) as Hn.
  destruct (Js.split "," x) as [|h t]; [contradiction |].
  cbn [List.hd List.tl List.map]; rewrite trim_blank; reflexivity.
Qed.

Lemma comma_list_app (a x : string) :
  lacks "," a = true ->
  comma_list (String.append a (String "," x))
  = ((if (0 <? String.length (Js.trim a))%nat then [Js.trim a] else []) ++ comma_list x)%list.
Proof.
  intros Ha; unfold comma_list; rewrite (split_app _ _ _ Ha); cbn [List.map List.filter].
  destruct (0 <? String.length (Js.trim a))%nat; reflexivity.
Qed.

Lemma comma_list_join (fs : list string) :
  Forall (plain [","%char]) fs -> comma_list (Js.join ", " fs) = fs.
Proof.
  unfold Js.join; induction fs as [|a rest IH]; intros H; [reflexivity |].
  apply List.Forall_cons_iff in H; destruct H as [Ha Hrest].
  assert (Hlen : (0 <? String.length a)%nat = true).
  { destruct a; [destruct Ha as [Ha _]; contradiction | reflexivity]. }
  destruct rest as [|b rest].
  - cbn [String.concat]; unfold comma_list.
    rewrite (split_lacks _ _ (plain_lacks _ _ _ Ha (or_introl eq_refl))).
    cbn [List.map List.filter]; rewrite (plain_trim _ _ Ha), Hlen; reflexivity.
  - rewrite concat_cons by discriminate.
    change (String.append ", " ?x) with (String "," (String " " x)).
    rewrite (comma_list_app _ _ (plain_lacks _ _ _ Ha (or_introl eq_refl))).
    rewrite (plain_trim _ _ Ha), Hlen, comma_list_blank, (IH Hrest); reflexivity.
Qed.

Lemma number_head (n : string) :
  is_number n -> exists d n', n = String d n' /\ is_digit d = true /\ all_chars is_digit n' = true.
Proof.
  intros [Hne Hd]; destruct n as [|d n']; [contradiction |].
  cbn [all_chars] in Hd; apply andb_prop in Hd; destruct Hd as [H1 H2]; eauto.
Qed.

Lemma digit_not_letter (d c : ascii) : is_digit d = true -> is_alpha c = true -> c <> d.
Proof.
  intros Hd Hc ->.
  destruct d as [[] [] [] [] [] [] [] []]; try discriminate Hd; discriminate Hc.
Qed.

Lemma page_line_step (v : PageVars) (n s : string) :
  inSteps v = true -> is_number n -> plain [line_feed] s ->
  page_line v (step_line (n, s))
  = {| p_steps := p_steps v ++ [s]; p_pageType := p_pageType v;
       p_formFields := p_formFields v; p_requiredActions := p_requiredActions v;
       p_confidence := p_confidence v; inSteps := inSteps v |}.
Proof.
  intros Hin Hn Hs.
  destruct (number_head _ Hn) as (d & n' & -> & Hd & Hn').
  destruct (plain_head _ _ Hs) as (c & r & Es & Hc).
  assert (Hne : s <> EmptyString) by (rewrite Es; discriminate).
  pose proof (plain_trimEnd _ _ Hs) as He.
  unfold step_line; cbn [fst snd]; rewrite append_cons.
  assert (Htrim : Js.trim (String d (String.append n' (String.append ". " s)))
                  = String d (String.append n' (String.append ". " s))).
  { apply trim_fixed; [apply digit_not_space, Hd | discriminate |].
    apply trimEnd_app; assumption. }
  unfold page_line; cbv zeta; rewrite Htrim.
  rewrite !prefix_diff by (apply digit_not_letter; [exact Hd | reflexivity]).
  rewrite Hin; unfold numbered; rewrite Hd.
  change (String.append ". " s) with (String "." (String " " s)).
  rewrite (skip_digits_number n' "." (String " " s) Hn' eq_refl).
  change (Js.trimStart (String " " s)) with (Js.trimStart s).
  rewrite Es, (trimStart_fixed _ _ Hc); reflexivity.
Qed.

Lemma fold_page_steps (sts : list (string * string)) (v : PageVars) :
  inSteps v = true ->
  Forall (fun st => is_number (fst st) /\ plain [line_feed] (snd st)) sts ->
  fold_left page_line (List.map step_line sts) v
  = {| p_steps := p_steps v ++ List.map snd sts; p_pageType := p_pageType v;
       p_formFields := p_formFields v; p_requiredActions := p_requiredActions v;
       p_confidence := p_confidence v; inSteps := true |}.
Proof.
  revert v; induction sts as [|[n s] rest IH]; intros v Hin H; cbn [List.map fold_left].
  - rewrite app_nil_r; destruct v; cbn in *; subst; reflexivity.
  - apply List.Forall_cons_iff in H; destruct H as [[Hn Hs] Hrest]; cbn [fst snd] in *.
    rewrite (page_line_step v n s Hin Hn Hs), IH by assumption.
    cbn [p_steps p_pageType p_formFields p_requiredActions p_confidence inSteps].
    rewrite <- app_assoc; reflexivity.
Qed.

Lemma page_line_blank (v : PageVars) : page_line v EmptyString = v.
Proof. unfold page_line; cbn; destruct (inSteps v); reflexivity. Qed.

Lemma page_line_pageType (v : PageVars) (pt : string) :
  plain [":"%char] pt ->
  page_line v (String.append "PAGE_TYPE: " pt)
  = {| p_steps := p_steps v; p_pageType := pt; p_formFields := p_formFields v;
       p_requiredActions := p_requiredActions v; p_confidence := p_confidence v;
       inSteps := false |}.
Proof.
  intros Hp.
  assert (Hne : pt <> EmptyString) by apply Hp.
  assert (Htrim : Js.trim (String.append "PAGE_TYPE: " pt) = String.append "PAGE_TYPE: " pt).
  { rewrite append_cons; apply trim_fixed; [reflexivity | exact Hne | apply (plain_trimEnd _ _ Hp)]. }
  unfold page_line; cbv zeta; rewrite Htrim.
  change (String.append "PAGE_TYPE: " pt)
    with (String.append "PAGE_TYPE" (String ":" (String " " pt))).
  rewrite second_segment_label;
    [| reflexivity
     | unfold lacks; cbn [all_chars]; apply (plain_lacks _ _ _ Hp (or_introl eq_refl))].
  rewrite trim_blank, (plain_trim _ _ Hp).
  destruct pt; [contradiction | reflexivity].
Qed.

Lemma field_plain (c : ascii) (f : string) :
  is_field f -> In c [","%char; ":"%char; line_feed] ->
  f <> EmptyString /\ is_trimmed f /\ lacks c f = true.
Proof.
  intros H Hin; split; [apply H | split; [apply H | apply (plain_lacks _ _ _ H Hin)]].
Qed.

Lemma fields_comma (fs : list string) : Forall is_field fs -> Forall (plain [","%char]) fs.
Proof.
  apply List.Forall_impl; intros f H; split; [apply H | split; [apply H |]].
  constructor; [apply (plain_lacks _ _ _ H); left; reflexivity | constructor].
Qed.

Lemma trimEnd_colon_blank (l : string) :
  Js.trimEnd (String.append l ": ") = String.append l ":".
Proof.
  induction l as [|x l IH]; [reflexivity |].
  rewrite !append_cons; cbn [Js.trimEnd]; rewrite IH.
  destruct l; reflexivity.
Qed.

Lemma labelled_list (c : ascii) (label : string) (fs : list string) :
  lacks ":" (String c label) = true -> Js.is_space c = false ->
  Forall is_field fs ->
  exists x,
    Js.trim (String.append (String c label) (String ":" (String " " (Js.join ", " fs))))
    = String.append (String c label) (String ":" x)
    /\ comma_list (second_segment EmptyString (String.append (String c label) (String ":" x)))
       = fs.
Proof.
  intros Hl Hc Hfs.
  destruct fs as [|f rest].
  - exists EmptyString; unfold Js.join; cbn [String.concat].
    change (String ":" (String " " EmptyString)) with ": ".
    unfold Js.trim; rewrite append_cons, (trimStart_fixed _ _ Hc), <- append_cons.
    rewrite trimEnd_colon_blank; split; [reflexivity |].
    rewrite second_segment_label by (exact Hl || reflexivity); reflexivity.
  - destruct (join_plain ":" (f :: rest) ltac:(discriminate) ltac:(discriminate)
                ltac:(discriminate)) as (Hj & Htj & Hlj).
    { revert Hfs; apply List.Forall_impl; intros x Hx.
      apply (field_plain _ _ Hx); right; left; reflexivity. }
    set (J := Js.join ", " (f :: rest)) in *.
    assert (HeJ : Js.trimEnd J = J).
    { destruct J as [|y J']; [contradiction |].
      unfold is_trimmed, Js.trim in Htj.
      rewrite (trimStart_fixed _ _ (trim_head _ _ _ Htj)) in Htj; exact Htj. }
    exists (String " " J); split.
    { rewrite append_cons; apply trim_fixed; [exact Hc | discriminate |].
      change (String ":" (String " " J)) with (String.append ": " J).
      apply trimEnd_app; assumption. }
    rewrite second_segment_label; [| exact Hl |].
    + rewrite trim_blank, Htj.
      assert (Js.or_else J EmptyString = J) as -> by (destruct J; reflexivity).
      apply comma_list_join, fields_comma, Hfs.
    + unfold lacks in *; cbn [all_chars]; exact Hlj.
Qed.

Lemma prefix_nil (s : string) : String.prefix EmptyString s = true.
Proof. destruct s; reflexivity. Qed.

Ltac decide_prefix :=
  rewrite ?append_cons, ?append_nil;
  repeat first [ rewrite prefix_same | rewrite prefix_diff by discriminate | rewrite prefix_nil ].

Lemma page_line_formFields (v : PageVars) (fs : list string) :
  Forall is_field fs ->
  page_line v (String.append "FORM_FIELDS: " (Js.join ", " fs))
  = {| p_steps := p_steps v; p_pageType := p_pageType v; p_formFields := fs;
       p_requiredActions := p_requiredActions v; p_confidence := p_confidence v;
       inSteps := inSteps v |}.
Proof.
  intros Hfs.
  destruct (labelled_list "F" "ORM_FIELDS" fs eq_refl eq_refl Hfs) as (x & Etrim & Hlist).
  change (String.append "FORM_FIELDS: " (Js.join ", " fs))
    with (String.append "FORM_FIELDS" (String ":" (String " " (Js.join ", " fs)))).
  unfold page_line; cbv zeta; rewrite Etrim, Hlist.
  decide_prefix; reflexivity.
Qed.

Lemma page_line_requiredActions (v : PageVars) (fs : list string) :
  Forall is_field fs ->
  page_line v (String.append "REQUIRED_ACTIONS: " (Js.join ", " fs))
  = {| p_steps := p_steps v; p_pageType := p_pageType v; p_formFields := p_formFields v;
       p_requiredActions := fs; p_confidence := p_confidence v;
       inSteps := inSteps v |}.
Proof.
  intros Hfs.
  destruct (labelled_list "R" "EQUIRED_ACTIONS" fs eq_refl eq_refl Hfs) as (x & Etrim & Hlist).
  change (String.append "REQUIRED_ACTIONS: " (Js.join ", " fs))
    with (String.append "REQUIRED_ACTIONS" (String ":" (String " " (Js.join ", " fs)))).
  unfold page_line; cbv zeta; rewrite Etrim, Hlist.
  decide_prefix; reflexivity.
Qed.

Lemma page_line_confidence (v : PageVars) (conf : Z) :
  1 <= conf <= 10 ->
  page_line v (String.append "CONFIDENCE: " (Js.toString (Js.Num conf)))
  = {| p_steps := p_steps v; p_pageType := p_pageType v; p_formFields := p_formFields v;
       p_requiredActions := p_requiredActions v; p_confidence := Js.Num conf;
       inSteps := inSteps v |}.
Proof.
  intros H.
  assert (Hc : conf = 1 \/ conf = 2 \/ conf = 3 \/ conf = 4 \/ conf = 5 \/ conf = 6
               \/ conf = 7 \/ conf = 8 \/ conf = 9 \/ conf = 10) by lia.
  repeat destruct Hc as [-> | Hc]; subst; reflexivity.
Qed.

Lemma digits_lack_line_feed (n : string) :
  all_chars is_digit n = true -> lacks line_feed n = true.
Proof.
  unfold lacks; induction n as [|d n IH]; [reflexivity |].
  cbn [all_chars]; intros H; apply andb_prop in H; destruct H as [Hd Hn].
  rewrite (IH Hn), andb_true_r.
  destruct d as [[] [] [] [] [] [] [] []]; try discriminate Hd; reflexivity.
Qed.

Lemma fields_lack_line_feed (fs : list string) :
  Forall is_field fs -> lacks line_feed (Js.join ", " fs) = true.
Proof.
  intros H; destruct fs as [|f rest]; [reflexivity |].
  apply (join_plain line_feed (f :: rest)); try discriminate.
  revert H; apply List.Forall_impl; intros x Hx.
  apply (field_plain _ _ Hx); right; right; left; reflexivity.
Qed.

Lemma confidence_lacks_line_feed (conf : Z) :
  1 <= conf <= 10 ->
  lacks line_feed (String.append "CONFIDENCE: " (Js.toString (Js.Num conf))) = true.
Proof.
  intros H.
  assert (Hc : conf = 1 \/ conf = 2 \/ conf = 3 \/ conf = 4 \/ conf = 5 \/ conf = 6
               \/ conf = 7 \/ conf = 8 \/ conf = 9 \/ conf = 10) by lia.
  repeat destruct Hc as [-> | Hc]; subst; reflexivity.
Qed.

(** X22. The layout of the prompt is read back.  A response laid out as the
    prompt of [analyzePageContent] asks (the header, one numbered line for
    each step, an empty line, then the page type, the form fields, the
    required actions and the confidence, each on its labelled line) is
    parsed back to exactly those steps, that page type, those fields and
    actions and that confidence, provided the step numbers are digits, the
    texts are not empty, have no white space around them and contain no
    line feed, the page type contains no colon, the fields and actions
    contain no comma and no colon, and the confidence is a whole number
    from 1 to 10. *)
Theorem page_layout_round_trip (numbered_steps : list (string * string))
    (pageType : string) (fields actions : list string) (conf : Z) :
  Forall (fun st => is_number (fst st) /\ plain [line_feed] (snd st)) numbered_steps ->
  plain [":"%char; line_feed] pageType ->
  Forall is_field fields -> Forall is_field actions ->
  1 <= conf <= 10 ->
  parsePageAnalysisResponse (Some (render_page numbered_steps pageType fields actions conf))
  = {| steps := List.map snd numbered_steps; page_pageType := pageType;
       formFields := fields; requiredActions := actions; page_confidence := Js.Num conf |}.
Proof.
  intros Hsteps Hpt Hfs Has Hconf.
  unfold render_page, parsePageAnalysisResponse, LF.
  rewrite split_join_lines; [| discriminate |].
  - cbn [fold_left]; rewrite fold_left_app.
    rewrite fold_page_steps; [| reflexivity | exact Hsteps].
    cbn [fold_left].
    rewrite page_line_blank, page_line_pageType, page_line_formFields,
      page_line_requiredActions, page_line_confidence; try assumption.
    + reflexivity.
    + split; [apply Hpt | split; [apply Hpt |]].
      constructor; [apply (plain_lacks _ _ _ Hpt); left; reflexivity | constructor].
  - constructor; [reflexivity |].
    apply List.Forall_app; split.
    + apply List.Forall_forall; intros l Hl.
      apply List.in_map_iff in Hl; destruct Hl as ([n s] & <- & Hin).
      rewrite List.Forall_forall in Hsteps; destruct (Hsteps _ Hin) as [Hn Hs].
      cbn [fst snd] in *; unfold step_line; cbn [fst snd].
      pose proof (digits_lack_line_feed _ (proj2 Hn)) as H1.
      pose proof (plain_lacks _ _ _ Hs (or_introl eq_refl)) as H2.
      unfold line_feed in H1, H2; rewrite !lacks_app, H1, H2; reflexivity.
    + repeat constructor.
      * pose proof (plain_lacks _ _ _ Hpt (or_intror (or_introl eq_refl))) as H1.
        unfold line_feed in H1; rewrite lacks_app, H1; reflexivity.
      * pose proof (fields_lack_line_feed _ Hfs) as H1.
        unfold line_feed in H1; rewrite lacks_app, H1; reflexivity.
      * pose proof (fields_lack_line_feed _ Has) as H1.
        unfold line_feed in H1; rewrite lacks_app, H1; reflexivity.
      * apply (confidence_lacks_line_feed _ Hconf).
Qed.

Lemma page_layout_round_trip_witness :
  parsePageAnalysisResponse
    (Some (render_page [("1", "Enter your email"); ("2", "Check the consent box");
                        ("10", "Click Submit")]
             "form" ["email"; "full name"] ["accept terms"] 8))
  = {| steps := List.map snd [("1", "Enter your email"); ("2", "Check the consent box");
                              ("10", "Click Submit")];
       page_pageType := "form"; formFields := ["email"; "full name"];
       requiredActions := ["accept terms"]; page_confidence := Js.Num 8 |}.
Proof.
  apply (page_layout_round_trip
           [("1", "Enter your email"); ("2", "Check the consent box"); ("10", "Click Submit")]
           "form" ["email"; "full name"] ["accept terms"] 8).
  - repeat constructor; try discriminate; reflexivity.
  - repeat constructor; try discriminate; reflexivity.
  - repeat constructor; try discriminate; reflexivity.
  - repeat constructor; try discriminate; reflexivity.
  - lia.
Defined.

(** ** The confidence line *)

Lemma parse_line_keeps_confidence (v : ParseVars) (line : string) :
  Js.includes (Js.toLowerCase line) "confidence:" = false ->
  v_confidence (parse_line v line) = v_confidence v.
Proof.
  intros H; unfold parse_line; cbv zeta; rewrite H.
  repeat match goal with |- context [if ?b then _ else _] => destruct b end; reflexivity.
Qed.

Lemma fold_parse_keeps_confidence (lines : list string) (v : ParseVars) :
  (forall line, In line lines -> Js.includes (Js.toLowerCase line) "confidence:" = false) ->
  v_confidence (fold_left parse_line lines v) = v_confidence v.
Proof.
  revert v; induction lines as [|l ls IH]; intros v H; cbn [fold_left]; [reflexivity |].
  rewrite IH by (intros line Hin; apply H; right; exact Hin).
  apply parse_line_keeps_confidence, H; left; reflexivity.
Qed.

(** X23. No confidence line, nothing learnt.  When no line of the
    completion mentions [confidence:] (in any case), the diagnosis has
    confidence 5, whatever problem and fix it holds, and
    [updateBrokerWithAnalysis] returns the broker as it was: nothing is
    written, nothing is added to the notes. *)
Theorem no_confidence_line_no_update {L} json env (b : Broker) (response : string)
    (s : World * L) :
  no_confidence_line response ->
  let a := parseAnalysisResponse (Some response) in
  confidence a = Js.Num 5
  /\ updateBrokerWithAnalysis json env b a s = (s, Ok b).
Proof.
  intros H; cbv zeta.
  assert (Hc : confidence (parseAnalysisResponse (Some response)) = Js.Num 5).
  { cbn [parseAnalysisResponse]; unfold parse_response_string; cbn [confidence].
    apply (fold_parse_keeps_confidence _ parse_init H). }
  split; [exact Hc |].
  unfold updateBrokerWithAnalysis; rewrite Hc; reflexivity.
Qed.

Lemma no_confidence_line_no_update_witness :
  let a := parseAnalysisResponse
             (Some ("Problem: the consent box is not checked" ++ LF
                    ++ "Fix: Click the 'I agree to terms' checkbox before continuing")) in
  confidence a = Js.Num 5
  /\ updateBrokerWithAnalysis demo_json quiet_env spokeo a (demo_world, tt)
     = ((demo_world, tt), Ok spokeo).
Proof.
  apply (no_confidence_line_no_update demo_json quiet_env spokeo
           ("Problem: the consent box is not checked" ++ LF
            ++ "Fix: Click the 'I agree to terms' checkbox before continuing")
           (demo_world, tt)).
  intros line Hin; vm_compute in Hin.
  repeat destruct Hin as [<- | Hin]; try reflexivity; destruct Hin.
Defined.
